(** * Personal Dictionary: the store, the progress log and the handlers

    A shallow embedding of [15_g570.py]: the two JSON files, [load_data],
    [save_data], [log_progress], the totals of [ProgressDialog] and the
    handlers of [DictionaryApp] that read or change the word mapping.

    Conventions of the embedding.
    - A Python [str] is the list of its code points.
    - A Python [dict] with [str] keys is an association list in insertion
      order, since [json.dump] writes the entries in that order.
    - A file is the text it holds ([None] when it does not exist).
      Writing encodes the text chunk by chunk with UTF-8, which refuses
      the surrogates: the chunk that holds one is not written and the
      write raises [UnicodeEncodeError], with the chunks before it in the
      file. The bytes themselves are not modelled, and neither are the
      interpreter's resource limits (recursion depth, integer digit
      limit).
    - What a handler asks the toolkit or the clock (the current item, the
      answer of a dialog, today's date) is an argument of the handler.
    - An exception leaves the state as it was when it was raised. *)

From Stdlib Require Import ZArith NArith List Bool Lia Ascii String.
From Stdlib Require Import Sorted Permutation Mergesort Orders.
From Stdlib Require Import DecimalN DecimalPos DecimalFacts.
Import ListNotations.

(** ** Python strings *)

Definition pystr := list N.

(** A literal, written in ASCII. *)
Definition str (s : string) : pystr := map N_of_ascii (list_ascii_of_string s).

Fixpoint str_eqb (a b : pystr) : bool :=
  match a, b with
  | [], [] => true
  | x :: a', y :: b' => N.eqb x y && str_eqb a' b'
  | _, _ => false
  end.

(** [a <= b] on [str]: code point by code point, a proper prefix first. *)
Fixpoint str_leb (a b : pystr) : bool :=
  match a, b with
  | [], _ => true
  | _ :: _, [] => false
  | x :: a', y :: b' =>
      if N.ltb x y then true else if N.ltb y x then false else str_leb a' b'
  end.

Fixpoint startswith (s prefix : pystr) {struct prefix} : bool :=
  match prefix, s with
  | [], _ => true
  | _ :: _, [] => false
  | p :: prefix', c :: s' => N.eqb p c && startswith s' prefix'
  end.

(** [sub in s] *)
Fixpoint str_in (sub s : pystr) : bool :=
  startswith s sub ||
  match s with
  | [] => false
  | _ :: s' => str_in sub s'
  end.

(** [str.isspace] on one code point: the white space of the Unicode
    database as CPython tabulates it. *)
Definition isspace (c : N) : bool :=
  (N.leb 9 c && N.leb c 13) || (N.leb 28 c && N.leb c 32)
  || N.eqb c 133 || N.eqb c 160 || N.eqb c 5760
  || (N.leb 8192 c && N.leb c 8202)
  || N.eqb c 8232 || N.eqb c 8233 || N.eqb c 8239 || N.eqb c 8287
  || N.eqb c 12288.

Fixpoint lstrip (s : pystr) : pystr :=
  match s with
  | [] => []
  | c :: s' => if isspace c then lstrip s' else s
  end.

Definition rstrip (s : pystr) : pystr := rev (lstrip (rev s)).

(** [s.strip()] *)
Definition strip (s : pystr) : pystr := rstrip (lstrip s).

(** Lower-casing of the ASCII letters, the part of [str.lower] that is
    written out here. *)
Definition ascii_lower_char (c : N) : N :=
  if N.leb 65 c && N.leb c 90 then N.add c 32 else c.

Definition ascii_lower (s : pystr) : pystr := map ascii_lower_char s.

Definition is_ascii (s : pystr) : Prop := Forall (fun c => N.lt c 128) s.

(** ** [sorted] on a list of [str] *)

Module StrOrder <: TotalLeBool.
Definition t := pystr.
Definition leb := str_leb.
Theorem leb_total : forall a b, leb a b = true \/ leb b a = true.
Proof.
  unfold leb. induction a as [|x a IH]; intros [|y b]; simpl; auto.
  destruct (N.ltb x y) eqn:Hxy; auto.
  destruct (N.ltb y x) eqn:Hyx; auto.
Qed.
End StrOrder.

Module StrSort := Sort StrOrder.

Definition sorted (l : list pystr) : list pystr := StrSort.sort l.

(** ** Python dictionaries with [str] keys *)

Definition dict (A : Type) := list (pystr * A).

Section Dict.
Context {A : Type}.

(** [d.get(k)] *)
Fixpoint dict_get (k : pystr) (d : dict A) : option A :=
  match d with
  | [] => None
  | (k', v) :: d' => if str_eqb k k' then Some v else dict_get k d'
  end.

(** [k in d] *)
Definition dict_contains (k : pystr) (d : dict A) : bool :=
  match dict_get k d with Some _ => true | None => false end.

(** [d[k] = v]: an existing key keeps its place, a new one goes last. *)
Fixpoint dict_set (k : pystr) (v : A) (d : dict A) : dict A :=
  match d with
  | [] => [(k, v)]
  | (k', v') :: d' =>
      if str_eqb k k' then (k', v) :: d' else (k', v') :: dict_set k v d'
  end.

(** [del d[k]], [None] for the [KeyError] of an absent key. *)
Fixpoint dict_del (k : pystr) (d : dict A) : option (dict A) :=
  match d with
  | [] => None
  | (k', v') :: d' =>
      if str_eqb k k' then Some d'
      else match dict_del k d' with
           | Some d'' => Some ((k', v') :: d'')
           | None => None
           end
  end.

(** [d.keys()] *)
Definition dict_keys (d : dict A) : list pystr := map fst d.

(** [d.update(other)] for a mapping [other], and [dict(pairs)]. *)
Definition dict_update (d other : dict A) : dict A :=
  fold_left (fun acc kv => dict_set (fst kv) (snd kv) acc) other d.

End Dict.

(** ** What the program takes from outside the repository

    The float type of the interpreter and the Unicode case tables are not
    part of the program. Every definition and theorem below is stated for
    an arbitrary [Runtime]. *)

Class Runtime : Type := {
  (** the interpreter's [float] *)
  pyfloat : Type;
  (** [float(literal)] on a JSON number with a fraction or an exponent,
      and on [NaN], [Infinity], [-Infinity] *)
  float_of_literal : pystr -> pyfloat;
  (** the text [json.dump] writes for a float *)
  float_repr : pyfloat -> pystr;
  (** [x + 1] on a float *)
  float_add1 : pyfloat -> pyfloat;
  (** [str.lower] *)
  lower : pystr -> pystr;
  (** the text of a float is ASCII: digits, a sign, a point, an exponent,
      or one of [NaN], [Infinity], [-Infinity] *)
  float_repr_ascii : forall x, is_ascii (float_repr x)
}.

(** The ASCII characters of a string. *)
Definition keep_ascii (s : pystr) : pystr := filter (fun c => N.ltb c 128) s.

Lemma keep_ascii_ascii (s : pystr) : is_ascii (keep_ascii s).
Proof.
  apply Forall_forall. intros c Hc. apply filter_In in Hc as [_ Hc].
  now apply N.ltb_lt.
Qed.

(** A run-time whose [lower] knows the ASCII letters only and whose floats
    are the literals they were read from, written back as they were (a
    literal is ASCII). It serves to evaluate the program on inputs that
    hold no float and no cased letter outside ASCII. *)
Definition ascii_runtime : Runtime := {|
  pyfloat := pystr;
  float_of_literal := fun s => s;
  float_repr := keep_ascii;
  float_add1 := fun s => s;
  lower := ascii_lower;
  float_repr_ascii := keep_ascii_ascii
|}.

(** ** Effects: state with exceptions *)

Inductive exn : Type :=
| JSONDecodeError
| FileNotFoundError
| KeyError
| TypeError
| ValueError
| AttributeError
| UnicodeEncodeError.

(** How a call ends. [Unmodelled] marks the runs that leave the fragment
    of Python covered here ([dict.update] from a non-empty list, a float
    among the counters that are summed). *)
Inductive outcome (A : Type) : Type :=
| Return (a : A)
| Raise (e : exn)
| Unmodelled.
Arguments Return {A} a.
Arguments Raise {A} e.
Arguments Unmodelled {A}.

(** A computation over a state [S]; the state reached is kept when an
    exception is raised. *)
Definition M (S A : Type) : Type := S -> outcome A * S.

Definition ret {S A : Type} (a : A) : M S A := fun s => (Return a, s).

Definition raise {S A : Type} (e : exn) : M S A := fun s => (Raise e, s).

Definition unmodelled {S A : Type} : M S A := fun s => (Unmodelled, s).

Definition bind {S A B : Type} (m : M S A) (k : A -> M S B) : M S B :=
  fun s =>
    match m s with
    | (Return a, s') => k a s'
    | (Raise e, s') => (Raise e, s')
    | (Unmodelled, s') => (Unmodelled, s')
    end.

Definition get {S : Type} : M S S := fun s => (Return s, s).

Definition modify {S : Type} (f : S -> S) : M S unit :=
  fun s => (Return tt, f s).

Declare Scope monad_scope.
Delimit Scope monad_scope with monad.
Notation "x <- m ;; k" := (bind m (fun x => k))
  (at level 61, m at next level, right associativity) : monad_scope.
Notation "m ;; k" := (bind m (fun _ => k))
  (at level 61, right associativity) : monad_scope.

(** ** The two files *)

(** [DATA_FILE = "data/word_data.json"],
    [PROGRESS_FILE = "data/progress_log.json"]. *)
Inductive path : Type := DATA_FILE | PROGRESS_FILE.

(** The directory [data/]: the text of each file, [None] when the file
    does not exist. *)
Record FS : Type := mkFS {
  word_data_json : option pystr;
  progress_log_json : option pystr
}.

Definition read (p : path) (fs : FS) : option pystr :=
  match p with
  | DATA_FILE => word_data_json fs
  | PROGRESS_FILE => progress_log_json fs
  end.

Definition write (p : path) (text : pystr) (fs : FS) : FS :=
  match p with
  | DATA_FILE => mkFS (Some text) (progress_log_json fs)
  | PROGRESS_FILE => mkFS (word_data_json fs) (Some text)
  end.

(** [os.path.exists(p)] *)
Definition path_exists (p : path) : M FS bool :=
  fun fs => (Return (match read p fs with Some _ => true | None => false end), fs).

Section Program.
Context {RT : Runtime}.

(** ** The objects [json.load] returns and [json.dump] accepts *)

Unset Elimination Schemes.
Inductive value : Type :=
| VNone
| VBool (b : bool)
| VInt (z : Z)
| VFloat (x : pyfloat)
| VStr (s : pystr)
| VList (l : list value)
| VDict (d : list (pystr * value)).
Set Elimination Schemes.

Local Open Scope N_scope.

(** ** [json.dump] *)

Definition hex_digit (n : N) : N := if n <? 10 then 48 + n else 87 + n.

(** ['\\u{0:04x}'.format(n)] *)
Definition u_escape (n : N) : pystr :=
  [92; 117; hex_digit ((n / 4096) mod 16); hex_digit ((n / 256) mod 16);
   hex_digit ((n / 16) mod 16); hex_digit (n mod 16)].

(** What the encoder writes for one character of a string: the escapes of
    [ESCAPE_DCT], and under [ensure_ascii] a [\uXXXX] escape (a surrogate
    pair above the basic plane) for every character outside [' '..'~']. *)
Definition escape_char (ensure_ascii : bool) (c : N) : pystr :=
  if c =? 34 then [92; 34]
  else if c =? 92 then [92; 92]
  else if c =? 10 then [92; 110]
  else if c =? 13 then [92; 114]
  else if c =? 9 then [92; 116]
  else if c =? 8 then [92; 98]
  else if c =? 12 then [92; 102]
  else if c <? 32 then u_escape c
  else if ensure_ascii && (126 <? c) then
    if c <? 65536 then u_escape c
    else
      let n := c - 65536 in
      u_escape (N.lor 55296 (N.land (N.shiftr n 10) 1023))
      ++ u_escape (N.lor 56320 (N.land n 1023))
  else [c].

Definition encode_basestring (ensure_ascii : bool) (s : pystr) : pystr :=
  34 :: flat_map (escape_char ensure_ascii) s ++ [34].

Fixpoint uint_digits (u : Decimal.uint) : pystr :=
  match u with
  | Decimal.Nil => []
  | Decimal.D0 u => 48 :: uint_digits u
  | Decimal.D1 u => 49 :: uint_digits u
  | Decimal.D2 u => 50 :: uint_digits u
  | Decimal.D3 u => 51 :: uint_digits u
  | Decimal.D4 u => 52 :: uint_digits u
  | Decimal.D5 u => 53 :: uint_digits u
  | Decimal.D6 u => 54 :: uint_digits u
  | Decimal.D7 u => 55 :: uint_digits u
  | Decimal.D8 u => 56 :: uint_digits u
  | Decimal.D9 u => 57 :: uint_digits u
  end.

(** [int.__repr__] *)
Definition int_repr (z : Z) : pystr :=
  (if Z.ltb z 0 then [45] else []) ++ uint_digits (N.to_uint (Z.abs_N z)).

Fixpoint join (sep : pystr) (chunks : list pystr) : pystr :=
  match chunks with
  | [] => []
  | [x] => x
  | x :: chunks' => x ++ sep ++ join sep chunks'
  end.

(** ['\n' + ' ' * (indent * level)] *)
Definition newline_indent (indent level : nat) : pystr :=
  10 :: repeat 32 (indent * level)%nat.

(** The encoder of [json.dump(obj, f, ensure_ascii=..., indent=...)] at
    nesting depth [level]: separators [','] and [': '], keys in insertion
    order, an empty container on one line. *)
Fixpoint iterencode (ensure_ascii : bool) (indent level : nat) (o : value)
  : pystr :=
  match o with
  | VNone => str "null"
  | VBool true => str "true"
  | VBool false => str "false"
  | VInt z => int_repr z
  | VFloat x => float_repr x
  | VStr s => encode_basestring ensure_ascii s
  | VList [] => str "[]"
  | VList l =>
      [91] ++ newline_indent indent (S level)
      ++ join (44 :: newline_indent indent (S level))
           (map (iterencode ensure_ascii indent (S level)) l)
      ++ newline_indent indent level ++ [93]
  | VDict [] => str "{}"
  | VDict d =>
      [123] ++ newline_indent indent (S level)
      ++ join (44 :: newline_indent indent (S level))
           (map (fun kv =>
                   encode_basestring ensure_ascii (fst kv) ++ [58; 32]
                   ++ iterencode ensure_ascii indent (S level) (snd kv)) d)
      ++ newline_indent indent level ++ [125]
  end.

(** The whole text of [json.dump(obj, f, ensure_ascii=..., indent=...)]. *)
Definition dumps (ensure_ascii : bool) (indent : nat) (obj : value) : pystr :=
  iterencode ensure_ascii indent 0 obj.

(** *** The chunks [json.dump] writes one after the other *)

(** The text of a value that is written in one piece, [None] for a list
    or a dictionary. *)
Definition scalar (ensure_ascii : bool) (o : value) : option pystr :=
  match o with
  | VNone => Some (str "null")
  | VBool true => Some (str "true")
  | VBool false => Some (str "false")
  | VInt z => Some (int_repr z)
  | VFloat x => Some (float_repr x)
  | VStr s => Some (encode_basestring ensure_ascii s)
  | VList _ | VDict _ => None
  end.

(** What [_iterencode_list] yields for one item after [buf], the bracket
    or the separator: one chunk when the item is written in one piece,
    [buf] and then the chunks of the item otherwise. *)
Definition list_item (ensure_ascii : bool) (chunks : value -> list pystr)
  (buf : pystr) (value : value) : list pystr :=
  match scalar ensure_ascii value with
  | Some text => [buf ++ text]
  | None => buf :: chunks value
  end.

(** What [_iterencode_dict] yields for one item: the key, the colon, the
    chunks of the value. *)
Definition dict_item (ensure_ascii : bool) (chunks : value -> list pystr)
  (kv : pystr * value) : list pystr :=
  [encode_basestring ensure_ascii (fst kv); [58; 32]] ++ chunks (snd kv).

(** The chunks that [_make_iterencode] yields, in order. *)
Fixpoint iterencode_chunks (ensure_ascii : bool) (indent level : nat)
  (o : value) : list pystr :=
  match o with
  | VNone => [str "null"]
  | VBool true => [str "true"]
  | VBool false => [str "false"]
  | VInt z => [int_repr z]
  | VFloat x => [float_repr x]
  | VStr s => [encode_basestring ensure_ascii s]
  | VList [] => [str "[]"]
  | VList (value :: lst) =>
      list_item ensure_ascii (iterencode_chunks ensure_ascii indent (S level))
        (91 :: newline_indent indent (S level)) value
      ++ flat_map
           (list_item ensure_ascii
              (iterencode_chunks ensure_ascii indent (S level))
              (44 :: newline_indent indent (S level))) lst
      ++ [newline_indent indent level; [93]]
  | VDict [] => [str "{}"]
  | VDict (kv :: dct) =>
      [[123]; newline_indent indent (S level)]
      ++ dict_item ensure_ascii
           (iterencode_chunks ensure_ascii indent (S level)) kv
      ++ flat_map
           (fun kv =>
              (44 :: newline_indent indent (S level))
              :: dict_item ensure_ascii
                   (iterencode_chunks ensure_ascii indent (S level)) kv) dct
      ++ [newline_indent indent level; [125]]
  end.

(** ** [json.load] *)

Definition is_whitespace (c : N) : bool :=
  (c =? 32) || (c =? 9) || (c =? 10) || (c =? 13).

Fixpoint skip_ws (s : pystr) : pystr :=
  match s with
  | [] => []
  | c :: s' => if is_whitespace c then skip_ws s' else s
  end.

Definition hex_val (c : N) : option N :=
  if (48 <=? c) && (c <=? 57) then Some (c - 48)
  else if (97 <=? c) && (c <=? 102) then Some (c - 87)
  else if (65 <=? c) && (c <=? 70) then Some (c - 55)
  else None.

Definition hex4 (h1 h2 h3 h4 : N) : option N :=
  match hex_val h1, hex_val h2, hex_val h3, hex_val h4 with
  | Some a, Some b, Some c, Some d => Some (((a * 16 + b) * 16 + c) * 16 + d)
  | _, _, _, _ => None
  end.

(** The one-letter escapes of [BACKSLASH]. *)
Definition unescape (c : N) : option N :=
  if c =? 34 then Some 34
  else if c =? 92 then Some 92
  else if c =? 47 then Some 47
  else if c =? 98 then Some 8
  else if c =? 102 then Some 12
  else if c =? 110 then Some 10
  else if c =? 114 then Some 13
  else if c =? 116 then Some 9
  else None.

Definition is_high_surrogate (u : N) : bool := (55296 <=? u) && (u <=? 56319).
Definition is_low_surrogate (u : N) : bool := (56320 <=? u) && (u <=? 57343).
Definition join_surrogates (hi lo : N) : N :=
  65536 + (N.lor (N.shiftl (N.land hi 1023) 10) (N.land lo 1023)).

(** [scanstring] in strict mode, from the character after the opening
    quote: the string and the text after its closing quote. *)
Fixpoint scanstring (s : pystr) : option (pystr * pystr) :=
  match s with
  | [] => None
  | c :: s1 =>
    if c =? 34 then Some ([], s1)
    else if c =? 92 then
      match s1 with
      | [] => None
      | e :: s2 =>
        if e =? 117 then
          match s2 with
          | h1 :: h2 :: h3 :: h4 :: s3 =>
            match hex4 h1 h2 h3 h4 with
            | None => None
            | Some u =>
              let single :=
                match scanstring s3 with
                | Some (t, r) => Some (u :: t, r)
                | None => None
                end in
              if is_high_surrogate u then
                match s3 with
                | b :: e2 :: g1 :: g2 :: g3 :: g4 :: s4 =>
                  if (b =? 92) && (e2 =? 117) then
                    match hex4 g1 g2 g3 g4 with
                    | None => None
                    | Some u2 =>
                      if is_low_surrogate u2 then
                        match scanstring s4 with
                        | Some (t, r) => Some (join_surrogates u u2 :: t, r)
                        | None => None
                        end
                      else single
                    end
                  else single
                | _ => single
                end
              else single
            end
          | _ => None
          end
        else
          match unescape e with
          | None => None
          | Some d =>
            match scanstring s2 with
            | Some (t, r) => Some (d :: t, r)
            | None => None
            end
          end
      end
    else if c <? 32 then None
    else
      match scanstring s1 with
      | Some (t, r) => Some (c :: t, r)
      | None => None
      end
  end.

Definition is_digit (c : N) : bool := (48 <=? c) && (c <=? 57).

Fixpoint span_digits (s : pystr) : pystr * pystr :=
  match s with
  | [] => ([], [])
  | c :: s' =>
    if is_digit c then let (ds, r) := span_digits s' in (c :: ds, r)
    else ([], s)
  end.

Fixpoint digits_uint (ds : pystr) : Decimal.uint :=
  match ds with
  | [] => Decimal.Nil
  | c :: ds' =>
    let u := digits_uint ds' in
    if c =? 48 then Decimal.D0 u else if c =? 49 then Decimal.D1 u
    else if c =? 50 then Decimal.D2 u else if c =? 51 then Decimal.D3 u
    else if c =? 52 then Decimal.D4 u else if c =? 53 then Decimal.D5 u
    else if c =? 54 then Decimal.D6 u else if c =? 55 then Decimal.D7 u
    else if c =? 56 then Decimal.D8 u else Decimal.D9 u
  end.

(** The integer part [0|[1-9][0-9]*] at the head of [s]. *)
Definition match_integer (s : pystr) : option (pystr * pystr) :=
  match s with
  | [] => None
  | c :: s' =>
    if c =? 48 then Some ([c], s')
    else if is_digit c then let (ds, r) := span_digits s' in Some (c :: ds, r)
    else None
  end.

(** The optional fraction [\.[0-9]+] at the head of [s]. *)
Definition match_frac (s : pystr) : pystr * pystr :=
  match s with
  | c :: s' =>
    if c =? 46 then
      match span_digits s' with
      | ([], _) => ([], s)
      | (ds, r) => (c :: ds, r)
      end
    else ([], s)
  | [] => ([], s)
  end.

(** The optional exponent [[eE][-+]?[0-9]+] at the head of [s]. *)
Definition match_exp (s : pystr) : pystr * pystr :=
  match s with
  | c :: s' =>
    if (c =? 101) || (c =? 69) then
      let (sign, s'') :=
        match s' with
        | c2 :: s2 => if (c2 =? 45) || (c2 =? 43) then ([c2], s2) else ([], s')
        | [] => ([], s')
        end in
      match span_digits s'' with
      | ([], _) => ([], s)
      | (ds, r) => (c :: sign ++ ds, r)
      end
    else ([], s)
  | [] => ([], s)
  end.

(** [_match_number]: an [int] when the literal has neither fraction nor
    exponent, a [float] otherwise. *)
Definition match_number (s : pystr) : option (value * pystr) :=
  let (sign, s1) :=
    match s with
    | c :: s' => if c =? 45 then ([c], s') else ([], s)
    | [] => ([], s)
    end in
  match match_integer s1 with
  | None => None
  | Some (ip, r) =>
    let (frac, r1) := match_frac r in
    let (exp, r2) := match_exp r1 in
    match frac, exp with
    | [], [] =>
      let n := Z.of_N (N.of_uint (digits_uint ip)) in
      Some (VInt (match sign with [] => n | _ => Z.opp n end), r2)
    | _, _ => Some (VFloat (float_of_literal (sign ++ ip ++ frac ++ exp)), r2)
    end
  end.

(** The named constant [name] at the head of [s]. *)
Definition match_constant (name : pystr) (s : pystr) : option pystr :=
  if startswith s name then Some (skipn (List.length name) s) else None.

(** [scan_once]: one JSON term at the head of [s] and the text after it.
    [parse_object] and [parse_array] continue after the opening bracket
    and the white space that follows it, when the container is not empty;
    they hold what was read so far. [fuel] bounds the nesting. *)
Fixpoint scan_once (fuel : nat) (s : pystr) {struct fuel}
  : option (value * pystr) :=
  match fuel with
  | O => None
  | S fuel' =>
    match s with
    | [] => None
    | c :: s1 =>
      if c =? 34 then
        match scanstring s1 with
        | Some (t, r) => Some (VStr t, r)
        | None => None
        end
      else if c =? 123 then
        match skip_ws s1 with
        | [] => None
        | c2 :: s2 =>
          if c2 =? 125 then Some (VDict [], s2)
          else
            match parse_object fuel' (c2 :: s2) [] with
            | Some (d, r) => Some (VDict d, r)
            | None => None
            end
        end
      else if c =? 91 then
        match skip_ws s1 with
        | [] => None
        | c2 :: s2 =>
          if c2 =? 93 then Some (VList [], s2)
          else
            match parse_array fuel' (c2 :: s2) [] with
            | Some (l, r) => Some (VList l, r)
            | None => None
            end
        end
      else
        match
          (if c =? 110 then match_constant (str "null") s
           else if c =? 116 then match_constant (str "true") s
           else if c =? 102 then match_constant (str "false") s
           else if c =? 78 then match_constant (str "NaN") s
           else if c =? 73 then match_constant (str "Infinity") s
           else if c =? 45 then match_constant (str "-Infinity") s
           else None)
        with
        | Some r =>
          Some (if c =? 110 then VNone
                else if c =? 116 then VBool true
                else if c =? 102 then VBool false
                else if c =? 78 then VFloat (float_of_literal (str "NaN"))
                else if c =? 73 then VFloat (float_of_literal (str "Infinity"))
                else VFloat (float_of_literal (str "-Infinity")), r)
        | None => match_number s
        end
    end
  end

with parse_object (fuel : nat) (s : pystr) (d : list (pystr * value))
  {struct fuel} : option (list (pystr * value) * pystr) :=
  match fuel with
  | O => None
  | S fuel' =>
    match s with
    | [] => None
    | c :: s1 =>
      if c =? 34 then
        match scanstring s1 with
        | None => None
        | Some (key, r) =>
          match skip_ws r with
          | [] => None
          | c2 :: r2 =>
            if c2 =? 58 then
              match scan_once fuel' (skip_ws r2) with
              | None => None
              | Some (val, r3) =>
                let d' := dict_set key val d in
                match skip_ws r3 with
                | [] => None
                | c3 :: r4 =>
                  if c3 =? 125 then Some (d', r4)
                  else if c3 =? 44 then parse_object fuel' (skip_ws r4) d'
                  else None
                end
              end
            else None
          end
        end
      else None
    end
  end

with parse_array (fuel : nat) (s : pystr) (l : list value) {struct fuel}
  : option (list value * pystr) :=
  match fuel with
  | O => None
  | S fuel' =>
    match scan_once fuel' s with
    | None => None
    | Some (val, r) =>
      let l' := l ++ [val] in
      match skip_ws r with
      | [] => None
      | c :: r2 =>
        if c =? 93 then Some (l', r2)
        else if c =? 44 then parse_array fuel' (skip_ws r2) l'
        else None
      end
    end
  end.

(** [json.loads(text)]: [None] stands for [JSONDecodeError]. *)
Definition loads (text : pystr) : option value :=
  match scan_once (S (List.length text)) (skip_ws text) with
  | None => None
  | Some (v, r) =>
    match skip_ws r with
    | [] => Some v
    | _ :: _ => None
    end
  end.

Local Close Scope N_scope.

Local Open Scope monad_scope.

(** ** Storage *)

(** [with open(p, 'r', encoding='utf-8') as f: json.load(f)] *)
Definition json_load (p : path) : M FS value :=
  fun fs =>
    match read p fs with
    | None => (Raise FileNotFoundError, fs)
    | Some text =>
      match loads text with
      | Some v => (Return v, fs)
      | None => (Raise JSONDecodeError, fs)
      end
    end.

(** The surrogates, which the UTF-8 codec refuses. *)
Definition is_surrogate (c : N) : bool :=
  N.leb 55296 c && N.leb c 57343.

(** [chunk.encode('utf-8')] succeeds. *)
Definition encodable (chunk : pystr) : bool :=
  forallb (fun c => negb (is_surrogate c)) chunk.

(** [for chunk in iterable: fp.write(chunk)] on a file opened with
    [encoding='utf-8']: the text that reaches the file, and whether every
    chunk was written. The chunk that cannot be encoded stops the loop and
    nothing of it is written. *)
Fixpoint write_chunks (chunks : list pystr) : pystr * bool :=
  match chunks with
  | [] => ([], true)
  | chunk :: chunks' =>
    if encodable chunk
    then let (text, ok) := write_chunks chunks' in (chunk ++ text, ok)
    else ([], false)
  end.

(** [with open(p, 'w', encoding='utf-8') as f: json.dump(obj, f, ...)]:
    the file is emptied when it is opened, the chunks are written until
    one cannot be encoded, and the file is closed with what was written. *)
Definition json_dump (obj : value) (p : path) (ensure_ascii : bool)
  (indent : nat) : M FS unit :=
  fun fs =>
    let (text, ok) :=
      write_chunks (iterencode_chunks ensure_ascii indent 0 obj) in
    (if ok then Return tt else Raise UnicodeEncodeError, write p text fs).

Definition load_data : M FS value :=
  e <- path_exists DATA_FILE ;;
  if e then json_load DATA_FILE else ret (VDict []).

Definition save_data (data : value) : M FS unit :=
  json_dump data DATA_FILE false 4.

(** ** The progress log *)

(** [{"added": 0, "viewed": 0}] *)
Definition new_day : value :=
  VDict [(str "added", VInt 0); (str "viewed", VInt 0)].

(** [log.update(other)] on a dictionary [log]. *)
Definition update_from {S : Type} (log : dict value) (other : value)
  : M S (dict value) :=
  match other with
  | VDict d => ret (dict_update log d)
  | VStr [] => ret log
  | VStr (_ :: _) => raise ValueError
  | VList [] => ret log
  | VList (_ :: _) => unmodelled
  | VNone | VBool _ | VInt _ | VFloat _ => raise TypeError
  end.

(** [v + 1] *)
Definition add1 {S : Type} (v : value) : M S value :=
  match v with
  | VInt z => ret (VInt (z + 1))
  | VBool b => ret (VInt (Z.b2z b + 1))
  | VFloat x => ret (VFloat (float_add1 x))
  | VNone | VStr _ | VList _ | VDict _ => raise TypeError
  end.

(** [log[today][action] += 1] on the [defaultdict] [log], whose factory
    makes a [new_day]. *)
Definition increment {S : Type} (log : dict value) (today action : pystr)
  : M S (dict value) :=
  let (entry, log) :=
    match dict_get today log with
    | Some entry => (entry, log)
    | None => (new_day, dict_set today new_day log)
    end in
  match entry with
  | VDict day =>
    match dict_get action day with
    | None => raise KeyError
    | Some v =>
      v' <- add1 v ;;
      ret (dict_set today (VDict (dict_set action v' day)) log)
    end
  | _ => raise TypeError
  end.

(** [log_progress(action)], on the day [today] that
    [datetime.now().strftime("%Y-%m-%d")] gives. *)
Definition log_progress (action today : pystr) : M FS unit :=
  let log := [] in
  e <- path_exists PROGRESS_FILE ;;
  log <- (if e then
            other <- json_load PROGRESS_FILE ;;
            update_from log other
          else ret log) ;;
  let log :=
    if negb (dict_contains today log) then dict_set today new_day log
    else log in
  log <- increment log today action ;;
  json_dump (VDict log) PROGRESS_FILE true 2.

(** ** The totals of [ProgressDialog] *)

(** [stats.get(k, 0)] *)
Definition stats_get {S : Type} (stats : value) (k : pystr) : M S value :=
  match stats with
  | VDict day =>
    ret (match dict_get k day with Some v => v | None => VInt 0 end)
  | _ => raise AttributeError
  end.

(** [total += n] on an [int] total. *)
Definition add_to {S : Type} (total : Z) (n : value) : M S Z :=
  match n with
  | VInt z => ret (total + z)%Z
  | VBool b => ret (total + Z.b2z b)%Z
  | VFloat _ => unmodelled
  | VNone | VStr _ | VList _ | VDict _ => raise TypeError
  end.

(** The loop of [ProgressDialog.__init__] over the dates still to visit:
    the lines written and the two totals. *)
Fixpoint summarize {S : Type} (data : dict value) (dates : list pystr)
  (lines : list (pystr * value * value)) (total_added total_viewed : Z)
  : M S (list (pystr * value * value) * Z * Z) :=
  match dates with
  | [] => ret (lines, total_added, total_viewed)
  | date :: dates' =>
    stats <- match dict_get date data with
             | Some stats => ret stats
             | None => raise KeyError
             end ;;
    added <- stats_get stats (str "added") ;;
    viewed <- stats_get stats (str "viewed") ;;
    total_added <- add_to total_added added ;;
    total_viewed <- add_to total_viewed viewed ;;
    summarize data dates' (lines ++ [(date, added, viewed)])
      total_added total_viewed
  end.

(** What [ProgressDialog(data)] shows: one line per date in sorted order,
    then the totals. *)
Definition ProgressDialog {S : Type} (data : value)
  : M S (list (pystr * value * value) * Z * Z) :=
  match data with
  | VDict d => summarize d (sorted (dict_keys d)) [] 0%Z 0%Z
  | _ => raise AttributeError
  end.

(** [show_progress]: [None] when no progress file exists. *)
Definition show_progress
  : M FS (option (list (pystr * value * value) * Z * Z)) :=
  e <- path_exists PROGRESS_FILE ;;
  if negb e then ret None
  else
    data <- json_load PROGRESS_FILE ;;
    shown <- ProgressDialog data ;;
    ret (Some shown).

(** ** The application *)

(** The explanation pane: empty, or showing
    [convert_to_html(md, dark=dark)]. *)
Inductive browser : Type :=
| Blank
| Html (md : pystr) (dark : bool).

Record DictionaryApp : Type := mkApp {
  word_data : dict value;
  dark_mode : bool;
  word_list : list pystr;
  text_browser : browser
}.

(** The application object and the files it works on. *)
Record world : Type := mkWorld {
  self : DictionaryApp;
  disk : FS
}.

Definition on_disk {A : Type} (m : M FS A) : M world A :=
  fun w => let (o, fs) := m (disk w) in (o, mkWorld (self w) fs).

Definition on_self (f : DictionaryApp -> DictionaryApp) : M world unit :=
  modify (fun w => mkWorld (f (self w)) (disk w)).

Definition set_word_data (d : dict value) (a : DictionaryApp) :=
  mkApp d (dark_mode a) (word_list a) (text_browser a).
Definition set_dark_mode (b : bool) (a : DictionaryApp) :=
  mkApp (word_data a) b (word_list a) (text_browser a).
Definition set_word_list (l : list pystr) (a : DictionaryApp) :=
  mkApp (word_data a) (dark_mode a) l (text_browser a).
Definition set_text_browser (b : browser) (a : DictionaryApp) :=
  mkApp (word_data a) (dark_mode a) (word_list a) b.

(** [self.word_data.get(word, "")] *)
Definition word_data_get (word : pystr) (a : DictionaryApp) : value :=
  match dict_get word (word_data a) with
  | Some v => v
  | None => VStr []
  end.

(** [DictionaryApp.__init__]: [load_data], then the call of
    [refresh_word_list] that ends [init_ui] and needs a dictionary. *)
Definition DictionaryApp_init : M FS DictionaryApp :=
  data <- load_data ;;
  match data with
  | VDict d => ret (mkApp d false (sorted (dict_keys d)) Blank)
  | _ => raise AttributeError
  end.

Definition refresh_word_list : M world unit :=
  on_self (fun a => set_word_list (sorted (dict_keys (word_data a))) a).

(** [filter_words], [text] being [self.search_box.text()]. *)
Definition filter_words (text : pystr) : M world unit :=
  let query := lower text in
  on_self (fun a =>
    set_word_list
      (filter (fun word => str_in query (lower word))
         (sorted (dict_keys (word_data a)))) a).

(** [display_explanation(item)], [word] being [item.text()]; the
    conversion to HTML needs a [str]. *)
Definition display_explanation (word today : pystr) : M world unit :=
  w <- get ;;
  match word_data_get word (self w) with
  | VStr md =>
    on_self (set_text_browser (Html md (dark_mode (self w)))) ;;
    on_disk (log_progress (str "viewed") today)
  | _ => raise AttributeError
  end.

(** [add_word]: [answer] is what [QInputDialog.getText] returns, [dialog]
    the text of the [EditDialog] when it is accepted. *)
Definition add_word (answer : pystr * bool) (dialog : option pystr)
  (today : pystr) : M world unit :=
  let (word, ok) := answer in
  if negb ok || match strip word with [] => true | _ :: _ => false end
  then ret tt
  else
    match dialog with
    | None => ret tt
    | Some explanation =>
      on_self (fun a =>
        set_word_data (dict_set word (VStr explanation) (word_data a)) a) ;;
      w <- get ;;
      on_disk (save_data (VDict (word_data (self w)))) ;;
      on_disk (log_progress (str "added") today) ;;
      refresh_word_list
    end.

(** [edit_word]: [item] is [self.word_list.currentItem()], by its text;
    the [EditDialog] is built on the current explanation, which has to
    be a [str]. *)
Definition edit_word (item : option pystr) (dialog : option pystr)
  (today : pystr) : M world unit :=
  match item with
  | None => ret tt
  | Some word =>
    w <- get ;;
    match word_data_get word (self w) with
    | VStr current_explanation =>
      match dialog with
      | None => ret tt
      | Some updated =>
        on_self (fun a =>
          set_word_data (dict_set word (VStr updated) (word_data a)) a) ;;
        w <- get ;;
        on_disk (save_data (VDict (word_data (self w)))) ;;
        display_explanation word today
      end
    | _ => raise TypeError
    end
  end.

(** [delete_word]: [confirm] tells whether the question was answered
    with Yes. *)
Definition delete_word (item : option pystr) (confirm : bool)
  : M world unit :=
  match item with
  | None => ret tt
  | Some word =>
    if confirm then
      w <- get ;;
      match dict_del word (word_data (self w)) with
      | None => raise KeyError
      | Some d =>
        on_self (set_word_data d) ;;
        on_disk (save_data (VDict d)) ;;
        refresh_word_list ;;
        on_self (set_text_browser Blank)
      end
    else ret tt
  end.

Definition toggle_dark_mode (item : option pystr) (today : pystr)
  : M world unit :=
  on_self (fun a => set_dark_mode (negb (dark_mode a)) a) ;;
  match item with
  | Some word => display_explanation word today
  | None => ret tt
  end.

(** The keys that [handle_key_press] tells apart: [Qt.Key_Return],
    [Qt.Key_Enter], and all the others. *)
Inductive Qt_Key : Type := Key_Return | Key_Enter | Key_other.

(** [handle_key_press(event)], the key handler of the list widget:
    [event] by its key, [item] being [self.word_list.currentItem()]. Any
    other key goes to [QListWidget.keyPressEvent], which moves the
    selection and calls nothing of the program. *)
Definition handle_key_press (event : Qt_Key) (item : option pystr)
  (today : pystr) : M world unit :=
  match event with
  | Key_Return | Key_Enter =>
    match item with
    | Some word => display_explanation word today
    | None => ret tt
    end
  | Key_other => ret tt
  end.

Local Close Scope monad_scope.

(** ** Vocabulary of the statements *)

(** The two actions that are logged. *)
Definition is_action (action : pystr) : Prop :=
  action = str "added" \/ action = str "viewed".

(** The log [log_progress] starts from: what the progress file holds, the
    empty log when there is no file. *)
Definition prior_log (fs : FS) (log : dict value) : Prop :=
  match progress_log_json fs with
  | None => log = []
  | Some text => loads text = Some (VDict log)
  end.

(** The entry of [date], a fresh one when the log has none. *)
Definition day_of (date : pystr) (log : dict value) : dict value :=
  match dict_get date log with
  | Some (VDict day) => day
  | _ => [(str "added", VInt 0); (str "viewed", VInt 0)]
  end.

(** The counter of [action] on [date], 0 for a date without entry. *)
Definition counter (action date : pystr) (log : dict value) : Z :=
  match dict_get action (day_of date log) with
  | Some (VInt n) => n
  | _ => 0%Z
  end.

(** The entry of [today], when there is one, is a dictionary that counts
    [action] with an [int]. *)
Definition counter_ready (action today : pystr) (log : dict value) : Prop :=
  match dict_get today log with
  | None => True
  | Some (VDict day) => exists n, dict_get action day = Some (VInt n)
  | Some _ => False
  end.

(** [log] with one more [action] on [today]. *)
Definition bump (action today : pystr) (log : dict value) : dict value :=
  dict_set today
    (VDict (dict_set action (VInt (counter action today log + 1))
              (day_of today log)))
    log.

(** The code points of text: everything but the surrogates. *)
Definition is_scalar (c : N) : Prop :=
  (c < 55296 \/ (57344 <= c /\ c < 1114112))%N.

Definition is_text (s : pystr) : Prop := Forall is_scalar s.

(** The strings that are read back as they were: all of them without
    [ensure_ascii], text with it (two escaped surrogates in a row would be
    read as one character). *)
Definition str_ok (ensure_ascii : bool) (s : pystr) : Prop :=
  ensure_ascii = true -> is_text s.

Unset Elimination Schemes.
(** The values that [json.load] gives back as they were written: no
    float, no repeated key, strings that are read back. *)
Inductive plain (ensure_ascii : bool) : value -> Prop :=
| plain_none : plain ensure_ascii VNone
| plain_bool (b : bool) : plain ensure_ascii (VBool b)
| plain_int (z : Z) : plain ensure_ascii (VInt z)
| plain_str (s : pystr) : str_ok ensure_ascii s -> plain ensure_ascii (VStr s)
| plain_list (l : list value) :
    Forall (plain ensure_ascii) l -> plain ensure_ascii (VList l)
| plain_dict (d : list (pystr * value)) :
    NoDup (dict_keys d) ->
    Forall (fun kv => str_ok ensure_ascii (fst kv)) d ->
    Forall (plain ensure_ascii) (map snd d) ->
    plain ensure_ascii (VDict d).
Set Elimination Schemes.

(** Every string of the value, key or not, can be encoded. *)
Fixpoint storable (o : value) : bool :=
  match o with
  | VStr s => encodable s
  | VList lst => forallb storable lst
  | VDict dct =>
      forallb (fun kv => encodable (fst kv) && storable (snd kv)) dct
  | _ => true
  end.

(** The text that [json.dump] leaves in the file: the whole text, or its
    beginning when a chunk cannot be encoded. *)
Definition written (ensure_ascii : bool) (indent : nat) (obj : value)
  : pystr :=
  fst (write_chunks (iterencode_chunks ensure_ascii indent 0 obj)).

(** The word-data file holds exactly the whole text of [save_data] for the
    mapping in memory. *)
Definition synced (w : world) : Prop :=
  word_data_json (disk w) = Some (dumps false 4 (VDict (word_data (self w)))).

(** Every item of the list widget is a word of the mapping. *)
Definition listed (w : world) : Prop :=
  incl (word_list (self w)) (dict_keys (word_data (self w))).

(** [log_progress] called for each event in turn, an event being an
    action and the day it is logged on. *)
Fixpoint log_all (events : list (pystr * pystr)) : M FS unit :=
  match events with
  | [] => ret tt
  | (action, today) :: events' =>
    bind (log_progress action today) (fun _ => log_all events')
  end.

(** How many of the events are [action] on [date]. *)
Definition logged (action date : pystr) (events : list (pystr * pystr)) : Z :=
  Z.of_nat
    (List.length
       (filter (fun e => str_eqb (fst e) action && str_eqb (snd e) date)
          events)).

(** The counter of [action] in [day], when there is one, is an [int]. *)
Definition counts (action : pystr) (day : dict value) : Prop :=
  match dict_get action day with
  | None | Some (VInt _) => True
  | Some _ => False
  end.

(** Every entry of the log is a dictionary whose counters are [int]s. *)
Definition countable (log : dict value) : Prop :=
  Forall (fun kv =>
            match snd kv with
            | VDict day => counts (str "added") day /\ counts (str "viewed") day
            | _ => False
            end) log.

(** The sum of the counters of [action] over the days of the log. *)
Definition total (action : pystr) (log : dict value) : Z :=
  fold_right Z.add 0%Z
    (map (fun date => counter action date log) (dict_keys log)).

(** The line of [date]: the date and its two counters. *)
Definition line_of (log : dict value) (date : pystr)
  : pystr * value * value :=
  (date, VInt (counter (str "added") date log),
   VInt (counter (str "viewed") date log)).

(** The word-data file holds what [save_data] writes for the mapping in
    memory, which can be written, and reading it gives that mapping
    back. *)
Definition saved (w : world) : Prop :=
  synced w /\
  storable (VDict (word_data (self w))) = true /\
  plain false (VDict (word_data (self w))).

(** The application object after a start. *)
Definition started (d : dict value) : DictionaryApp :=
  mkApp d false (sorted (dict_keys d)) Blank.

End Program.

(** * Properties *)

(** ** Strings *)

Lemma str_eqb_eq (a b : pystr) : str_eqb a b = true <-> a = b.
Proof.
  revert b. induction a as [|x a IH]; intros [|y b]; simpl;
    try (split; [discriminate | intros H; discriminate H]);
    try tauto.
  rewrite andb_true_iff, N.eqb_eq, IH.
  split; [intros [-> ->]; reflexivity | intros H; injection H; auto].
Qed.

Lemma str_eqb_refl (a : pystr) : str_eqb a a = true.
Proof. apply str_eqb_eq; reflexivity. Qed.

Lemma str_eqb_neq (a b : pystr) : str_eqb a b = false <-> a <> b.
Proof.
  rewrite <- str_eqb_eq. destruct (str_eqb a b); split; congruence.
Qed.

Definition pystr_eq_dec (a b : pystr) : {a = b} + {a <> b} :=
  list_eq_dec N.eq_dec a b.

Ltac case_str_eqb k k' :=
  let E := fresh "E" in
  destruct (str_eqb k k') eqn:E;
  [apply str_eqb_eq in E | apply str_eqb_neq in E].

Lemma str_leb_refl (a : pystr) : str_leb a a = true.
Proof.
  induction a as [|x a IH]; simpl; auto. now rewrite N.ltb_irrefl.
Qed.

Lemma str_leb_trans (a b c : pystr) :
  str_leb a b = true -> str_leb b c = true -> str_leb a c = true.
Proof.
  revert b c. induction a as [|x a IH]; intros [|y b] [|z c]; simpl; auto;
    try discriminate.
  destruct (N.ltb_spec x y), (N.ltb_spec y z), (N.ltb_spec x z); auto;
    try lia;
    destruct (N.ltb_spec y x), (N.ltb_spec z y), (N.ltb_spec z x);
    try discriminate; try lia; eauto.
Qed.

Lemma str_leb_antisym (a b : pystr) :
  str_leb a b = true -> str_leb b a = true -> a = b.
Proof.
  revert b. induction a as [|x a IH]; intros [|y b]; simpl; auto;
    try discriminate.
  destruct (N.ltb_spec x y), (N.ltb_spec y x); try discriminate; try lia.
  intros Hab Hba. f_equal; [lia | auto].
Qed.

Lemma startswith_app (s prefix : pystr) :
  startswith s prefix = true <-> exists post, s = prefix ++ post.
Proof.
  revert s. induction prefix as [|p prefix IH]; intros s; simpl.
  - split; [intros _; now exists s | reflexivity].
  - destruct s as [|c s].
    + split; [discriminate | intros [post H]; discriminate H].
    + rewrite andb_true_iff, N.eqb_eq, IH. split.
      * intros [-> [post ->]]. now exists post.
      * intros [post H]. injection H as -> ->. eauto.
Qed.

(** [sub in s] holds exactly when [sub] occurs in [s]. *)
Lemma str_in_occurs (sub s : pystr) :
  str_in sub s = true <-> exists pre post, s = pre ++ sub ++ post.
Proof.
  induction s as [|c s IH]; simpl.
  - rewrite orb_false_r, startswith_app. split.
    + intros [post H]. now exists [], post.
    + intros [pre [post H]]. destruct pre; [now exists post | discriminate H].
  - rewrite orb_true_iff, startswith_app, IH. split.
    + intros [[post H] | [pre [post H]]].
      * now exists [], post.
      * exists (c :: pre), post. now rewrite H.
    + intros [[|c' pre] [post H]].
      * left. now exists post.
      * right. injection H as _ ->. eauto.
Qed.

Lemma str_in_empty (s : pystr) : str_in [] s = true.
Proof. apply str_in_occurs. now exists [], s. Qed.

(** ** [sorted] *)

Lemma sorted_Permutation (l : list pystr) : Permutation (sorted l) l.
Proof. symmetry. apply StrSort.Permuted_sort. Qed.

Lemma sorted_In (l : list pystr) (x : pystr) : In x (sorted l) <-> In x l.
Proof.
  split; apply Permutation_in;
    [apply sorted_Permutation | symmetry; apply sorted_Permutation].
Qed.

Lemma sorted_NoDup (l : list pystr) : NoDup l -> NoDup (sorted l).
Proof.
  apply Permutation_NoDup. symmetry. apply sorted_Permutation.
Qed.

Lemma sorted_count_occ (l : list pystr) (x : pystr) :
  count_occ pystr_eq_dec (sorted l) x = count_occ pystr_eq_dec l x.
Proof. apply Permutation_count_occ, sorted_Permutation. Qed.

(** The order of the output: every word is [<=] all the words after it. *)
Definition ascending (l : list pystr) : Prop :=
  StronglySorted (fun a b => str_leb a b = true) l.

Lemma sorted_ascending (l : list pystr) : ascending (sorted l).
Proof.
  apply StrSort.StronglySorted_sort.
  intros a b c. apply str_leb_trans.
Qed.

Lemma filter_ascending (f : pystr -> bool) (l : list pystr) :
  ascending l -> ascending (filter f l).
Proof.
  unfold ascending. induction 1 as [|x l Hl IH Hx]; simpl.
  - constructor.
  - destruct (f x); auto. constructor; auto.
    rewrite Forall_forall in *. intros y Hy.
    apply filter_In in Hy. apply Hx, Hy.
Qed.

(** Two ascending lists with the same words are the same list. *)
Lemma ascending_unique (l1 l2 : list pystr) :
  ascending l1 -> ascending l2 -> NoDup l1 -> NoDup l2 ->
  (forall x, In x l1 <-> In x l2) -> l1 = l2.
Proof.
  unfold ascending. intros H1. revert l2.
  induction H1 as [|x l1 Hl1 IH Hx]; intros l2 H2 N1 N2 Hin.
  - destruct l2 as [|y l2]; auto. destruct (Hin y) as [_ F].
    exfalso. apply F. now left.
  - destruct l2 as [|y l2].
    { destruct (Hin x) as [F _]. exfalso. apply F. now left. }
    inversion H2 as [|? ? Hl2 Hy]; subst.
    inversion N1 as [|? ? Nx N1']; subst.
    inversion N2 as [|? ? Ny N2']; subst.
    rewrite Forall_forall in Hx, Hy.
    assert (x = y) as ->.
    { destruct (proj1 (Hin x) (or_introl eq_refl)) as [E | Hxl2]; auto.
      destruct (proj2 (Hin y) (or_introl eq_refl)) as [E | Hyl1]; auto.
      apply str_leb_antisym; auto. }
    f_equal. apply IH; auto.
    intros z. split; intros Hz.
    + destruct (proj1 (Hin z) (or_intror Hz)) as [E | ?]; auto.
      subst. contradiction.
    + destruct (proj2 (Hin z) (or_intror Hz)) as [E | ?]; auto.
      subst. contradiction.
Qed.

(** ** Dictionaries *)

Section DictFacts.
Context {A : Type}.
Implicit Types (d : dict A) (k : pystr) (v : A).

Lemma dict_get_set_eq k v d : dict_get k (dict_set k v d) = Some v.
Proof.
  induction d as [|[k' v'] d IH]; simpl.
  - now rewrite str_eqb_refl.
  - case_str_eqb k k'; simpl.
    + subst. now rewrite str_eqb_refl.
    + apply str_eqb_neq in E. now rewrite E.
Qed.

Lemma dict_get_set_ne k k' v d :
  k <> k' -> dict_get k' (dict_set k v d) = dict_get k' d.
Proof.
  intros Hne. induction d as [|[k0 v0] d IH]; simpl.
  - assert (str_eqb k' k = false) as -> by (apply str_eqb_neq; congruence).
    reflexivity.
  - case_str_eqb k k0; simpl.
    + subst k0.
      assert (str_eqb k' k = false) as -> by (apply str_eqb_neq; congruence).
      reflexivity.
    + destruct (str_eqb k' k0); auto.
Qed.

Lemma dict_contains_In k d : dict_contains k d = true <-> In k (dict_keys d).
Proof.
  unfold dict_contains. induction d as [|[k' v'] d IH]; simpl.
  - split; [discriminate | tauto].
  - case_str_eqb k k'.
    + subst. tauto.
    + rewrite IH. split; auto. intros [H | H]; auto. congruence.
Qed.

Lemma dict_get_None k d : dict_get k d = None <-> ~ In k (dict_keys d).
Proof.
  rewrite <- dict_contains_In. unfold dict_contains.
  destruct (dict_get k d); split; congruence.
Qed.

Lemma dict_get_Some_In k v d : dict_get k d = Some v -> In k (dict_keys d).
Proof.
  intros H. apply dict_contains_In. unfold dict_contains. now rewrite H.
Qed.

Lemma dict_keys_set k v d :
  dict_keys (dict_set k v d) =
  if dict_contains k d then dict_keys d else dict_keys d ++ [k].
Proof.
  unfold dict_contains. induction d as [|[k' v'] d IH]; simpl; auto.
  case_str_eqb k k'; simpl; auto.
  rewrite IH. destruct (dict_get k d); reflexivity.
Qed.

Lemma dict_set_In k v d : In k (dict_keys (dict_set k v d)).
Proof.
  eapply dict_get_Some_In, dict_get_set_eq.
Qed.

Lemma dict_set_NoDup k v d :
  NoDup (dict_keys d) -> NoDup (dict_keys (dict_set k v d)).
Proof.
  intros Hd. rewrite dict_keys_set.
  destruct (dict_contains k d) eqn:E; auto.
  apply NoDup_app; auto.
  - repeat constructor. simpl. tauto.
  - intros x Hx [<- | []].
    apply dict_contains_In in Hx. congruence.
Qed.

Lemma dict_set_count k v d :
  NoDup (dict_keys d) ->
  count_occ pystr_eq_dec (dict_keys (dict_set k v d)) k = 1.
Proof.
  intros Hd. apply NoDup_count_occ'.
  - now apply dict_set_NoDup.
  - apply dict_set_In.
Qed.

Lemma dict_update_NoDup d other :
  NoDup (dict_keys d) -> NoDup (dict_keys (dict_update d other)).
Proof.
  unfold dict_update. revert d.
  induction other as [|[k v] other IH]; intros d Hd; simpl; auto.
  apply IH. now apply dict_set_NoDup.
Qed.

Lemma dict_del_keys k d d' :
  dict_del k d = Some d' ->
  exists l1 l2, dict_keys d = l1 ++ k :: l2 /\ dict_keys d' = l1 ++ l2.
Proof.
  revert d'. induction d as [|[k0 v0] d IH]; intros d'; simpl.
  - discriminate.
  - case_str_eqb k k0.
    + intros [= <-]. subst. now exists [], (dict_keys d).
    + destruct (dict_del k d) as [d''|]; [|discriminate].
      intros [= <-]. destruct (IH d'' eq_refl) as (l1 & l2 & H1 & H2).
      exists (k0 :: l1), l2. simpl. now rewrite H1, H2.
Qed.

Lemma dict_del_None k d : dict_del k d = None <-> ~ In k (dict_keys d).
Proof.
  induction d as [|[k0 v0] d IH]; simpl.
  - tauto.
  - case_str_eqb k k0.
    + subst. split; [discriminate | tauto].
    + destruct (dict_del k d).
      * split; [discriminate |]. intros H. exfalso.
        assert (~ In k (dict_keys d)) as H' by tauto.
        apply IH in H'. discriminate.
      * split; auto. intros _ [H | H]; [congruence |].
        now apply (proj1 IH).
Qed.

Lemma dict_del_NoDup k d d' :
  dict_del k d = Some d' ->
  NoDup (dict_keys d) -> NoDup (dict_keys d') /\ ~ In k (dict_keys d').
Proof.
  intros Hdel Hd. destruct (dict_del_keys _ _ _ Hdel) as (l1 & l2 & H1 & H2).
  rewrite H1 in Hd. rewrite H2. split.
  - eapply NoDup_remove_1; eassumption.
  - eapply NoDup_remove_2; eassumption.
Qed.

Lemma dict_del_get_ne k k' d d' :
  dict_del k d = Some d' -> k <> k' -> dict_get k' d' = dict_get k' d.
Proof.
  revert d'. induction d as [|[k0 v0] d IH]; intros d'; simpl.
  - discriminate.
  - case_str_eqb k k0.
    + intros [= <-] Hne. subst.
      assert (str_eqb k' k0 = false) as -> by (apply str_eqb_neq; congruence).
      reflexivity.
    + destruct (dict_del k d) as [d''|]; [|discriminate].
      intros [= <-] Hne. simpl. destruct (str_eqb k' k0); auto.
Qed.

End DictFacts.

Section Properties.
Context {RT : Runtime}.

(** ** Writing with UTF-8 *)

Local Open Scope N_scope.

Lemma hex_digit_ascii (n : N) : n < 16 -> hex_digit n < 128.
Proof. unfold hex_digit. destruct (N.ltb_spec n 10); lia. Qed.

Lemma u_escape_ascii (n : N) : Forall (fun c => c < 128) (u_escape n).
Proof.
  unfold u_escape.
  repeat constructor; try lia;
    apply hex_digit_ascii, N.mod_lt; discriminate.
Qed.

Lemma escape_char_ascii (c : N) :
  Forall (fun x => x < 128) (escape_char true c).
Proof.
  unfold escape_char.
  repeat match goal with
         | |- context [if ?b then _ else _] =>
           lazymatch b with
           | N.eqb _ _ => destruct b
           end
         end; try (repeat constructor; lia).
  destruct (N.ltb_spec c 32); [apply u_escape_ascii|].
  simpl andb. destruct (N.ltb_spec 126 c).
  - destruct (c <? 65536); [apply u_escape_ascii|].
    apply Forall_app. split; apply u_escape_ascii.
  - repeat constructor. lia.
Qed.

Lemma encode_basestring_ascii (s : pystr) :
  Forall (fun c => c < 128) (encode_basestring true s).
Proof.
  unfold encode_basestring. constructor; [lia|].
  apply Forall_app. split; [|repeat constructor; lia].
  induction s as [|c s IH]; simpl; [constructor|].
  apply Forall_app. split; [apply escape_char_ascii | exact IH].
Qed.

(** ** Induction on values *)

Section ValueInd.
Variable P : value -> Prop.
Hypothesis HNone : P VNone.
Hypothesis HBool : forall b, P (VBool b).
Hypothesis HInt : forall z, P (VInt z).
Hypothesis HFloat : forall x, P (VFloat x).
Hypothesis HStr : forall s, P (VStr s).
Hypothesis HList : forall l, Forall P l -> P (VList l).
Hypothesis HDict : forall d, Forall (fun kv => P (snd kv)) d -> P (VDict d).

Fixpoint value_ind (v : value) : P v :=
  match v with
  | VNone => HNone
  | VBool b => HBool b
  | VInt z => HInt z
  | VFloat x => HFloat x
  | VStr s => HStr s
  | VList l =>
      HList l
        ((fix all (l : list value) : Forall P l :=
            match l with
            | [] => Forall_nil P
            | x :: l' => Forall_cons x (value_ind x) (all l')
            end) l)
  | VDict d =>
      HDict d
        ((fix all (d : list (pystr * value))
            : Forall (fun kv => P (snd kv)) d :=
            match d with
            | [] => Forall_nil _
            | kv :: d' => Forall_cons kv (value_ind (snd kv)) (all d')
            end) d)
  end.

End ValueInd.

(** ** The chunks make up the text *)

Lemma scalar_chunks (ensure_ascii : bool) (indent level : nat) (o : value)
  (text : pystr) :
  scalar ensure_ascii o = Some text ->
  iterencode_chunks ensure_ascii indent level o = [text] /\
  iterencode ensure_ascii indent level o = text.
Proof.
  destruct o as [|[|]| | | | |]; simpl; try discriminate;
    intros [= <-]; split; reflexivity.
Qed.

Lemma join_cons (sep x : pystr) (xs : list pystr) :
  join sep (x :: xs) = x ++ List.concat (map (fun y => sep ++ y) xs).
Proof.
  revert x. induction xs as [|y xs IH]; intros x.
  - simpl. now rewrite List.app_nil_r.
  - change (join sep (x :: y :: xs)) with (x ++ sep ++ join sep (y :: xs)).
    rewrite IH. simpl. now rewrite <- List.app_assoc.
Qed.

Lemma concat_list_item (ensure_ascii : bool) (indent level : nat)
  (buf : pystr) (v : value) :
  List.concat (iterencode_chunks ensure_ascii indent level v)
  = iterencode ensure_ascii indent level v ->
  List.concat
    (list_item ensure_ascii (iterencode_chunks ensure_ascii indent level)
       buf v)
  = buf ++ iterencode ensure_ascii indent level v.
Proof.
  intros IH. unfold list_item.
  destruct (scalar ensure_ascii v) as [text|] eqn:E.
  - destruct (scalar_chunks _ indent level _ _ E) as [_ ->].
    simpl. now rewrite List.app_nil_r.
  - simpl. now rewrite IH.
Qed.

Lemma concat_dict_item (ensure_ascii : bool) (indent level : nat)
  (kv : pystr * value) :
  List.concat (iterencode_chunks ensure_ascii indent level (snd kv))
  = iterencode ensure_ascii indent level (snd kv) ->
  List.concat
    (dict_item ensure_ascii (iterencode_chunks ensure_ascii indent level) kv)
  = encode_basestring ensure_ascii (fst kv) ++ [58; 32]
    ++ iterencode ensure_ascii indent level (snd kv).
Proof.
  intros IH. unfold dict_item. cbn [app List.concat]. now rewrite IH.
Qed.

Lemma concat_chunks (ensure_ascii : bool) (indent : nat) (o : value) :
  forall level,
    List.concat (iterencode_chunks ensure_ascii indent level o)
    = iterencode ensure_ascii indent level o.
Proof.
  induction o as [|[|]| | | |l IH|d IH] using value_ind; intros level;
    try (simpl; now rewrite ?List.app_nil_r).
  - destruct l as [|value lst]; [reflexivity|].
    inversion IH as [|? ? IHv IHl]; subst.
    cbn [iterencode_chunks iterencode map].
    rewrite !List.concat_app, join_cons, concat_list_item by apply IHv.
    cbn [List.concat]. rewrite List.app_nil_r.
    assert (List.concat
              (flat_map
                 (list_item ensure_ascii
                    (iterencode_chunks ensure_ascii indent (S level))
                    (44 :: newline_indent indent (S level))) lst)
            = List.concat
                (map (fun y => (44 :: newline_indent indent (S level)) ++ y)
                   (map (iterencode ensure_ascii indent (S level)) lst)))
      as ->.
    { clear IH IHv. induction IHl as [|v l' Hv _ IHl']; [reflexivity|].
      cbn [flat_map map List.concat]. rewrite List.concat_app.
      rewrite concat_list_item by apply Hv. now rewrite IHl'. }
    cbn [app]. now rewrite <- !List.app_assoc.
  - destruct d as [|kv dct]; [reflexivity|].
    inversion IH as [|? ? IHv IHl]; subst.
    cbn [iterencode_chunks iterencode map].
    rewrite !List.concat_app, join_cons, concat_dict_item by apply IHv.
    cbn [List.concat]. rewrite List.app_nil_r.
    assert (List.concat
              (flat_map
                 (fun kv0 =>
                    (44 :: newline_indent indent (S level))
                    :: dict_item ensure_ascii
                         (iterencode_chunks ensure_ascii indent (S level)) kv0)
                 dct)
            = List.concat
                (map (fun y => (44 :: newline_indent indent (S level)) ++ y)
                   (map (fun kv0 =>
                           encode_basestring ensure_ascii (fst kv0) ++ [58; 32]
                           ++ iterencode ensure_ascii indent (S level)
                                (snd kv0)) dct)))
      as ->.
    { clear IH IHv. induction IHl as [|kv0 l' Hv _ IHl']; [reflexivity|].
      cbn [flat_map map List.concat]. rewrite List.concat_app.
      cbn [List.concat]. rewrite concat_dict_item by apply Hv.
      now rewrite IHl'. }
    cbn [app]. now rewrite <- !List.app_assoc.
Qed.

(** ** What can be written *)

Lemma write_chunks_snd (chunks : list pystr) :
  snd (write_chunks chunks) = forallb encodable chunks.
Proof.
  induction chunks as [|chunk chunks IH]; [reflexivity|].
  cbn [write_chunks forallb]. destruct (encodable chunk); [|reflexivity].
  destruct (write_chunks chunks). exact IH.
Qed.

Lemma write_chunks_all (chunks : list pystr) :
  forallb encodable chunks = true ->
  write_chunks chunks = (List.concat chunks, true).
Proof.
  induction chunks as [|chunk chunks IH]; [reflexivity|].
  cbn [write_chunks forallb List.concat]. intros H.
  apply andb_true_iff in H as [-> H]. now rewrite (IH H).
Qed.

(** What is written is the beginning of the text. *)
Lemma write_chunks_prefix (chunks : list pystr) :
  exists rest, List.concat chunks = fst (write_chunks chunks) ++ rest.
Proof.
  induction chunks as [|chunk chunks [rest IH]].
  - now exists [].
  - cbn [write_chunks List.concat]. destruct (encodable chunk).
    + destruct (write_chunks chunks) as [text ok]. cbn [fst] in *.
      exists rest. now rewrite IH, List.app_assoc.
    + now exists (chunk ++ List.concat chunks).
Qed.

Lemma encodable_app (a b : pystr) :
  encodable (a ++ b) = encodable a && encodable b.
Proof. apply forallb_app. Qed.

Lemma encodable_ascii (s : pystr) : is_ascii s -> encodable s = true.
Proof.
  intros H. apply forallb_forall. intros c Hc.
  unfold is_ascii in H. rewrite Forall_forall in H. specialize (H c Hc).
  unfold is_surrogate.
  destruct (N.leb_spec 55296 c); [lia | reflexivity].
Qed.

Lemma is_ascii_app (a b : pystr) : is_ascii a -> is_ascii b -> is_ascii (a ++ b).
Proof. intros Ha Hb. apply Forall_app. now split. Qed.

Lemma newline_indent_ascii (indent level : nat) :
  is_ascii (newline_indent indent level).
Proof.
  unfold newline_indent. constructor; [reflexivity|].
  apply Forall_forall. intros c Hc. apply repeat_spec in Hc. now subst.
Qed.

Lemma buf_ascii (c : N) (indent level : nat) :
  c < 128 -> is_ascii (c :: newline_indent indent level).
Proof. intros H. constructor; [exact H | apply newline_indent_ascii]. Qed.

Lemma uint_digits_ascii (u : Decimal.uint) : is_ascii (uint_digits u).
Proof. induction u; simpl; constructor; auto; reflexivity. Qed.

Lemma int_repr_ascii (z : Z) : is_ascii (int_repr z).
Proof.
  unfold int_repr. apply is_ascii_app; [|apply uint_digits_ascii].
  destruct (Z.ltb z 0); repeat constructor.
Qed.

Lemma escape_char_encodable (c : N) :
  encodable (escape_char false c) = negb (is_surrogate c).
Proof.
  unfold escape_char.
  repeat match goal with
         | |- context [N.eqb c ?k] =>
           destruct (N.eqb_spec c k); [subst; reflexivity|]
         end.
  destruct (N.ltb_spec c 32).
  - rewrite encodable_ascii by apply u_escape_ascii.
    unfold is_surrogate. destruct (N.leb_spec 55296 c); [lia | reflexivity].
  - cbn [andb encodable forallb]. apply andb_true_r.
Qed.

Lemma encode_basestring_encodable (ensure_ascii : bool) (s : pystr) :
  encodable (encode_basestring ensure_ascii s) = ensure_ascii || encodable s.
Proof.
  destruct ensure_ascii.
  - apply encodable_ascii, encode_basestring_ascii.
  - unfold encode_basestring. cbn [orb].
    change (34 :: flat_map (escape_char false) s ++ [34])
      with ([34] ++ flat_map (escape_char false) s ++ [34]).
    rewrite !encodable_app. cbn [encodable forallb]. cbn.
    rewrite andb_true_r.
    induction s as [|c s IH]; [reflexivity|].
    cbn [flat_map]. change (forallb _ ?l) with (encodable l) in *.
    rewrite encodable_app, escape_char_encodable, IH. reflexivity.
Qed.

Lemma scalar_encodable (ensure_ascii : bool) (o : value) (text : pystr) :
  scalar ensure_ascii o = Some text ->
  encodable text = ensure_ascii || storable o.
Proof.
  destruct o as [|[|]| | | | |]; simpl; try discriminate;
    intros [= <-]; rewrite ?orb_true_r; try reflexivity.
  - apply encodable_ascii, int_repr_ascii.
  - apply encodable_ascii, float_repr_ascii.
  - apply encode_basestring_encodable.
Qed.

Lemma forallb_flat_map {A B : Type} (p : B -> bool) (f : A -> list B)
  (l : list A) :
  forallb p (flat_map f l) = forallb (fun x => forallb p (f x)) l.
Proof.
  induction l as [|x l IH]; [reflexivity|].
  cbn [flat_map forallb]. now rewrite forallb_app, IH.
Qed.

Lemma forallb_orb {A : Type} (b : bool) (p : A -> bool) (l : list A) :
  forallb (fun x => b || p x) l = b || forallb p l.
Proof.
  destruct b; cbn [orb]; [|reflexivity].
  induction l; auto.
Qed.

Lemma forallb_ext_Forall {A : Type} (p q : A -> bool) (l : list A) :
  Forall (fun x => p x = q x) l -> forallb p l = forallb q l.
Proof. induction 1 as [|x l Hx _ IH]; cbn [forallb]; congruence. Qed.

Lemma list_item_encodable (ensure_ascii : bool) (indent level : nat)
  (buf : pystr) (v : value) :
  is_ascii buf ->
  forallb encodable (iterencode_chunks ensure_ascii indent level v)
  = ensure_ascii || storable v ->
  forallb encodable
    (list_item ensure_ascii (iterencode_chunks ensure_ascii indent level)
       buf v)
  = ensure_ascii || storable v.
Proof.
  intros Hbuf IH. unfold list_item.
  destruct (scalar ensure_ascii v) as [text|] eqn:E; cbn [forallb].
  - rewrite encodable_app, (encodable_ascii buf Hbuf), andb_true_r.
    cbn [andb]. eapply scalar_encodable, E.
  - now rewrite (encodable_ascii buf Hbuf), IH.
Qed.

Lemma dict_item_encodable (ensure_ascii : bool) (indent level : nat)
  (kv : pystr * value) :
  forallb encodable (iterencode_chunks ensure_ascii indent level (snd kv))
  = ensure_ascii || storable (snd kv) ->
  forallb encodable
    (dict_item ensure_ascii (iterencode_chunks ensure_ascii indent level) kv)
  = ensure_ascii || (encodable (fst kv) && storable (snd kv)).
Proof.
  intros IH. unfold dict_item. cbn [app forallb].
  rewrite encode_basestring_encodable, IH.
  change (encodable [58; 32]) with true. cbn [andb].
  now destruct ensure_ascii.
Qed.

(** Every chunk can be encoded under [ensure_ascii]; without it, exactly
    when the value is storable. *)
Lemma chunks_encodable (ensure_ascii : bool) (indent : nat) (o : value) :
  forall level,
    forallb encodable (iterencode_chunks ensure_ascii indent level o)
    = ensure_ascii || storable o.
Proof.
  induction o as [|[|]|z|x|s|l IH|d IH] using value_ind; intros level;
    try (cbn; now rewrite orb_true_r).
  - cbn [iterencode_chunks forallb storable].
    rewrite (encodable_ascii _ (int_repr_ascii z)). now rewrite orb_true_r.
  - cbn [iterencode_chunks forallb storable].
    rewrite (encodable_ascii _ (float_repr_ascii x)). now rewrite orb_true_r.
  - cbn [iterencode_chunks forallb storable].
    now rewrite encode_basestring_encodable, andb_true_r.
  - destruct l as [|value lst]; [cbn; now rewrite orb_true_r|].
    inversion IH as [|? ? IHv IHl]; subst.
    cbn [iterencode_chunks storable forallb].
    rewrite !forallb_app, forallb_flat_map.
    rewrite list_item_encodable by (auto; now apply buf_ascii).
    rewrite (forallb_ext_Forall _ (fun x => ensure_ascii || storable x)).
    + rewrite forallb_orb. cbn [forallb].
      rewrite (encodable_ascii _ (newline_indent_ascii indent level)).
      change (encodable [93]) with true. cbn [andb].
      rewrite andb_true_r. now destruct ensure_ascii.
    + eapply Forall_impl; [|exact IHl]. intros v Hv.
      apply list_item_encodable; auto. now apply buf_ascii.
  - destruct d as [|kv dct]; [cbn; now rewrite orb_true_r|].
    inversion IH as [|? ? IHv IHl]; subst.
    cbn [iterencode_chunks storable forallb app].
    rewrite !forallb_app, forallb_flat_map.
    rewrite dict_item_encodable by auto.
    rewrite (forallb_ext_Forall _
               (fun kv0 => ensure_ascii
                           || (encodable (fst kv0) && storable (snd kv0)))).
    + rewrite forallb_orb. cbn [forallb].
      rewrite !(encodable_ascii _ (newline_indent_ascii indent _)).
      change (encodable [123]) with true. change (encodable [125]) with true.
      cbn [andb]. rewrite andb_true_r. now destruct ensure_ascii.
    + eapply Forall_impl; [|exact IHl]. intros kv0 Hv. cbn [forallb].
      rewrite dict_item_encodable by auto.
      rewrite (encodable_ascii (44 :: newline_indent indent (S level)))
        by now apply buf_ascii.
      reflexivity.
Qed.

Lemma encodable_concat (chunks : list pystr) :
  encodable (List.concat chunks) = forallb encodable chunks.
Proof.
  induction chunks as [|chunk chunks IH]; [reflexivity|].
  cbn [List.concat forallb]. now rewrite encodable_app, IH.
Qed.

Lemma write_chunks_encodable (chunks : list pystr) :
  encodable (fst (write_chunks chunks)) = true.
Proof.
  induction chunks as [|chunk chunks IH]; [reflexivity|].
  cbn [write_chunks]. destruct (encodable chunk) eqn:E; [|reflexivity].
  destruct (write_chunks chunks) as [text ok]. cbn [fst] in *.
  now rewrite encodable_app, E, IH.
Qed.

(** ** [json.dump] to a file *)

(** The write returns under [ensure_ascii], and without it exactly when
    the value is storable; the file holds what was written. *)
Lemma json_dump_run (obj : value) (p : path) (ensure_ascii : bool)
  (indent : nat) (fs : FS) :
  json_dump obj p ensure_ascii indent fs
  = (if ensure_ascii || storable obj then Return tt
     else Raise UnicodeEncodeError,
     write p (written ensure_ascii indent obj) fs).
Proof.
  unfold json_dump, written.
  pose proof (write_chunks_snd (iterencode_chunks ensure_ascii indent 0 obj))
    as H.
  rewrite chunks_encodable in H.
  destruct (write_chunks _) as [text ok]. cbn [fst snd] in *. now subst.
Qed.

Lemma written_dumps (ensure_ascii : bool) (indent : nat) (obj : value) :
  ensure_ascii || storable obj = true ->
  written ensure_ascii indent obj = dumps ensure_ascii indent obj.
Proof.
  intros H. unfold written, dumps.
  rewrite write_chunks_all by now rewrite chunks_encodable.
  apply concat_chunks.
Qed.

(** What a failed write leaves is not the whole text. *)
Lemma written_not_dumps (indent : nat) (obj : value) :
  storable obj = false -> written false indent obj <> dumps false indent obj.
Proof.
  intros H E.
  pose proof (write_chunks_encodable (iterencode_chunks false indent 0 obj))
    as W.
  fold (written false indent obj) in W. rewrite E in W. unfold dumps in W.
  rewrite <- concat_chunks, encodable_concat, chunks_encodable in W.
  cbn [orb] in W. congruence.
Qed.

Lemma written_prefix (ensure_ascii : bool) (indent : nat) (obj : value) :
  exists rest,
    dumps ensure_ascii indent obj = written ensure_ascii indent obj ++ rest.
Proof.
  unfold dumps, written. rewrite <- concat_chunks. apply write_chunks_prefix.
Qed.

Lemma json_dump_ascii (obj : value) (p : path) (indent : nat) (fs : FS) :
  json_dump obj p true indent fs
  = (Return tt, write p (dumps true indent obj) fs).
Proof. rewrite json_dump_run. cbn [orb]. now rewrite written_dumps. Qed.

Lemma save_data_storable (data : value) (fs : FS) :
  storable data = true ->
  save_data data fs = (Return tt, write DATA_FILE (dumps false 4 data) fs).
Proof.
  intros H. unfold save_data. rewrite json_dump_run. cbn [orb]. rewrite H.
  now rewrite written_dumps.
Qed.

Lemma save_data_unstorable (data : value) (fs : FS) :
  storable data = false ->
  save_data data fs
  = (Raise UnicodeEncodeError, write DATA_FILE (written false 4 data) fs).
Proof.
  intros H. unfold save_data. rewrite json_dump_run. cbn [orb].
  now rewrite H.
Qed.

Local Close Scope N_scope.

(** ** [json.load] builds dictionaries without repeated keys *)

Lemma parse_object_NoDup (fuel : nat) :
  forall s d0 d r,
    parse_object fuel s d0 = Some (d, r) ->
    NoDup (dict_keys d0) -> NoDup (dict_keys d).
Proof.
  induction fuel as [|fuel IH]; intros s d0 d r; simpl; [discriminate|].
  destruct s as [|c s1]; [discriminate|].
  destruct (N.eqb c 34); [|discriminate].
  destruct (scanstring s1) as [[key r1]|]; [|discriminate].
  destruct (skip_ws r1) as [|c2 r2]; [discriminate|].
  destruct (N.eqb c2 58); [|discriminate].
  destruct (scan_once fuel (skip_ws r2)) as [[val r3]|]; [|discriminate].
  destruct (skip_ws r3) as [|c3 r4]; [discriminate|].
  destruct (N.eqb c3 125).
  - intros [= <- <-] Hd0. now apply dict_set_NoDup.
  - destruct (N.eqb c3 44); [|discriminate].
    intros H Hd0. eapply IH; [exact H|]. now apply dict_set_NoDup.
Qed.

Lemma match_number_not_dict (s r : pystr) (d : list (pystr * value)) :
  match_number s <> Some (VDict d, r).
Proof.
  unfold match_number.
  destruct (match s with
            | [] => ([], s)
            | c :: s' => if N.eqb c 45 then ([c], s') else ([], s)
            end) as [sign s1].
  destruct (match_integer s1) as [[ip r0]|]; [|discriminate].
  destruct (match_frac r0) as [frac r1], (match_exp r1) as [ex r2].
  destruct frac, ex; discriminate.
Qed.

Lemma scan_once_NoDup (fuel : nat) (s r : pystr) (d : list (pystr * value)) :
  scan_once fuel s = Some (VDict d, r) -> NoDup (dict_keys d).
Proof.
  destruct fuel as [|fuel]; simpl; [discriminate|].
  destruct s as [|c s1]; [discriminate|].
  destruct (N.eqb c 34).
  { destruct (scanstring s1) as [[t r1]|]; discriminate. }
  destruct (N.eqb c 123).
  { destruct (skip_ws s1) as [|c2 s2]; [discriminate|].
    destruct (N.eqb c2 125).
    - intros [= <- <-]. constructor.
    - destruct (parse_object fuel (c2 :: s2) []) as [[d1 r1]|] eqn:E;
        [|discriminate].
      intros [= <- <-]. eapply parse_object_NoDup; [exact E | constructor]. }
  destruct (N.eqb c 91).
  { destruct (skip_ws s1) as [|c2 s2]; [discriminate|].
    destruct (N.eqb c2 93); [discriminate|].
    destruct (parse_array fuel (c2 :: s2) []) as [[l1 r1]|]; discriminate. }
  match goal with
  | |- match ?m with _ => _ end = _ -> _ => destruct m as [r1|]
  end.
  - destruct (N.eqb c 110), (N.eqb c 116), (N.eqb c 102), (N.eqb c 78),
      (N.eqb c 73); discriminate.
  - intros H. now apply match_number_not_dict in H.
Qed.

Lemma loads_NoDup (text : pystr) (d : list (pystr * value)) :
  loads text = Some (VDict d) -> NoDup (dict_keys d).
Proof.
  unfold loads.
  destruct (scan_once (S (List.length text)) (skip_ws text)) as [[v r]|] eqn:E;
    [|discriminate].
  destruct (skip_ws r); [|discriminate].
  intros [= ->]. eapply scan_once_NoDup, E.
Qed.

(** [dict.update] on an empty dictionary copies a dictionary. *)
Lemma dict_update_app {A : Type} (other d : dict A) :
  NoDup (dict_keys d ++ dict_keys other) -> dict_update d other = d ++ other.
Proof.
  unfold dict_update. revert d.
  induction other as [|[k v] other IH]; intros d Hd; simpl.
  - now rewrite List.app_nil_r.
  - assert (dict_set k v d = d ++ [(k, v)]) as ->.
    { assert (~ In k (dict_keys d)) as Hk.
      { simpl in Hd. apply NoDup_remove_2 in Hd.
        intros H. apply Hd, in_or_app. now left. }
      clear - Hk. induction d as [|[k0 v0] d IH]; simpl; auto.
      simpl in Hk. case_str_eqb k k0; [subst; tauto|].
      f_equal. apply IH. tauto. }
    rewrite IH.
    + now rewrite <- List.app_assoc.
    + unfold dict_keys in *. rewrite map_app. simpl.
      now rewrite <- List.app_assoc.
Qed.

Lemma dict_update_nil {A : Type} (other : dict A) :
  NoDup (dict_keys other) -> dict_update [] other = other.
Proof. intros H. now apply (dict_update_app other []). Qed.

Lemma dict_set_set {A : Type} (k : pystr) (v v0 : A) (d : dict A) :
  dict_set k v (dict_set k v0 d) = dict_set k v d.
Proof.
  induction d as [|[k' v'] d IH]; simpl.
  - now rewrite str_eqb_refl.
  - case_str_eqb k k'; simpl.
    + subst. now rewrite str_eqb_refl.
    + apply str_eqb_neq in E. rewrite E. now f_equal.
Qed.

(** ** [log_progress] *)

Lemma new_day_counts (action : pystr) :
  is_action action ->
  dict_get action [(str "added", VInt 0); (str "viewed", VInt 0)]
  = Some (VInt 0).
Proof. intros [-> | ->]; reflexivity. Qed.

Lemma increment_bump {S : Type} (action today : pystr) (log : dict value)
  (s : S) :
  is_action action ->
  counter_ready action today log ->
  increment
    (if negb (dict_contains today log) then dict_set today new_day log
     else log) today action s
  = (Return (bump action today log), s).
Proof.
  intros Ha Hready. unfold counter_ready in Hready.
  unfold increment, bump, counter, day_of, dict_contains.
  destruct (dict_get today log) as [entry|] eqn:E; simpl.
  - rewrite E. destruct entry; try contradiction.
    destruct Hready as [n Hn]. rewrite Hn. reflexivity.
  - rewrite dict_get_set_eq. unfold new_day.
    destruct Ha as [-> | ->]; simpl; unfold bind, add1, ret;
      now rewrite dict_set_set.
Qed.

(** What a call of [log_progress] does when the log is usable: it
    returns and rewrites the progress file with the bumped log. *)
Lemma log_progress_bump (action today : pystr) (fs : FS) (log : dict value) :
  is_action action ->
  prior_log fs log ->
  counter_ready action today log ->
  log_progress action today fs
  = (Return tt, write PROGRESS_FILE (dumps true 2 (VDict (bump action today log))) fs).
Proof.
  intros Ha Hprior Hready. unfold prior_log in Hprior.
  unfold log_progress, bind at 1, path_exists, read.
  destruct (progress_log_json fs) as [text|] eqn:Efile.
  - unfold bind at 1, bind at 1, json_load, read. rewrite Efile, Hprior.
    unfold update_from, ret at 1.
    rewrite (dict_update_nil log (loads_NoDup _ _ Hprior)).
    unfold bind. rewrite increment_bump by assumption.
    apply json_dump_ascii.
  - subst log. unfold bind at 1, ret at 1.
    unfold bind. rewrite increment_bump by assumption.
    apply json_dump_ascii.
Qed.

Lemma bump_other_date (action today date : pystr) (log : dict value) :
  date <> today -> dict_get date (bump action today log) = dict_get date log.
Proof.
  intros Hne. unfold bump. apply dict_get_set_ne. congruence.
Qed.

Lemma day_of_bump (action today : pystr) (log : dict value) :
  day_of today (bump action today log)
  = dict_set action (VInt (counter action today log + 1)) (day_of today log).
Proof.
  unfold bump, day_of at 1. now rewrite dict_get_set_eq.
Qed.

Lemma counter_bump (action today : pystr) (log : dict value) :
  counter action today (bump action today log)
  = (counter action today log + 1)%Z.
Proof.
  unfold counter at 1. now rewrite day_of_bump, dict_get_set_eq.
Qed.

Lemma counter_bump_other (action action' today date : pystr)
  (log : dict value) :
  action' <> action ->
  counter action' date (bump action today log) = counter action' date log.
Proof.
  intros Hne. unfold counter.
  destruct (pystr_eq_dec date today) as [-> | Hd].
  - rewrite day_of_bump, dict_get_set_ne by congruence. reflexivity.
  - unfold day_of. now rewrite bump_other_date.
Qed.

Lemma bump_keys (action today : pystr) (log : dict value) :
  dict_keys (bump action today log)
  = if dict_contains today log then dict_keys log
    else dict_keys log ++ [today].
Proof. apply dict_keys_set. Qed.

Lemma bump_NoDup (action today : pystr) (log : dict value) :
  NoDup (dict_keys log) -> NoDup (dict_keys (bump action today log)).
Proof. apply dict_set_NoDup. Qed.

(** ** The totals of [ProgressDialog] *)

(** The [int] that [total += n] adds. *)
Definition as_int (n : value) : outcome Z :=
  match n with
  | VInt z => Return z
  | VBool b => Return (Z.b2z b)
  | VFloat _ => Unmodelled
  | VNone | VStr _ | VList _ | VDict _ => Raise TypeError
  end.

(** One turn of the loop of [summarize] on the entry [stats]: the two
    values shown and what they add to the totals. *)
Definition tally (stats : value) : outcome (value * value * Z * Z) :=
  match stats with
  | VDict day =>
    let added :=
      match dict_get (str "added") day with Some v => v | None => VInt 0 end in
    let viewed :=
      match dict_get (str "viewed") day with Some v => v | None => VInt 0 end in
    match as_int added with
    | Return za =>
      match as_int viewed with
      | Return zv => Return (added, viewed, za, zv)
      | Raise e => Raise e
      | Unmodelled => Unmodelled
      end
    | Raise e => Raise e
    | Unmodelled => Unmodelled
    end
  | _ => Raise AttributeError
  end.

Lemma summarize_cons {S : Type} (data : dict value) (date : pystr)
  (dates : list pystr) (lines : list (pystr * value * value)) (a v : Z)
  (s : S) :
  summarize data (date :: dates) lines a v s =
  match dict_get date data with
  | None => (Raise KeyError, s)
  | Some stats =>
    match tally stats with
    | Return (va, vv, za, zv) =>
      summarize data dates (lines ++ [(date, va, vv)]) (a + za) (v + zv) s
    | Raise e => (Raise e, s)
    | Unmodelled => (Unmodelled, s)
    end
  end.
Proof.
  simpl. unfold bind at 1.
  destruct (dict_get date data) as [stats|]; [|reflexivity].
  unfold ret at 1. unfold bind at 1.
  destruct stats; try reflexivity.
  unfold stats_get at 1, ret at 1, bind at 1, stats_get at 1, ret at 1.
  unfold tally.
  set (added := match dict_get (str "added") d with
                | Some v0 => v0 | None => VInt 0 end).
  set (viewed := match dict_get (str "viewed") d with
                 | Some v0 => v0 | None => VInt 0 end).
  unfold bind at 1.
  destruct added; try reflexivity;
    unfold add_to at 1, ret at 1, bind at 1;
    destruct viewed; reflexivity.
Qed.

Lemma summarize_nil {S : Type} (data : dict value)
  (lines : list (pystr * value * value)) (a v : Z) (s : S) :
  summarize data [] lines a v s = (Return (lines, a, v), s).
Proof. reflexivity. Qed.

Opaque summarize.

Lemma summarize_ext {S : Type} (data1 data2 : dict value)
  (dates : list pystr) :
  (forall date, In date dates -> dict_get date data1 = dict_get date data2) ->
  forall lines a v (s : S),
    summarize data1 dates lines a v s = summarize data2 dates lines a v s.
Proof.
  induction dates as [|date dates IH]; intros Hext lines a v s.
  - now rewrite !summarize_nil.
  - rewrite !summarize_cons. rewrite (Hext date) by now left.
    destruct (dict_get date data2) as [stats|]; auto.
    destruct (tally stats) as [[[[va vv] za] zv] | |]; auto.
    apply IH. intros d Hd. apply Hext. now right.
Qed.

(** Totals that start higher end as much higher. *)
Lemma summarize_shift {S : Type} (data : dict value) (dates : list pystr) :
  forall lines a v (s s' : S) lines' a' v',
    summarize data dates lines a v s = (Return (lines', a', v'), s') ->
    forall more ca cv,
    exists more',
      summarize data dates more (a + ca) (v + cv) s
      = (Return (more', a' + ca, v' + cv)%Z, s').
Proof.
  induction dates as [|date dates IH]; intros lines a v s s' lines' a' v'.
  - rewrite summarize_nil. intros [= <- <- <- <-] more ca cv.
    exists more. now rewrite summarize_nil.
  - rewrite summarize_cons.
    destruct (dict_get date data) as [stats|] eqn:E; [|discriminate].
    destruct (tally stats) as [[[[va vv] za] zv] | |] eqn:T;
      try discriminate.
    intros H more ca cv.
    destruct (IH _ _ _ _ _ _ _ _ H (more ++ [(date, va, vv)]) ca cv)
      as [more' Hm].
    exists more'. rewrite summarize_cons, E, T.
    replace (a + ca + za)%Z with (a + za + ca)%Z by lia.
    replace (v + cv + zv)%Z with (v + zv + cv)%Z by lia.
    exact Hm.
Qed.

Lemma summarize_app {S : Type} (data : dict value) (l1 l2 : list pystr) :
  forall lines a v (s : S),
    summarize data (l1 ++ l2) lines a v s =
    match summarize data l1 lines a v s with
    | (Return (lines', a', v'), s') => summarize data l2 lines' a' v' s'
    | (Raise e, s') => (Raise e, s')
    | (Unmodelled, s') => (Unmodelled, s')
    end.
Proof.
  induction l1 as [|date l1 IH]; intros lines a v s; simpl.
  - now rewrite summarize_nil.
  - rewrite !summarize_cons.
    destruct (dict_get date data) as [stats|]; auto.
    destruct (tally stats) as [[[[va vv] za] zv] | |]; auto.
Qed.

Lemma summarize_state {S : Type} (data : dict value) (dates : list pystr) :
  forall lines a v (s : S), snd (summarize data dates lines a v s) = s.
Proof.
  induction dates as [|date dates IH]; intros lines a v s.
  - now rewrite summarize_nil.
  - rewrite summarize_cons.
    destruct (dict_get date data) as [stats|]; auto.
    destruct (tally stats) as [[[[va vv] za] zv] | |]; auto.
Qed.

Lemma ascending_remove (l1 l2 : list pystr) (x : pystr) :
  ascending (l1 ++ x :: l2) -> ascending (l1 ++ l2).
Proof.
  unfold ascending. induction l1 as [|y l1 IH]; simpl; intros H.
  - now inversion H.
  - inversion H as [|? ? Hl Hy]; subst. constructor; auto.
    rewrite Forall_forall in *. intros z Hz. apply Hy.
    apply in_app_or in Hz. apply in_or_app. simpl. tauto.
Qed.

(** What one more [action] adds to the total of [k]. *)
Definition delta (action k : pystr) : Z :=
  if str_eqb action k then 1%Z else 0%Z.

Lemma tally_bump_absent (action today : pystr) (log : dict value) :
  is_action action ->
  dict_get today log = None ->
  exists va vv,
    tally (VDict (day_of today (bump action today log)))
    = Return (va, vv, delta action (str "added"), delta action (str "viewed")).
Proof.
  intros Ha E. rewrite day_of_bump. unfold counter, day_of. rewrite E.
  destruct Ha as [-> | ->]; do 2 eexists; reflexivity.
Qed.

Lemma tally_bump_present (action today : pystr) (log : dict value)
  (stats va vv : value) (za zv : Z) :
  is_action action ->
  counter_ready action today log ->
  dict_get today log = Some stats ->
  tally stats = Return (va, vv, za, zv) ->
  exists va' vv',
    tally (VDict (day_of today (bump action today log)))
    = Return (va', vv', za + delta action (str "added"),
              zv + delta action (str "viewed"))%Z.
Proof.
  intros Ha Hready E. unfold counter_ready in Hready. rewrite E in Hready.
  rewrite day_of_bump. unfold counter, day_of. rewrite E.
  destruct stats as [| | | | |l|day]; try contradiction.
  destruct Hready as [n Hn]. rewrite Hn.
  unfold tally. destruct Ha as [-> | ->].
  - rewrite dict_get_set_eq, dict_get_set_ne by discriminate.
    rewrite Hn. simpl.
    destruct (as_int _) as [z| |]; try discriminate.
    intros [= <- <- <- <-]. do 2 eexists.
    unfold delta. simpl. now rewrite Z.add_0_r.
  - rewrite dict_get_set_eq, dict_get_set_ne by discriminate.
    rewrite Hn.
    destruct (as_int _) as [z| |]; try discriminate. simpl.
    intros [= <- <- <- <-]. do 2 eexists.
    unfold delta. simpl. now rewrite Z.add_0_r.
Qed.

Lemma bump_today (action today : pystr) (log : dict value) :
  dict_get today (bump action today log)
  = Some (VDict (day_of today (bump action today log))).
Proof.
  rewrite day_of_bump. unfold bump. now rewrite dict_get_set_eq.
Qed.

(** One more [action] on [today] raises the total of that action by one
    and leaves the other total as it was. *)
Lemma ProgressDialog_bump {S : Type} (action today : pystr)
  (log : dict value) (s : S) lines (ta tv : Z) :
  is_action action ->
  counter_ready action today log ->
  NoDup (dict_keys log) ->
  ProgressDialog (VDict log) s = (Return (lines, ta, tv), s) ->
  exists lines',
    ProgressDialog (VDict (bump action today log)) s
    = (Return (lines', ta + delta action (str "added"),
               tv + delta action (str "viewed"))%Z, s).
Proof.
  intros Ha Hready Hnd. unfold ProgressDialog.
  set (log' := bump action today log).
  assert (In today (sorted (dict_keys log'))) as Hin.
  { apply sorted_In. apply dict_set_In. }
  destruct (in_split _ _ Hin) as (l1 & l2 & Hsplit).
  assert (NoDup (l1 ++ today :: l2)) as Hnd'.
  { rewrite <- Hsplit. apply sorted_NoDup. now apply bump_NoDup. }
  assert (~ In today (l1 ++ l2)) as Hout by now apply NoDup_remove_2.
  assert (forall date, In date (l1 ++ l2) ->
                       dict_get date log' = dict_get date log) as Hext.
  { intros date Hd. apply bump_other_date. intros ->. contradiction. }
  assert (forall lines a v (s0 : S),
            summarize log' l1 lines a v s0 = summarize log l1 lines a v s0)
    as Hl1.
  { intros ? ? ? ?. apply summarize_ext. intros d Hd. apply Hext.
    apply in_or_app. now left. }
  assert (forall lines a v (s0 : S),
            summarize log' l2 lines a v s0 = summarize log l2 lines a v s0)
    as Hl2.
  { intros ? ? ? ?. apply summarize_ext. intros d Hd. apply Hext.
    apply in_or_app. now right. }
  rewrite Hsplit, summarize_app, Hl1.
  destruct (dict_get today log) as [stats|] eqn:E.
  - assert (sorted (dict_keys log) = l1 ++ today :: l2) as ->.
    { rewrite <- Hsplit. unfold log'. rewrite bump_keys.
      unfold dict_contains. now rewrite E. }
    rewrite summarize_app.
    destruct (summarize log l1 [] 0%Z 0%Z s) as [[[[L1 a1] v1] | |] s1];
      try discriminate.
    rewrite !summarize_cons, E. unfold log' at 1. rewrite bump_today.
    destruct (tally stats) as [[[[va vv] za] zv] | |] eqn:T; try discriminate.
    intros H.
    destruct (tally_bump_present action today log stats va vv za zv
                Ha Hready E T) as (va' & vv' & ->).
    fold log'. rewrite Hl2.
    destruct (summarize_shift _ _ _ _ _ _ _ _ _ _ H
                (L1 ++ [(today, va', vv')])
                (delta action (str "added")) (delta action (str "viewed")))
      as [more' Hm].
    exists more'. rewrite <- Hm. f_equal; lia.
  - assert (sorted (dict_keys log) = l1 ++ l2) as ->.
    { apply ascending_unique.
      - apply sorted_ascending.
      - eapply ascending_remove. rewrite <- Hsplit. apply sorted_ascending.
      - now apply sorted_NoDup.
      - eapply NoDup_remove_1, Hnd'.
      - intros x. rewrite sorted_In.
        assert (In x (sorted (dict_keys log')) <-> In x (dict_keys log')) as Hx
          by apply sorted_In.
        rewrite Hsplit in Hx. unfold log' in Hx. rewrite bump_keys in Hx.
        unfold dict_contains in Hx. rewrite E in Hx.
        apply dict_get_None in E.
        rewrite !in_app_iff in *. simpl in *.
        split.
        + intros H. destruct (proj2 Hx (or_introl H)) as [?|[->|?]]; tauto.
        + intros H.
          assert (today <> x) by (intros ->; tauto).
          destruct H as [H|H].
          * destruct (proj1 Hx (or_introl H)); tauto.
          * destruct (proj1 Hx (or_intror (or_intror H))); tauto. }
    rewrite summarize_app.
    destruct (summarize log l1 [] 0%Z 0%Z s) as [[[[L1 a1] v1] | |] s1];
      try discriminate.
    intros H. rewrite summarize_cons. unfold log' at 1. rewrite bump_today.
    destruct (tally_bump_absent action today log Ha E) as (va' & vv' & ->).
    fold log'. rewrite Hl2.
    destruct (summarize_shift _ _ _ _ _ _ _ _ _ _ H
                (L1 ++ [(today, va', vv')])
                (delta action (str "added")) (delta action (str "viewed")))
      as [more' Hm].
    exists more'. exact Hm.
Qed.

Transparent summarize.

(** ** Reading back what [json.dump] wrote *)

Local Open Scope N_scope.

Ltac below_128 c H :=
  destruct c as [|c];
  [| repeat (destruct c as [c|c|]; try (exfalso; lia))].

Lemma scanstring_escape_small (ensure_ascii : bool) (c : N) (tail : pystr) :
  c < 128 ->
  scanstring (escape_char ensure_ascii c ++ tail)
  = match scanstring tail with
    | Some (t, r) => Some (c :: t, r)
    | None => None
    end.
Proof.
  intros H. below_128 c H; destruct ensure_ascii; reflexivity.
Qed.

Lemma scanstring_escape_big (c : N) (tail : pystr) :
  128 <= c ->
  scanstring (escape_char false c ++ tail)
  = match scanstring tail with
    | Some (t, r) => Some (c :: t, r)
    | None => None
    end.
Proof.
  intros H. unfold escape_char.
  repeat match goal with
         | |- context [N.eqb c ?k] =>
           replace (N.eqb c k) with false by (symmetry; apply N.eqb_neq; lia)
         end.
  replace (c <? 32) with false by (symmetry; apply N.ltb_ge; lia).
  cbn [andb app scanstring].
  repeat match goal with
         | |- context [N.eqb c ?k] =>
           replace (N.eqb c k) with false by (symmetry; apply N.eqb_neq; lia)
         end.
  replace (c <? 32) with false by (symmetry; apply N.ltb_ge; lia).
  reflexivity.
Qed.

Ltac div_mod_lia :=
  zify; Z.div_mod_to_equations; lia.

Lemma hex_val_hex_digit (x : N) : x < 16 -> hex_val (hex_digit x) = Some x.
Proof.
  intros H. destruct x as [|p]; [reflexivity|].
  repeat (destruct p as [p|p|]; try (exfalso; lia)); reflexivity.
Qed.

Lemma hex4_u_escape (n : N) :
  n < 65536 ->
  exists h1 h2 h3 h4,
    u_escape n = [92; 117; h1; h2; h3; h4] /\ hex4 h1 h2 h3 h4 = Some n.
Proof.
  intros H. unfold u_escape. do 4 eexists. split; [reflexivity|].
  unfold hex4.
  rewrite !hex_val_hex_digit by (apply N.mod_lt; discriminate).
  f_equal.
  change 4096 with (16 * (16 * 16)). change 256 with (16 * 16).
  rewrite <- !N.Div0.div_div.
  pose proof (N.div_mod n 16 ltac:(discriminate)).
  pose proof (N.div_mod (n / 16) 16 ltac:(discriminate)).
  pose proof (N.div_mod (n / 16 / 16) 16 ltac:(discriminate)).
  pose proof (N.mod_lt n 16 ltac:(discriminate)).
  pose proof (N.mod_lt (n / 16) 16 ltac:(discriminate)).
  pose proof (N.mod_lt (n / 16 / 16) 16 ltac:(discriminate)).
  assert (n / 16 / 16 / 16 < 16) as Hq.
  { rewrite !N.Div0.div_div. apply N.Div0.div_lt_upper_bound. exact H. }
  rewrite (N.mod_small (n / 16 / 16 / 16) 16 Hq).
  lia.
Qed.

Lemma land_1023 (x : N) : N.land x 1023 = x mod 1024.
Proof. exact (N.land_ones x 10). Qed.

Lemma shiftr_10 (x : N) : N.shiftr x 10 = x / 1024.
Proof. exact (N.shiftr_div_pow2 x 10). Qed.

Lemma shiftl_10 (x : N) : N.shiftl x 10 = x * 1024.
Proof. exact (N.shiftl_mul_pow2 x 10). Qed.

Lemma lor_shifted (a b : N) : b < 1024 -> N.lor (a * 1024) b = a * 1024 + b.
Proof.
  intros Hb. rewrite <- N.lxor_lor.
  - symmetry. apply N.add_nocarry_lxor.
    apply N.bits_inj. intros i. rewrite N.land_spec, N.bits_0.
    destruct (N.ltb_spec i 10) as [Hi|Hi].
    + rewrite <- shiftl_10, N.shiftl_spec_low by assumption. reflexivity.
    + rewrite <- (N.mod_small b (2 ^ 10)) by exact Hb.
      rewrite N.mod_pow2_bits_high by assumption. apply andb_false_r.
  - apply N.bits_inj. intros i. rewrite N.land_spec, N.bits_0.
    destruct (N.ltb_spec i 10) as [Hi|Hi].
    + rewrite <- shiftl_10, N.shiftl_spec_low by assumption. reflexivity.
    + rewrite <- (N.mod_small b (2 ^ 10)) by exact Hb.
      rewrite N.mod_pow2_bits_high by assumption. apply andb_false_r.
Qed.

Lemma lor_high (x : N) : x < 1024 -> N.lor 55296 x = 55296 + x.
Proof. exact (lor_shifted 54 x). Qed.

Lemma lor_low (x : N) : x < 1024 -> N.lor 56320 x = 56320 + x.
Proof. exact (lor_shifted 55 x). Qed.

(** The surrogate pair that stands for a code point above the basic
    plane, and the code point it stands for. *)
Lemma surrogate_pair (c : N) :
  65536 <= c -> c < 1114112 ->
  let n := c - 65536 in
  let hi := N.lor 55296 (N.land (N.shiftr n 10) 1023) in
  let lo := N.lor 56320 (N.land n 1023) in
  hi < 65536 /\ lo < 65536 /\
  is_high_surrogate hi = true /\ is_low_surrogate lo = true /\
  join_surrogates hi lo = c.
Proof.
  intros H1 H2 n hi lo.
  assert (n < 1048576) as Hn by (unfold n; lia).
  assert (hi = 55296 + n / 1024) as Hhi.
  { unfold hi. rewrite shiftr_10, land_1023, lor_high.
    - f_equal. apply N.mod_small. div_mod_lia.
    - apply N.mod_lt. discriminate. }
  assert (lo = 56320 + n mod 1024) as Hlo.
  { unfold lo. rewrite land_1023, lor_low; [reflexivity|].
    apply N.mod_lt. discriminate. }
  assert (n / 1024 < 1024) as Hq by div_mod_lia.
  assert (n mod 1024 < 1024) as Hr by (apply N.mod_lt; discriminate).
  pose proof (N.div_mod n 1024 ltac:(discriminate)) as Hdm.
  assert (c = n + 65536) as Hc by (unfold n; lia).
  clearbody hi lo n. subst hi lo.
  remember (n / 1024) as q eqn:Eq. remember (n mod 1024) as r eqn:Er.
  repeat split.
  - lia.
  - lia.
  - unfold is_high_surrogate. apply andb_true_iff.
    split; apply N.leb_le; lia.
  - unfold is_low_surrogate. apply andb_true_iff.
    split; apply N.leb_le; lia.
  - unfold join_surrogates. rewrite !land_1023, shiftl_10.
    replace ((55296 + q) mod 1024) with q.
    2:{ apply (N.mod_unique _ _ 54); lia. }
    replace ((56320 + r) mod 1024) with r.
    2:{ apply (N.mod_unique _ _ 55); lia. }
    rewrite lor_shifted by assumption. lia.
Qed.


Lemma scanstring_u_single (h1 h2 h3 h4 u : N) (s3 : pystr) :
  hex4 h1 h2 h3 h4 = Some u ->
  is_high_surrogate u = false ->
  scanstring (92 :: 117 :: h1 :: h2 :: h3 :: h4 :: s3)
  = match scanstring s3 with
    | Some (t, r) => Some (u :: t, r)
    | None => None
    end.
Proof.
  intros Hh Hs. cbn [scanstring].
  change (92 =? 34) with false. change (92 =? 92) with true.
  change (117 =? 117) with true. cbv iota.
  rewrite Hh, Hs. reflexivity.
Qed.

Lemma scanstring_u_pair (h1 h2 h3 h4 g1 g2 g3 g4 hi lo : N) (s4 : pystr) :
  hex4 h1 h2 h3 h4 = Some hi ->
  hex4 g1 g2 g3 g4 = Some lo ->
  is_high_surrogate hi = true ->
  is_low_surrogate lo = true ->
  scanstring
    (92 :: 117 :: h1 :: h2 :: h3 :: h4 :: 92 :: 117 :: g1 :: g2 :: g3 :: g4
     :: s4)
  = match scanstring s4 with
    | Some (t, r) => Some (join_surrogates hi lo :: t, r)
    | None => None
    end.
Proof.
  intros Hh Hg Hhi Hlo.
  change (scanstring
            (92 :: 117 :: h1 :: h2 :: h3 :: h4 :: 92 :: 117 :: g1 :: g2 :: g3
             :: g4 :: s4))
    with (match hex4 h1 h2 h3 h4 with
          | None => None
          | Some u =>
            if is_high_surrogate u then
              match hex4 g1 g2 g3 g4 with
              | None => None
              | Some u2 =>
                if is_low_surrogate u2 then
                  match scanstring s4 with
                  | Some (t, r) => Some (join_surrogates u u2 :: t, r)
                  | None => None
                  end
                else
                  match
                    scanstring
                      (92 :: 117 :: g1 :: g2 :: g3 :: g4 :: s4)
                  with
                  | Some (t, r) => Some (u :: t, r)
                  | None => None
                  end
              end
            else
              match
                scanstring (92 :: 117 :: g1 :: g2 :: g3 :: g4 :: s4)
              with
              | Some (t, r) => Some (u :: t, r)
              | None => None
              end
          end).
  now rewrite Hh, Hhi, Hg, Hlo.
Qed.

Lemma scanstring_escape_wide (c : N) (tail : pystr) :
  128 <= c -> is_scalar c ->
  scanstring (escape_char true c ++ tail)
  = match scanstring tail with
    | Some (t, r) => Some (c :: t, r)
    | None => None
    end.
Proof.
  intros H Hc. unfold escape_char.
  repeat match goal with
         | |- context [N.eqb c ?k] =>
           replace (N.eqb c k) with false by (symmetry; apply N.eqb_neq; lia)
         end.
  replace (c <? 32) with false by (symmetry; apply N.ltb_ge; lia).
  replace (126 <? c) with true by (symmetry; apply N.ltb_lt; lia).
  cbn [andb]. destruct (N.ltb_spec c 65536) as [Hb|Hb].
  - destruct (hex4_u_escape c Hb) as (h1 & h2 & h3 & h4 & -> & Hh).
    cbn [app]. apply scanstring_u_single; auto.
    unfold is_high_surrogate. destruct Hc as [Hc | [Hc _]].
    + apply andb_false_iff. left. apply N.leb_gt. lia.
    + apply andb_false_iff. right. apply N.leb_gt. lia.
  - assert (c < 1114112) as Hmax by (destruct Hc as [Hc | [_ Hc]]; lia).
    destruct (surrogate_pair c Hb Hmax) as (Hhi & Hlo & Hh & Hl & Hj).
    cbv zeta in *.
    destruct (hex4_u_escape _ Hhi) as (h1 & h2 & h3 & h4 & -> & Hh1).
    destruct (hex4_u_escape _ Hlo) as (g1 & g2 & g3 & g4 & -> & Hh2).
    cbn [app].
    rewrite (scanstring_u_pair _ _ _ _ _ _ _ _ _ _ _ Hh1 Hh2 Hh Hl).
    now rewrite Hj.
Qed.

Lemma scanstring_encode (ensure_ascii : bool) (s rest : pystr) :
  str_ok ensure_ascii s ->
  scanstring (flat_map (escape_char ensure_ascii) s ++ 34 :: rest)
  = Some (s, rest).
Proof.
  intros Hok. induction s as [|c s IH]; [reflexivity|].
  cbn [flat_map]. rewrite <- List.app_assoc.
  assert (str_ok ensure_ascii s) as Hs.
  { intros E. specialize (Hok E). now inversion Hok. }
  destruct (N.ltb_spec c 128) as [Hc|Hc].
  - rewrite scanstring_escape_small, IH by assumption. reflexivity.
  - destruct ensure_ascii.
    + specialize (Hok eq_refl). inversion Hok; subst.
      rewrite scanstring_escape_wide, IH by assumption. reflexivity.
    + rewrite scanstring_escape_big, IH by assumption. reflexivity.
Qed.

(** What follows a term in the text that [json.dump] writes: nothing, a
    comma or a line break. *)
Definition ends_term (rest : pystr) : Prop :=
  match rest with
  | [] => True
  | c :: _ => c = 44 \/ c = 10
  end.

Lemma uint_digits_span (u : Decimal.uint) (rest : pystr) :
  ends_term rest ->
  span_digits (uint_digits u ++ rest) = (uint_digits u, rest).
Proof.
  intros Hrest.
  induction u; cbn [uint_digits app span_digits];
    try (rewrite IHu; reflexivity).
  destruct rest as [|c rest]; [reflexivity|].
  cbn [span_digits]. unfold is_digit.
  destruct Hrest as [-> | ->]; reflexivity.
Qed.

Lemma digits_uint_digits (u : Decimal.uint) : digits_uint (uint_digits u) = u.
Proof. induction u; cbn; now rewrite ?IHu. Qed.

Lemma nzhead_not_D0 (u v : Decimal.uint) : Decimal.nzhead u <> Decimal.D0 v.
Proof. induction u; cbn; auto; discriminate. Qed.

Lemma to_uint_normal (n : N) : Decimal.unorm (N.to_uint n) = N.to_uint n.
Proof.
  rewrite <- (DecimalN.Unsigned.of_to n) at 2.
  now rewrite DecimalN.Unsigned.to_of.
Qed.

Lemma match_integer_to_uint (n : N) (rest : pystr) :
  ends_term rest ->
  match_integer (uint_digits (N.to_uint n) ++ rest)
  = Some (uint_digits (N.to_uint n), rest).
Proof.
  intros Hrest. pose proof (to_uint_normal n) as Hn.
  destruct (N.to_uint n) as [|u|u|u|u|u|u|u|u|u|u] eqn:E;
    try (cbn [uint_digits app match_integer]; cbn [N.eqb Pos.eqb is_digit];
         cbn; now rewrite uint_digits_span).
  - discriminate Hn.
  - assert (u = Decimal.Nil) as ->.
    { rewrite unorm_D0 in Hn. unfold Decimal.unorm in Hn.
      destruct (Decimal.nzhead u) eqn:Hz; try congruence.
      exfalso. eapply nzhead_not_D0. rewrite Hz. exact Hn. }
    reflexivity.
Qed.

Lemma match_tail (rest : pystr) :
  ends_term rest -> match_frac rest = ([], rest) /\ match_exp rest = ([], rest).
Proof.
  destruct rest as [|c rest]; [split; reflexivity|].
  intros [-> | ->]; split; reflexivity.
Qed.

Lemma to_uint_head (n : N) :
  exists c t, uint_digits (N.to_uint n) = c :: t /\ is_digit c = true.
Proof.
  pose proof (to_uint_normal n) as Hn.
  destruct (N.to_uint n); try discriminate Hn; cbn [uint_digits];
    do 2 eexists; split; reflexivity.
Qed.

Lemma match_number_int_repr (z : Z) (rest : pystr) :
  ends_term rest ->
  match_number (int_repr z ++ rest) = Some (VInt z, rest).
Proof.
  intros Hrest. unfold int_repr.
  destruct (match_tail rest Hrest) as [Hfrac Hexp].
  destruct (Z.ltb_spec z 0) as [Hz|Hz].
  - cbn [app]. unfold match_number. cbn [N.eqb Pos.eqb].
    rewrite match_integer_to_uint, Hfrac, Hexp by assumption.
    rewrite digits_uint_digits, DecimalN.Unsigned.of_to.
    cbv iota. rewrite N2Z.inj_abs_N. do 3 f_equal. lia.
  - cbn [app]. destruct (to_uint_head (Z.abs_N z)) as (c & t & Hd & Hc).
    unfold match_number. rewrite Hd. cbn [app].
    replace (c =? 45) with false.
    2:{ unfold is_digit in Hc. apply andb_true_iff in Hc as [Hc _].
        apply N.leb_le in Hc. symmetry. apply N.eqb_neq. lia. }
    change (c :: t ++ rest) with ((c :: t) ++ rest). rewrite <- Hd.
    rewrite match_integer_to_uint, Hfrac, Hexp by assumption.
    rewrite digits_uint_digits, DecimalN.Unsigned.of_to.
    cbv iota. rewrite N2Z.inj_abs_N. do 3 f_equal. lia.
Qed.

(** The fuel that reading a value back takes. *)
Fixpoint weight (v : value) : nat :=
  match v with
  | VList l => S (list_sum (map (fun x => S (weight x)) l))
  | VDict d => S (list_sum (map (fun kv => S (weight (snd kv))) d))
  | _ => 1
  end.

Lemma skip_ws_head (c : N) (s : pystr) :
  is_whitespace c = false -> skip_ws (c :: s) = c :: s.
Proof. intros H. simpl. now rewrite H. Qed.

Lemma skip_ws_newline_indent (indent level : nat) (s : pystr) :
  skip_ws (newline_indent indent level ++ s) = skip_ws s.
Proof.
  unfold newline_indent. cbn [app skip_ws is_whitespace N.eqb Pos.eqb orb].
  induction (indent * level)%nat as [|k IH]; [reflexivity|]. exact IH.
Qed.

(** The first character of a term: no white space, no closing bracket. *)
Definition term_head (s : pystr) : Prop :=
  exists c t, s = c :: t /\ is_whitespace c = false /\ c <> 93 /\ c <> 125.

Lemma term_head_skip_ws (s rest : pystr) :
  term_head s -> skip_ws (s ++ rest) = s ++ rest.
Proof.
  intros (c & t & -> & Hws & _). now apply skip_ws_head.
Qed.

Lemma is_digit_term_head (c : N) (t : pystr) :
  is_digit c = true -> term_head (c :: t).
Proof.
  intros H. exists c, t. unfold is_digit in H.
  apply andb_true_iff in H as [H1 H2].
  apply N.leb_le in H1, H2. repeat split; try lia.
  unfold is_whitespace.
  repeat (apply orb_false_iff; split); apply N.eqb_neq; lia.
Qed.

Lemma int_repr_head (z : Z) :
  exists c t, int_repr z = c :: t /\ (is_digit c = true \/
    c = 45 /\ exists c' t', t = c' :: t' /\ is_digit c' = true).
Proof.
  unfold int_repr. destruct (to_uint_head (Z.abs_N z)) as (c & t & -> & Hc).
  destruct (Z.ltb z 0); cbn [app].
  - exists 45, (c :: t). split; auto. right. split; auto. now exists c, t.
  - exists c, t. auto.
Qed.

Lemma iterencode_head (ensure_ascii : bool) (indent level : nat) (v : value) :
  plain ensure_ascii v -> term_head (iterencode ensure_ascii indent level v).
Proof.
  assert (forall c t, In c [34; 123; 91; 110; 116; 102; 45] ->
                      term_head (c :: t)) as Hc.
  { intros c t Hin. exists c, t. simpl in Hin.
    repeat split; try (intuition (subst; (reflexivity || discriminate))). }
  destruct 1 as [| [|] | z | s _ | [|x l] _ | [|kv d] _ _ _]; cbn [iterencode];
    try (apply Hc; simpl; tauto).
  destruct (int_repr_head z) as (c & t & -> & [Hd | [-> _]]).
  - now apply is_digit_term_head.
  - apply Hc. simpl. tauto.
Qed.

Lemma scan_once_number (fuel : nat) (s : pystr) :
  (exists c t, s = c :: t /\ (is_digit c = true \/
     c = 45 /\ exists c' t', t = c' :: t' /\ is_digit c' = true)) ->
  scan_once (S fuel) s = match_number s.
Proof.
  intros (c & t & -> & H). cbn [scan_once].
  destruct H as [H | (-> & c' & t' & -> & H)].
  - unfold is_digit in H. apply andb_true_iff in H as [H1 H2].
    apply N.leb_le in H1, H2.
    repeat match goal with
           | |- context [N.eqb c ?k] =>
             replace (N.eqb c k) with false
               by (symmetry; apply N.eqb_neq; lia)
           end.
    reflexivity.
  - cbn [N.eqb Pos.eqb]. unfold match_constant.
    set (name := str "-Infinity"). vm_compute in name. subst name.
    cbn [startswith].
    unfold is_digit in H. apply andb_true_iff in H as [H1 H2].
    apply N.leb_le in H1, H2.
    replace (73 =? c') with false by (symmetry; apply N.eqb_neq; lia).
    rewrite N.eqb_refl. reflexivity.
Qed.

Section RoundTrip.
Variables (ensure_ascii : bool) (indent : nat).

Let enc := iterencode ensure_ascii indent.
Let sep (level : nat) : pystr := 44 :: newline_indent indent (S level).

(** The text of a dictionary entry. *)
Definition encode_item (level : nat) (kv : pystr * value) : pystr :=
  encode_basestring ensure_ascii (fst kv) ++ [58; 32]
  ++ iterencode ensure_ascii indent level (snd kv).

Lemma join_cons_app (s x : pystr) (chunks : list pystr) (tail : pystr) :
  join s (x :: chunks) ++ tail
  = x ++ match chunks with
         | [] => tail
         | _ :: _ => s ++ join s chunks ++ tail
         end.
Proof.
  destruct chunks as [|y chunks]; cbn [join]; [reflexivity|].
  now rewrite <- !List.app_assoc.
Qed.

Lemma ends_term_sep (level : nat) (s : pystr) : ends_term (sep level ++ s).
Proof. left. reflexivity. Qed.

Lemma ends_term_newline (level : nat) (s : pystr) :
  ends_term (newline_indent indent level ++ s).
Proof. right. reflexivity. Qed.

Lemma skip_ws_sep (level : nat) (s : pystr) :
  skip_ws (sep level ++ s) = 44 :: newline_indent indent (S level) ++ s.
Proof. reflexivity. Qed.

Lemma skip_ws_closing (level : nat) (c : N) (s : pystr) :
  is_whitespace c = false ->
  skip_ws (newline_indent indent level ++ c :: s) = c :: s.
Proof.
  intros H. rewrite skip_ws_newline_indent. now apply skip_ws_head.
Qed.

(** The induction hypothesis of the main lemma: terms are read back with
    any fuel below [n] that covers their weight. *)
Definition reads_back (n : nat) : Prop :=
  forall m, (m < n)%nat ->
  forall v level rest,
    (weight v <= m)%nat -> plain ensure_ascii v -> ends_term rest ->
    scan_once m (enc level v ++ rest) = Some (v, rest).

Lemma parse_array_enc (n : nat) (IH : reads_back n) :
  forall (l : list value) (fuel : nat) (acc : list value) (level : nat)
         (rest : pystr),
    (fuel <= n)%nat -> l <> [] ->
    Forall (plain ensure_ascii) l ->
    (list_sum (map (fun x => S (weight x)) l) <= fuel)%nat ->
    parse_array fuel
      (join (sep level) (map (enc (S level)) l)
       ++ newline_indent indent level ++ 93 :: rest) acc
    = Some (acc ++ l, rest).
Proof.
  induction l as [|x l IHl]; intros fuel acc level rest Hfuel Hne Hplain Hw;
    [congruence|].
  inversion Hplain as [|? ? Hx Hl]; subst.
  simpl in Hw.
  destruct fuel as [|fuel]; [lia|].
  cbn [map]. rewrite join_cons_app. cbn [parse_array].
  rewrite (IH fuel); auto; try lia.
  2:{ destruct (map (enc (S level)) l);
        [apply ends_term_newline | apply ends_term_sep]. }
  destruct l as [|y l].
  - cbn [map]. rewrite skip_ws_closing by reflexivity. reflexivity.
  - change (match map (enc (S level)) (y :: l) with
            | [] => newline_indent indent level ++ 93 :: rest
            | _ :: _ =>
              sep level ++ join (sep level) (map (enc (S level)) (y :: l))
              ++ newline_indent indent level ++ 93 :: rest
            end)
      with (sep level ++ join (sep level) (map (enc (S level)) (y :: l))
            ++ newline_indent indent level ++ 93 :: rest).
    rewrite skip_ws_sep.
    change (44 =? 93) with false. change (44 =? 44) with true. cbv iota.
    rewrite skip_ws_newline_indent.
    assert (skip_ws
              (join (sep level) (map (enc (S level)) (y :: l))
               ++ newline_indent indent level ++ 93 :: rest)
            = join (sep level) (map (enc (S level)) (y :: l))
              ++ newline_indent indent level ++ 93 :: rest) as ->.
    { cbn [map]. rewrite join_cons_app.
      inversion Hl; subst.
      apply term_head_skip_ws. now apply iterencode_head. }
    rewrite (IHl fuel (acc ++ [x]) level rest); auto; try lia;
      try discriminate.
    now rewrite <- List.app_assoc.
Qed.

Lemma parse_object_enc (n : nat) (IH : reads_back n) :
  forall (d : list (pystr * value)) (fuel : nat) (d0 : list (pystr * value))
         (level : nat) (rest : pystr),
    (fuel <= n)%nat -> d <> [] ->
    Forall (fun kv => str_ok ensure_ascii (fst kv)) d ->
    Forall (plain ensure_ascii) (map snd d) ->
    (list_sum (map (fun kv => S (weight (snd kv))) d) <= fuel)%nat ->
    parse_object fuel
      (join (sep level) (map (encode_item (S level)) d)
       ++ newline_indent indent level ++ 125 :: rest) d0
    = Some (dict_update d0 d, rest).
Proof.
  induction d as [|[k v] d IHd];
    intros fuel d0 level rest Hfuel Hne Hkeys Hplain Hw; [congruence|].
  inversion Hkeys as [|? ? Hk Hks]; subst.
  cbn [map snd] in Hplain. inversion Hplain as [|? ? Hv Hvs]; subst.
  simpl in Hw.
  destruct fuel as [|fuel]; [lia|].
  cbn [map]. rewrite join_cons_app. unfold encode_item at 1.
  cbn [fst snd]. unfold encode_basestring.
  rewrite <- !List.app_assoc. cbn [app parse_object].
  cbn [N.eqb Pos.eqb].
  rewrite <- List.app_assoc. cbn [app].
  rewrite scanstring_encode by assumption.
  cbn [skip_ws is_whitespace N.eqb Pos.eqb orb].
  assert (forall tail, skip_ws (iterencode ensure_ascii indent (S level) v ++ tail)
                       = enc (S level) v ++ tail) as Hskip.
  { intros tail. apply term_head_skip_ws. now apply iterencode_head. }
  rewrite Hskip.
  rewrite (IH fuel); auto; try lia.
  2:{ destruct (map (encode_item (S level)) d);
        [apply ends_term_newline | apply ends_term_sep]. }
  destruct d as [|[k' v'] d].
  - cbn [map]. rewrite skip_ws_closing by reflexivity. reflexivity.
  - change (match map (encode_item (S level)) ((k', v') :: d) with
            | [] => newline_indent indent level ++ 125 :: rest
            | _ :: _ =>
              sep level
              ++ join (sep level) (map (encode_item (S level)) ((k', v') :: d))
              ++ newline_indent indent level ++ 125 :: rest
            end)
      with (sep level
            ++ join (sep level) (map (encode_item (S level)) ((k', v') :: d))
            ++ newline_indent indent level ++ 125 :: rest).
    rewrite skip_ws_sep.
    change (44 =? 125) with false. change (44 =? 44) with true. cbv iota.
    rewrite skip_ws_newline_indent.
    assert (skip_ws
              (join (sep level) (map (encode_item (S level)) ((k', v') :: d))
               ++ newline_indent indent level ++ 125 :: rest)
            = join (sep level) (map (encode_item (S level)) ((k', v') :: d))
              ++ newline_indent indent level ++ 125 :: rest) as ->.
    { cbn [map]. rewrite join_cons_app. reflexivity. }
    rewrite (IHd fuel (dict_set k v d0) level rest); auto; try lia;
      try discriminate.
Qed.


Lemma plain_dict_update (d : list (pystr * value)) :
  NoDup (dict_keys d) -> dict_update [] d = d.
Proof. intros H. now apply (dict_update_app d []). Qed.

Lemma scan_once_enc :
  forall (fuel : nat) (v : value) (level : nat) (rest : pystr),
    (weight v <= fuel)%nat -> plain ensure_ascii v -> ends_term rest ->
    scan_once fuel (enc level v ++ rest) = Some (v, rest).
Proof.
  induction fuel as [fuel IH] using lt_wf_ind.
  assert (reads_back fuel) as Hback.
  { intros m Hm v level rest. now apply IH. }
  intros v level rest Hw Hplain Hrest.
  destruct fuel as [|fuel]; [destruct v; simpl in Hw; lia|].
  destruct Hplain as [| [|] | z | s Hs | l Hl | d Hnd Hkeys Hvals].
  - reflexivity.
  - reflexivity.
  - reflexivity.
  - unfold enc. cbn [iterencode].
    rewrite scan_once_number.
    + now apply match_number_int_repr.
    + destruct (int_repr_head z)
        as (c & t & -> & [H | (-> & c' & t' & -> & H)]).
      * exists c, (t ++ rest). auto.
      * exists 45, (c' :: t' ++ rest). split; [reflexivity|].
        right. split; [reflexivity|]. now exists c', (t' ++ rest).
  - unfold enc. cbn [iterencode]. unfold encode_basestring.
    cbn [app scan_once]. change (34 =? 34) with true. cbv iota.
    rewrite <- List.app_assoc. cbn [app].
    now rewrite scanstring_encode.
  - destruct l as [|x l]; [reflexivity|].
    unfold enc. cbn [iterencode].
    rewrite <- !List.app_assoc. cbn [app scan_once].
    change (91 =? 34) with false. change (91 =? 123) with false.
    change (91 =? 91) with true. cbv iota.
    rewrite skip_ws_newline_indent.
    fold (sep level). fold (enc (S level)).
    assert (term_head (join (sep level) (map (enc (S level)) (x :: l))
                       ++ newline_indent indent level ++ 93 :: rest))
      as (c & t & E & Hws & H93 & _).
    { cbn [map]. rewrite join_cons_app. inversion Hl; subst.
      destruct (iterencode_head ensure_ascii indent (S level) x)
        as (c & t & E & H); auto.
      exists c. eexists. unfold enc. rewrite E. split; [reflexivity|exact H]. }
    rewrite <- ?List.app_assoc in E. cbn [app] in E.
    rewrite E, skip_ws_head by assumption.
    replace (c =? 93) with false by (symmetry; now apply N.eqb_neq).
    rewrite <- E.
    rewrite (parse_array_enc (S fuel) Hback (x :: l) fuel [] level rest);
      [reflexivity | lia | discriminate | assumption | simpl in Hw |- *; lia].
  - destruct d as [|kv d]; [reflexivity|].
    unfold enc. cbn [iterencode].
    change (map (fun kv0 : pystr * value =>
                   encode_basestring ensure_ascii (fst kv0) ++ [58; 32]
                   ++ iterencode ensure_ascii indent (S level) (snd kv0))
              (kv :: d))
      with (map (encode_item (S level)) (kv :: d)).
    rewrite <- !List.app_assoc. cbn [app scan_once].
    change (123 =? 34) with false. change (123 =? 123) with true. cbv iota.
    rewrite skip_ws_newline_indent.
    fold (sep level).
    assert (exists t,
               join (sep level) (map (encode_item (S level)) (kv :: d))
               ++ newline_indent indent level ++ 125 :: rest = 34 :: t)
      as (t & E).
    { cbn [map]. rewrite join_cons_app. unfold encode_item at 1.
      unfold encode_basestring. eexists. reflexivity. }
    rewrite <- ?List.app_assoc in E. cbn [app] in E.
    rewrite E, skip_ws_head by reflexivity.
    change (34 =? 125) with false. cbv iota.
    rewrite <- E.
    rewrite (parse_object_enc (S fuel) Hback (kv :: d) fuel [] level rest);
      [now rewrite plain_dict_update | lia | discriminate | assumption
      | assumption | simpl in Hw |- *; lia].
Qed.


Lemma join_weight {A : Type} (w : A -> nat) (f : A -> pystr) (s : pystr)
  (l : list A) :
  s <> [] ->
  (forall x, In x l -> (w x <= List.length (f x))%nat) ->
  (list_sum (map (fun x => S (w x)) l)
   <= List.length (join s (map f l)) + 1)%nat.
Proof.
  intros Hs. induction l as [|x l IH]; intros Hl; [simpl; lia|].
  assert (w x <= List.length (f x))%nat as Hx by (apply Hl; now left).
  assert (list_sum (map (fun x => S (w x)) l)
          <= List.length (join s (map f l)) + 1)%nat as Hrec
      by (apply IH; intros y Hy; apply Hl; now right).
  destruct l as [|y l]; [simpl; lia|].
  change (map (fun x => S (w x)) (x :: y :: l))
    with (S (w x) :: map (fun x => S (w x)) (y :: l)).
  change (join s (map f (x :: y :: l)))
    with (f x ++ s ++ join s (map f (y :: l))).
  change (list_sum (S (w x) :: map (fun x => S (w x)) (y :: l)))
    with (S (w x) + list_sum (map (fun x => S (w x)) (y :: l)))%nat.
  rewrite !length_app. destruct s; [congruence|]. cbn [List.length]. lia.
Qed.

Lemma weight_le_length :
  forall (n : nat) (v : value) (level : nat),
    (weight v <= n)%nat -> plain ensure_ascii v ->
    (weight v <= List.length (enc level v))%nat.
Proof.
  induction n as [|n IH]; intros v level Hw Hplain;
    [destruct v; simpl in Hw; lia|].
  destruct Hplain as [| [|] | z | s Hs | l Hl | d Hnd Hkeys Hvals];
    try (simpl; lia).
  - destruct (int_repr_head z) as (c & t & E & _).
    unfold enc. cbn [iterencode weight]. rewrite E. simpl. lia.
  - destruct l as [|x l]; [simpl; lia|].
    unfold enc. cbn [iterencode weight]. rewrite !length_app.
    cbn [List.length].
    pose proof (join_weight weight (enc (S level))
                  (44 :: newline_indent indent (S level)) (x :: l)) as Hj.
    unfold enc in Hj.
    assert (list_sum (map (fun x0 => S (weight x0)) (x :: l))
            <= List.length
                 (join (44%N :: newline_indent indent (S level))
                    (map (iterencode ensure_ascii indent (S level)) (x :: l)))
               + 1)%nat.
    { apply Hj; [discriminate|]. intros y Hy. apply IH.
      - assert (S (weight y)
                <= list_sum (map (fun x0 => S (weight x0)) (x :: l)))%nat.
        { clear - Hy. induction (x :: l) as [|a l' IHl']; [contradiction|].
          destruct Hy as [-> | Hy]; simpl; [lia|].
          specialize (IHl' Hy). simpl in IHl'. lia. }
        cbn [weight] in Hw. lia.
      - rewrite Forall_forall in Hl. now apply Hl. }
    lia.
  - destruct d as [|kv d]; [simpl; lia|].
    unfold enc. cbn [iterencode weight]. rewrite !length_app.
    cbn [List.length].
    pose proof (join_weight (fun kv => weight (snd kv))
                  (encode_item (S level))
                  (44 :: newline_indent indent (S level)) (kv :: d)) as Hj.
    unfold encode_item in Hj.
    assert (list_sum (map (fun kv0 => S (weight (snd kv0))) (kv :: d))
            <= List.length
                 (join (44%N :: newline_indent indent (S level))
                    (map (fun kv0 : pystr * value =>
                            encode_basestring ensure_ascii (fst kv0)
                            ++ [58%N; 32%N]
                            ++ iterencode ensure_ascii indent (S level)
                                 (snd kv0)) (kv :: d)))
               + 1)%nat.
    { apply Hj; [discriminate|]. intros y Hy. rewrite !length_app.
      assert (weight (snd y)
              <= List.length (enc (S level) (snd y)))%nat; [|unfold enc in *; lia].
      apply IH.
      - assert (S (weight (snd y))
                <= list_sum (map (fun kv0 => S (weight (snd kv0))) (kv :: d)))%nat.
        { clear - Hy. induction (kv :: d) as [|a l' IHl']; [contradiction|].
          destruct Hy as [-> | Hy]; simpl; [lia|].
          specialize (IHl' Hy). simpl in IHl'. lia. }
        cbn [weight] in Hw. lia.
      - rewrite Forall_forall in Hvals. apply Hvals. now apply in_map. }
    lia.
Qed.

(** Reading back what [json.dump] wrote gives back the value. *)
Lemma loads_dumps (v : value) :
  plain ensure_ascii v -> loads (dumps ensure_ascii indent v) = Some v.
Proof.
  intros Hplain. unfold loads, dumps.
  rewrite <- (List.app_nil_r (iterencode ensure_ascii indent 0 v)) at 2.
  rewrite term_head_skip_ws by now apply iterencode_head.
  fold (enc 0 v).
  rewrite (scan_once_enc (S (List.length (enc 0 v))) v 0 []);
    [reflexivity | | assumption | exact I].
  pose proof (weight_le_length (weight v) v 0 (le_n _) Hplain). lia.
Qed.

End RoundTrip.

Local Close Scope N_scope.

(** ** Values that are read back *)

Lemma dict_set_Forall {A : Type} (P : pystr * A -> Prop) (k : pystr) (v : A)
  (d : dict A) :
  Forall P d -> P (k, v) -> Forall P (dict_set k v d).
Proof.
  intros Hd Hkv. induction Hd as [|[k' v'] d Hx Hd IH]; simpl.
  - now constructor.
  - case_str_eqb k k'; constructor; auto. now subst.
Qed.

Lemma dict_del_Forall {A : Type} (P : pystr * A -> Prop) (k : pystr)
  (d d' : dict A) :
  Forall P d -> dict_del k d = Some d' -> Forall P d'.
Proof.
  intros Hd. revert d'. induction Hd as [|[k' v'] d Hx Hd IH]; simpl.
  - discriminate.
  - intros d'. case_str_eqb k k'.
    + now intros [= <-].
    + destruct (dict_del k d) as [d''|]; [|discriminate].
      intros [= <-]. constructor; auto.
Qed.

Lemma dict_get_Forall {A : Type} (P : pystr * A -> Prop) (k : pystr) (v : A)
  (d : dict A) :
  Forall P d -> dict_get k d = Some v -> exists k', P (k', v).
Proof.
  intros Hd. induction Hd as [|[k' v'] d Hx Hd IH]; simpl.
  - discriminate.
  - destruct (str_eqb k k'); auto. intros [= <-]. now exists k'.
Qed.

Lemma plain_parts (ensure_ascii : bool) (d : dict value) :
  plain ensure_ascii (VDict d) <->
  NoDup (dict_keys d) /\
  Forall (fun kv => str_ok ensure_ascii (fst kv) /\
                    plain ensure_ascii (snd kv)) d.
Proof.
  split.
  - intros H. inversion H as [| | | | |? Hnd Hk Hv]; subst. split; auto.
    clear Hnd H. induction d as [|kv d IH]; constructor;
      inversion Hk; inversion Hv; subst; auto.
  - intros [Hnd H]. constructor; auto.
    + eapply Forall_impl; [|exact H]. now intros kv [Hk _].
    + apply Forall_map. eapply Forall_impl; [|exact H]. now intros kv [_ Hv].
Qed.

Lemma plain_dict_get (ensure_ascii : bool) (d : dict value) (k : pystr)
  (v : value) :
  plain ensure_ascii (VDict d) -> dict_get k d = Some v ->
  plain ensure_ascii v.
Proof.
  intros H E. apply plain_parts in H as [_ H].
  destruct (dict_get_Forall _ k v d H E) as [k' [_ Hv]]. exact Hv.
Qed.

Lemma plain_dict_set (ensure_ascii : bool) (d : dict value) (k : pystr)
  (v : value) :
  plain ensure_ascii (VDict d) -> str_ok ensure_ascii k ->
  plain ensure_ascii v ->
  plain ensure_ascii (VDict (dict_set k v d)).
Proof.
  intros H Hk Hv. apply plain_parts in H as [Hnd H]. apply plain_parts.
  split; [now apply dict_set_NoDup|]. now apply dict_set_Forall.
Qed.

Lemma plain_dict_del (ensure_ascii : bool) (d d' : dict value) (k : pystr) :
  plain ensure_ascii (VDict d) -> dict_del k d = Some d' ->
  plain ensure_ascii (VDict d').
Proof.
  intros H E. apply plain_parts in H as [Hnd H]. apply plain_parts. split.
  - now destruct (dict_del_NoDup _ _ _ E Hnd).
  - eapply dict_del_Forall; eassumption.
Qed.

Lemma str_ok_false (s : pystr) : str_ok false s.
Proof. discriminate. Qed.

Lemma is_ascii_text (s : pystr) : is_ascii s -> is_text s.
Proof.
  apply Forall_impl. intros c Hc. left. apply (N.lt_trans _ 128); auto.
  reflexivity.
Qed.

Lemma str_ok_ascii (ensure_ascii : bool) (s : pystr) :
  is_ascii s -> str_ok ensure_ascii s.
Proof. intros H _. now apply is_ascii_text. Qed.

Lemma str_ok_action (ensure_ascii : bool) (action : pystr) :
  is_action action -> str_ok ensure_ascii action.
Proof.
  intros [-> | ->]; apply str_ok_ascii; repeat constructor.
Qed.

Lemma plain_day_of (ensure_ascii : bool) (log : dict value) (date : pystr) :
  plain ensure_ascii (VDict log) ->
  plain ensure_ascii (VDict (day_of date log)).
Proof.
  intros H. unfold day_of.
  destruct (dict_get date log) as [entry|] eqn:E.
  - pose proof (plain_dict_get _ _ _ _ H E) as He.
    destruct entry; auto.
    all: apply plain_parts; split;
      [repeat constructor; simpl; intuition discriminate
      | repeat constructor; apply str_ok_ascii; repeat constructor].
  - apply plain_parts; split;
      [repeat constructor; simpl; intuition discriminate
      | repeat constructor; apply str_ok_ascii; repeat constructor].
Qed.

(** A log that is read back stays one when an action is logged. *)
Lemma plain_bump (ensure_ascii : bool) (action today : pystr)
  (log : dict value) :
  is_action action -> str_ok ensure_ascii today ->
  plain ensure_ascii (VDict log) ->
  plain ensure_ascii (VDict (bump action today log)).
Proof.
  intros Ha Ht H. unfold bump.
  apply plain_dict_set; auto.
  apply plain_dict_set; auto using plain_day_of, str_ok_action.
  constructor.
Qed.

Lemma load_data_synced (w : world) :
  synced w -> plain false (VDict (word_data (self w))) ->
  load_data (disk w) = (Return (VDict (word_data (self w))), disk w).
Proof.
  unfold synced. intros Hs Hp.
  unfold load_data, bind, path_exists, json_load, read. rewrite Hs.
  cbv beta iota. rewrite Hs, loads_dumps by assumption. reflexivity.
Qed.


(** ** What [log_progress] leaves alone *)

(** A computation on the files that never writes the word-data file and
    whose result does not depend on it. *)
Definition apart_from_data {A : Type} (m : M FS A) : Prop :=
  forall fs,
    word_data_json (snd (m fs)) = word_data_json fs /\
    forall text,
      m (write DATA_FILE text fs)
      = (fst (m fs), write DATA_FILE text (snd (m fs))).

Lemma apart_ret {A : Type} (a : A) : apart_from_data (ret a).
Proof. intros fs. split; reflexivity. Qed.

Lemma apart_raise {A : Type} (e : exn) : apart_from_data (@raise FS A e).
Proof. intros fs. split; reflexivity. Qed.

Lemma apart_unmodelled {A : Type} : apart_from_data (@unmodelled FS A).
Proof. intros fs. split; reflexivity. Qed.

Lemma apart_bind {A B : Type} (m : M FS A) (k : A -> M FS B) :
  apart_from_data m -> (forall a, apart_from_data (k a)) ->
  apart_from_data (bind m k).
Proof.
  intros Hm Hk fs. destruct (Hm fs) as [Hm1 Hm2]. unfold bind. split.
  - destruct (m fs) as [[a|e|] fs1] eqn:E; cbn [fst snd] in *; auto.
    destruct (Hk a fs1) as [Hk1 _]. congruence.
  - intros text. rewrite Hm2.
    destruct (m fs) as [[a|e|] fs1] eqn:E; cbn [fst snd] in *; auto.
    destruct (Hk a fs1) as [_ Hk2]. rewrite Hk2.
    now destruct (k a fs1).
Qed.

Lemma apart_path_exists : apart_from_data (path_exists PROGRESS_FILE).
Proof. intros fs. split; reflexivity. Qed.

Lemma apart_json_load : apart_from_data (json_load PROGRESS_FILE).
Proof.
  intros fs. unfold json_load. simpl.
  destruct (progress_log_json fs) as [text|] eqn:E.
  - destruct (loads text); split; intros; simpl; now rewrite ?E.
  - split; intros; simpl; now rewrite ?E.
Qed.

Lemma apart_json_dump (obj : value) (ensure_ascii : bool) (indent : nat) :
  apart_from_data (json_dump obj PROGRESS_FILE ensure_ascii indent).
Proof.
  intros fs. split; [|intros text]; rewrite !json_dump_run; reflexivity.
Qed.

Lemma apart_update_from (log : dict value) (other : value) :
  apart_from_data (update_from log other).
Proof.
  destruct other as [| | | |[|]|[|]|]; simpl;
    auto using apart_ret, @apart_raise, @apart_unmodelled.
Qed.

Lemma apart_add1 (v : value) : apart_from_data (add1 v).
Proof. destruct v; simpl; auto using apart_ret, @apart_raise. Qed.

Lemma apart_increment (log : dict value) (today action : pystr) :
  apart_from_data (increment log today action).
Proof.
  unfold increment.
  destruct (match dict_get today log with
            | Some entry => (entry, log)
            | None => (new_day, dict_set today new_day log)
            end) as [entry log'].
  destruct entry; auto using @apart_raise.
  destruct (dict_get action d); auto using @apart_raise.
  apply apart_bind; auto using apart_add1, apart_ret.
Qed.

Lemma apart_log_progress (action today : pystr) :
  apart_from_data (log_progress action today).
Proof.
  unfold log_progress.
  apply apart_bind; [apply apart_path_exists|]. intros e.
  apply apart_bind.
  - destruct e; [|apply apart_ret].
    apply apart_bind; [apply apart_json_load|]. intros other.
    apply apart_update_from.
  - intros log. apply apart_bind; [apply apart_increment|]. intros log'.
    apply apart_json_dump.
Qed.

Lemma log_progress_data_file (action today : pystr) (fs : FS) :
  word_data_json (snd (log_progress action today fs)) = word_data_json fs.
Proof. apply apart_log_progress. Qed.

(** ** The handlers, step by step *)

Lemma on_disk_save_data (data : value) (w : world) :
  on_disk (save_data data) w
  = (if storable data then Return tt else Raise UnicodeEncodeError,
     mkWorld (self w) (write DATA_FILE (written false 4 data) (disk w))).
Proof. unfold on_disk, save_data. now rewrite json_dump_run. Qed.

Lemma add_word_steps (word explanation today : pystr) (w : world) :
  strip word <> [] ->
  add_word (word, true) (Some explanation) today w =
  let d := dict_set word (VStr explanation) (word_data (self w)) in
  let a := set_word_data d (self w) in
  let fs := write DATA_FILE (written false 4 (VDict d)) (disk w) in
  if storable (VDict d) then
    let r := log_progress (str "added") today fs in
    match fst r with
    | Return _ =>
      (Return tt, mkWorld (set_word_list (sorted (dict_keys d)) a) (snd r))
    | Raise e => (Raise e, mkWorld a (snd r))
    | Unmodelled => (Unmodelled, mkWorld a (snd r))
    end
  else (Raise UnicodeEncodeError, mkWorld a fs).
Proof.
  intros Hword. unfold add_word. cbn [negb orb].
  destruct (strip word); [contradiction|].
  unfold bind at 1, on_self, modify. unfold bind at 1, get.
  unfold bind at 1. rewrite on_disk_save_data.
  cbn [self disk word_data set_word_data]. cbv zeta.
  destruct (storable _); [|reflexivity].
  unfold bind, on_disk, refresh_word_list, on_self, modify. cbn [disk self].
  destruct (log_progress _ _ _) as [[[]|e|] fs']; reflexivity.
Qed.

(** [add_word] when the new mapping can be written. *)
Lemma add_word_run (word explanation today : pystr) (w : world) :
  strip word <> [] ->
  storable (VDict (dict_set word (VStr explanation) (word_data (self w))))
  = true ->
  add_word (word, true) (Some explanation) today w =
  let d := dict_set word (VStr explanation) (word_data (self w)) in
  let a := set_word_data d (self w) in
  let r := log_progress (str "added") today
             (write DATA_FILE (dumps false 4 (VDict d)) (disk w)) in
  match fst r with
  | Return _ =>
    (Return tt, mkWorld (set_word_list (sorted (dict_keys d)) a) (snd r))
  | Raise e => (Raise e, mkWorld a (snd r))
  | Unmodelled => (Unmodelled, mkWorld a (snd r))
  end.
Proof.
  intros Hword Hs. rewrite add_word_steps by assumption. cbv zeta.
  now rewrite Hs, written_dumps by exact Hs.
Qed.

(** [add_word] when it cannot: the word is stored, [save_data] fails
    with the beginning of the text in the file, and nothing else runs. *)
Lemma add_word_unsaved (word explanation today : pystr) (w : world) :
  strip word <> [] ->
  storable (VDict (dict_set word (VStr explanation) (word_data (self w))))
  = false ->
  add_word (word, true) (Some explanation) today w =
  let d := dict_set word (VStr explanation) (word_data (self w)) in
  (Raise UnicodeEncodeError,
   mkWorld (set_word_data d (self w))
     (write DATA_FILE (written false 4 (VDict d)) (disk w))).
Proof.
  intros Hword Hs. rewrite add_word_steps by assumption. cbv zeta.
  now rewrite Hs.
Qed.

(** The mapping after [add_word], however it ends. *)
Lemma add_word_data (word explanation today : pystr) (w : world) :
  strip word <> [] ->
  word_data (self (snd (add_word (word, true) (Some explanation) today w)))
  = dict_set word (VStr explanation) (word_data (self w)).
Proof.
  intros Hword. rewrite add_word_steps by assumption. cbv zeta.
  destruct (storable _); [destruct (fst _)|]; reflexivity.
Qed.

Lemma add_word_blank (word : pystr) (ok : bool) (dialog : option pystr)
  (today : pystr) (w : world) :
  strip word = [] -> add_word (word, ok) dialog today w = (Return tt, w).
Proof.
  intros Hword. unfold add_word. rewrite Hword.
  now rewrite orb_true_r.
Qed.

Lemma edit_word_steps (word current updated today : pystr) (w : world) :
  word_data_get word (self w) = VStr current ->
  edit_word (Some word) (Some updated) today w =
  let d := dict_set word (VStr updated) (word_data (self w)) in
  let fs := write DATA_FILE (written false 4 (VDict d)) (disk w) in
  if storable (VDict d) then
    let r := log_progress (str "viewed") today fs in
    (fst r,
     mkWorld
       (set_text_browser (Html updated (dark_mode (self w)))
          (set_word_data d (self w))) (snd r))
  else (Raise UnicodeEncodeError, mkWorld (set_word_data d (self w)) fs).
Proof.
  intros Hcur. unfold edit_word, bind at 1, get at 1. rewrite Hcur.
  unfold bind at 1, on_self, modify. unfold bind at 1, get.
  unfold bind at 1. rewrite on_disk_save_data.
  cbn [self disk word_data set_word_data]. cbv zeta.
  destruct (storable _); [|reflexivity].
  unfold display_explanation, word_data_get, bind at 1, get.
  cbn [self word_data set_word_data]. rewrite dict_get_set_eq.
  unfold bind, on_self, on_disk, modify. cbn [disk self dark_mode].
  destruct (log_progress _ _ _) as [[[]|e|] fs']; reflexivity.
Qed.

(** [edit_word] when the new mapping can be written. *)
Lemma edit_word_run (word current updated today : pystr) (w : world) :
  word_data_get word (self w) = VStr current ->
  storable (VDict (dict_set word (VStr updated) (word_data (self w))))
  = true ->
  edit_word (Some word) (Some updated) today w =
  let d := dict_set word (VStr updated) (word_data (self w)) in
  let a := set_text_browser (Html updated (dark_mode (self w)))
             (set_word_data d (self w)) in
  let r := log_progress (str "viewed") today
             (write DATA_FILE (dumps false 4 (VDict d)) (disk w)) in
  (fst r, mkWorld a (snd r)).
Proof.
  intros Hcur Hs. rewrite (edit_word_steps _ _ _ _ _ Hcur). cbv zeta.
  now rewrite Hs, written_dumps by exact Hs.
Qed.

(** [edit_word] when it cannot: the explanation is stored, [save_data]
    fails, and the word is not shown again. *)
Lemma edit_word_unsaved (word current updated today : pystr) (w : world) :
  word_data_get word (self w) = VStr current ->
  storable (VDict (dict_set word (VStr updated) (word_data (self w))))
  = false ->
  edit_word (Some word) (Some updated) today w =
  let d := dict_set word (VStr updated) (word_data (self w)) in
  (Raise UnicodeEncodeError,
   mkWorld (set_word_data d (self w))
     (write DATA_FILE (written false 4 (VDict d)) (disk w))).
Proof.
  intros Hcur Hs. rewrite (edit_word_steps _ _ _ _ _ Hcur). cbv zeta.
  now rewrite Hs.
Qed.

Lemma delete_word_steps (word : pystr) (d : dict value) (w : world) :
  dict_del word (word_data (self w)) = Some d ->
  delete_word (Some word) true w =
  let fs := write DATA_FILE (written false 4 (VDict d)) (disk w) in
  if storable (VDict d) then
    (Return tt,
     mkWorld
       (set_text_browser Blank
          (set_word_list (sorted (dict_keys d)) (set_word_data d (self w))))
       fs)
  else (Raise UnicodeEncodeError, mkWorld (set_word_data d (self w)) fs).
Proof.
  intros Hdel. unfold delete_word, bind at 1, get at 1. rewrite Hdel.
  unfold bind at 1, on_self, modify.
  unfold bind at 1. rewrite on_disk_save_data.
  cbn [self disk]. cbv zeta.
  destruct (storable _); reflexivity.
Qed.

(** [delete_word] when the remaining mapping can be written. *)
Lemma delete_word_run (word : pystr) (d : dict value) (w : world) :
  dict_del word (word_data (self w)) = Some d ->
  storable (VDict d) = true ->
  delete_word (Some word) true w =
  (Return tt,
   mkWorld
     (set_text_browser Blank
        (set_word_list (sorted (dict_keys d)) (set_word_data d (self w))))
     (write DATA_FILE (dumps false 4 (VDict d)) (disk w))).
Proof.
  intros Hdel Hs. rewrite (delete_word_steps _ _ _ Hdel). cbv zeta.
  now rewrite Hs, written_dumps by exact Hs.
Qed.

(** [delete_word] when it cannot: the word is deleted, [save_data] fails,
    and neither the list nor the pane is touched. *)
Lemma delete_word_unsaved (word : pystr) (d : dict value) (w : world) :
  dict_del word (word_data (self w)) = Some d ->
  storable (VDict d) = false ->
  delete_word (Some word) true w =
  (Raise UnicodeEncodeError,
   mkWorld (set_word_data d (self w))
     (write DATA_FILE (written false 4 (VDict d)) (disk w))).
Proof.
  intros Hdel Hs. rewrite (delete_word_steps _ _ _ Hdel). cbv zeta.
  now rewrite Hs.
Qed.

Lemma log_progress_after_save (action today text : pystr) (fs : FS) :
  log_progress action today (write DATA_FILE text fs)
  = (fst (log_progress action today fs),
     write DATA_FILE text (snd (log_progress action today fs))).
Proof. apply apart_log_progress. Qed.

(** ** [strip] *)

Lemma lstrip_head (s : pystr) :
  match lstrip s with
  | [] => True
  | c :: _ => isspace c = false
  end.
Proof.
  induction s as [|c s IH]; simpl; auto.
  destruct (isspace c) eqn:E; auto.
Qed.

Lemma lstrip_fixed (c : N) (s : pystr) :
  isspace c = false -> lstrip (c :: s) = c :: s.
Proof. intros H. simpl. now rewrite H. Qed.

Lemma lstrip_app_last (s : pystr) (c : N) :
  isspace c = false -> lstrip (s ++ [c]) = lstrip s ++ [c].
Proof.
  intros Hc. induction s as [|x s IH]; simpl.
  - now rewrite Hc.
  - destruct (isspace x); auto.
Qed.

Lemma rstrip_cons (c : N) (s : pystr) :
  isspace c = false -> rstrip (c :: s) = c :: rstrip s.
Proof.
  intros Hc. unfold rstrip. simpl.
  rewrite lstrip_app_last by assumption.
  now rewrite rev_app_distr.
Qed.

Lemma rstrip_idem (s : pystr) : rstrip (rstrip s) = rstrip s.
Proof.
  unfold rstrip. rewrite rev_involutive. f_equal.
  generalize (rev s) as t. intros t.
  pose proof (lstrip_head t) as H.
  destruct (lstrip t) as [|c t']; auto. now apply lstrip_fixed.
Qed.

(** Stripping a stripped word changes nothing. *)
Lemma strip_idem (s : pystr) : strip (strip s) = strip s.
Proof.
  unfold strip. pose proof (lstrip_head s) as H.
  destruct (lstrip s) as [|c t]; [reflexivity|].
  rewrite (rstrip_cons c t H), (lstrip_fixed c _ H).
  rewrite <- (rstrip_cons c t H). apply rstrip_idem.
Qed.

(** ** The representation invariant: the mapping has no repeated key *)

Lemma init_NoDup (fs fs' : FS) (a : DictionaryApp) :
  DictionaryApp_init fs = (Return a, fs') ->
  NoDup (dict_keys (word_data a)) /\ fs' = fs.
Proof.
  unfold DictionaryApp_init, load_data, bind, path_exists, json_load, read,
    ret, raise.
  destruct (word_data_json fs) as [text|] eqn:F; simpl; rewrite ?F.
  - destruct (loads text) as [v|] eqn:E; simpl; [|discriminate].
    destruct v; simpl; try discriminate.
    intros [= <- <-]. split; auto. simpl. eapply loads_NoDup, E.
  - intros [= <- <-]. split; auto. constructor.
Qed.

Lemma add_word_NoDup answer dialog today (w : world) :
  NoDup (dict_keys (word_data (self w))) ->
  NoDup (dict_keys (word_data (self (snd (add_word answer dialog today w))))).
Proof.
  intros Hnd. destruct answer as [word ok].
  destruct ok, dialog as [e|], (strip word) as [|c t] eqn:E;
    try (unfold add_word; rewrite E; exact Hnd);
    try (unfold add_word; exact Hnd).
  rewrite add_word_data by (rewrite E; discriminate).
  now apply dict_set_NoDup.
Qed.

(** ** Reading the progress file back *)


Lemma summarize_fst {S T : Type} (data : dict value) (dates : list pystr) :
  forall lines a v (s : S) (t : T),
    summarize data dates lines a v t
    = (fst (summarize data dates lines a v s), t).
Proof.
  induction dates as [|date dates IH]; intros lines a v s t.
  - reflexivity.
  - rewrite !summarize_cons.
    destruct (dict_get date data) as [stats|]; [|reflexivity].
    destruct (tally stats) as [[[[va vv] za] zv] | |]; auto.
Qed.

Lemma ProgressDialog_fst {S T : Type} (data : value) (s : S) (t : T) :
  ProgressDialog data t = (fst (ProgressDialog data s), t).
Proof.
  destruct data; try reflexivity. apply summarize_fst.
Qed.

(** [show_progress] on a progress file that [log_progress] wrote. *)
Lemma show_progress_written (text : option pystr) (log : dict value)
  (fs : FS) shown :
  plain true (VDict log) ->
  ProgressDialog (VDict log) fs = (Return shown, fs) ->
  show_progress (mkFS text (Some (dumps true 2 (VDict log))))
  = (Return (Some shown), mkFS text (Some (dumps true 2 (VDict log)))).
Proof.
  intros Hp Hs. unfold show_progress, bind at 1, path_exists.
  cbn [read progress_log_json negb].
  unfold bind at 1, json_load. cbn [read progress_log_json].
  rewrite loads_dumps by assumption.
  unfold bind. rewrite (ProgressDialog_fst _ fs), Hs. reflexivity.
Qed.

(** ** Adding a word *)

Lemma add_word_state (word explanation today : pystr) (w : world) :
  strip word <> [] ->
  let r := add_word (word, true) (Some explanation) today w in
  let w' := snd r in
  word_data (self w')
  = dict_set word (VStr explanation) (word_data (self w)) /\
  (storable (VDict (word_data (self w'))) = true ->
   word_data_json (disk w')
   = Some (dumps false 4 (VDict (word_data (self w')))) /\
   fst r = fst (log_progress (str "added") today (disk w))) /\
  (fst r = Return tt ->
   word_list (self w') = sorted (dict_keys (word_data (self w')))) /\
  (storable (VDict (word_data (self w'))) = false ->
   fst r = Raise UnicodeEncodeError /\
   word_data_json (disk w')
   = Some (written false 4 (VDict (word_data (self w')))) /\
   progress_log_json (disk w') = progress_log_json (disk w) /\
   word_list (self w') = word_list (self w)).
Proof.
  intros Hword r w'.
  pose proof (add_word_data word explanation today w Hword) as Hdata.
  unfold w', r. split; [exact Hdata|]. rewrite Hdata.
  destruct (storable
              (VDict (dict_set word (VStr explanation) (word_data (self w)))))
    eqn:Hs.
  - rewrite add_word_run by assumption. cbv zeta.
    rewrite log_progress_after_save. cbn [fst snd].
    destruct (fst (log_progress (str "added") today (disk w))) as [[]|e|];
      cbn [fst snd self disk word_data set_word_data set_word_list write
           word_data_json word_list];
      repeat split; auto; discriminate.
  - rewrite add_word_unsaved by assumption. cbv zeta.
    cbn [fst snd self disk word_data set_word_data write word_data_json
         progress_log_json word_list].
    repeat split; auto; discriminate.
Qed.

(** C1. For every word that is not empty once stripped and every
    explanation, after [add_word] the mapping gives that explanation for
    the word ([get]) and the sorted list of the words ([list]) holds the
    word exactly once; when the call returns the list widget shows that
    list, and the call returns whenever the new mapping can be written
    (none of its strings holds a surrogate) and the progress log is
    usable. *)
Theorem add_word_get_list (word explanation today : pystr) (w : world) :
  strip word <> [] ->
  NoDup (dict_keys (word_data (self w))) ->
  let r := add_word (word, true) (Some explanation) today w in
  let words := sorted (dict_keys (word_data (self (snd r)))) in
  word_data_get word (self (snd r)) = VStr explanation /\
  count_occ pystr_eq_dec words word = 1 /\
  (fst r = Return tt -> word_list (self (snd r)) = words) /\
  (forall log,
      storable (VDict (word_data (self (snd r)))) = true ->
      prior_log (disk w) log ->
      counter_ready (str "added") today log ->
      fst r = Return tt).
Proof.
  intros Hword Hnd r words.
  destruct (add_word_state word explanation today w Hword)
    as (Hdata & Hsaved & Hlist & _).
  fold r in Hdata, Hsaved, Hlist. unfold words. rewrite Hdata.
  repeat split.
  - unfold word_data_get. now rewrite Hdata, dict_get_set_eq.
  - rewrite sorted_count_occ. now apply dict_set_count.
  - intros Hr. rewrite (Hlist Hr). now rewrite Hdata.
  - intros log Hs Hprior Hready. rewrite Hdata in Hsaved.
    destruct (Hsaved Hs) as [_ ->].
    now rewrite (log_progress_bump _ _ _ log) by (auto; now left).
Qed.

(** C6, as the code has it. A word that is empty once stripped makes
    [add_word] return at once, without an error: the call returns
    normally and neither the application object nor either file has
    changed, whatever the dialogs would have answered. *)
Theorem add_word_blank_ignored (word : pystr) (ok : bool)
  (dialog : option pystr) (today : pystr) (w : world) :
  strip word = [] ->
  add_word (word, ok) dialog today w = (Return tt, w).
Proof. apply add_word_blank. Qed.

(** C10. [add_word] stores the word as it was entered: the key is the
    word itself, with its white space, and the entry of the stripped
    word, like every other entry, is what it was before; so a word and
    its stripped form live side by side. Stripping serves the emptiness
    test only. *)
Theorem add_word_not_stripped (word explanation today : pystr) (w : world) :
  strip word <> [] ->
  strip word <> word ->
  let w' := snd (add_word (word, true) (Some explanation) today w) in
  word_data_get word (self w') = VStr explanation /\
  In word (dict_keys (word_data (self w'))) /\
  (forall other,
      other <> word ->
      dict_get other (word_data (self w'))
      = dict_get other (word_data (self w))) /\
  (forall explanation' today',
      let w'' :=
        snd (add_word (strip word, true) (Some explanation') today' w') in
      word_data_get word (self w'') = VStr explanation /\
      word_data_get (strip word) (self w'') = VStr explanation').
Proof.
  intros Hword Hstrip w'.
  destruct (add_word_state word explanation today w Hword) as (Hdata & _).
  fold w' in Hdata.
  assert (word_data_get word (self w') = VStr explanation) as Hget.
  { unfold word_data_get. now rewrite Hdata, dict_get_set_eq. }
  repeat split; auto.
  - rewrite Hdata. apply dict_set_In.
  - intros other Hother. rewrite Hdata. apply dict_get_set_ne. congruence.
  - destruct (add_word_state (strip word) explanation' today' w')
      as (Hdata' & _); [now rewrite strip_idem|].
    unfold word_data_get in *. rewrite Hdata'.
    now rewrite dict_get_set_ne by assumption.
  - destruct (add_word_state (strip word) explanation' today' w')
      as (Hdata' & _); [now rewrite strip_idem|].
    unfold word_data_get. now rewrite Hdata', dict_get_set_eq.
Qed.



(** ** Memory and disk after a mutation *)

(** The mapping after [edit_word], however it ends. *)
Lemma edit_word_data (word current updated today : pystr) (w : world) :
  word_data_get word (self w) = VStr current ->
  word_data (self (snd (edit_word (Some word) (Some updated) today w)))
  = dict_set word (VStr updated) (word_data (self w)).
Proof.
  intros Hcur. rewrite (edit_word_steps _ _ _ _ _ Hcur). cbv zeta.
  destruct (storable _); reflexivity.
Qed.

Lemma edit_word_state (word current updated today : pystr) (w : world) :
  word_data_get word (self w) = VStr current ->
  let r := edit_word (Some word) (Some updated) today w in
  let d := dict_set word (VStr updated) (word_data (self w)) in
  word_data (self (snd r)) = d /\
  (storable (VDict d) = true ->
   synced (snd r) /\
   r = (fst (log_progress (str "viewed") today (disk w)),
        mkWorld
          (set_text_browser (Html updated (dark_mode (self w)))
             (set_word_data d (self w)))
          (write DATA_FILE (dumps false 4 (VDict d))
             (snd (log_progress (str "viewed") today (disk w)))))) /\
  (storable (VDict d) = false ->
   r = (Raise UnicodeEncodeError,
        mkWorld (set_word_data d (self w))
          (write DATA_FILE (written false 4 (VDict d)) (disk w)))).
Proof.
  intros Hcur r d. split; [now apply (edit_word_data _ current)|]. split.
  - intros Hs. unfold r. rewrite (edit_word_run _ _ _ _ _ Hcur Hs).
    cbv zeta. rewrite log_progress_after_save. unfold synced.
    cbn [fst snd]. split; reflexivity.
  - intros Hs. unfold r. now rewrite (edit_word_unsaved _ _ _ _ _ Hcur Hs).
Qed.

(** The mapping after [delete_word], however it ends. *)
Lemma delete_word_data (word : pystr) (d : dict value) (w : world) :
  dict_del word (word_data (self w)) = Some d ->
  word_data (self (snd (delete_word (Some word) true w))) = d.
Proof.
  intros Hdel. rewrite (delete_word_steps _ _ _ Hdel). cbv zeta.
  destruct (storable _); reflexivity.
Qed.

(** A text that is not the whole text of the mapping in memory. *)
Lemma unsaved_not_synced (a : DictionaryApp) (fs : FS) :
  storable (VDict (word_data a)) = false ->
  ~ synced
      (mkWorld a (write DATA_FILE (written false 4 (VDict (word_data a))) fs)).
Proof.
  intros Hs. unfold synced. cbn [self disk write word_data_json].
  intros [= E]. now apply (written_not_dumps 4 _ Hs).
Qed.

Lemma add_word_cases (answer : pystr * bool) (dialog : option pystr)
  (today : pystr) (w : world) :
  (exists word explanation,
      answer = (word, true) /\ dialog = Some explanation /\
      strip word <> []) \/
  add_word answer dialog today w = (Return tt, w).
Proof.
  destruct answer as [word ok]. unfold add_word.
  destruct ok; [|now right]. simpl.
  destruct (strip word) eqn:E; [now right|].
  destruct dialog as [explanation|]; [|now right].
  left. exists word, explanation. rewrite E. repeat split. discriminate.
Qed.

Lemma edit_word_cases (item dialog : option pystr) (today : pystr)
  (w : world) :
  (exists word current updated,
      item = Some word /\ dialog = Some updated /\
      word_data_get word (self w) = VStr current) \/
  snd (edit_word item dialog today w) = w.
Proof.
  unfold edit_word. destruct item as [word|]; [|now right].
  unfold bind at 1, get at 1.
  destruct (word_data_get word (self w)) eqn:E; try (now right).
  destruct dialog as [updated|]; [|now right].
  left. now exists word, s, updated.
Qed.

Lemma delete_word_cases (item : option pystr) (confirm : bool) (w : world) :
  (exists word d,
      item = Some word /\ confirm = true /\
      dict_del word (word_data (self w)) = Some d) \/
  snd (delete_word item confirm w) = w.
Proof.
  unfold delete_word. destruct item as [word|]; [|now right].
  destruct confirm; [|now right].
  unfold bind at 1, get at 1.
  destruct (dict_del word (word_data (self w))) as [d|] eqn:E; [|now right].
  left. now exists word, d.
Qed.

(** C2. When [add_word], [edit_word] or [delete_word] changes the
    mapping, the word-data file holds, from the call of [save_data] on,
    the text of the whole mapping in memory, provided the mapping can be
    written (none of its strings holds a surrogate); otherwise
    [save_data] raises [UnicodeEncodeError], the operation does not
    complete, and the file is left with the beginning of the text only.
    So after every one of the three that completes, memory and disk
    agree or nothing was changed. The text stands for the mapping:
    [load_data] on it gives the mapping in memory back, when the mapping
    holds no float and no dictionary with a repeated key, which the three
    handlers keep so. *)
Theorem mutations_synced (w : world) (today : pystr) :
  (forall word explanation,
      strip word <> [] ->
      let r := add_word (word, true) (Some explanation) today w in
      word_data (self (snd r))
      = dict_set word (VStr explanation) (word_data (self w)) /\
      (storable (VDict (word_data (self (snd r)))) = true ->
       synced (snd r)) /\
      (storable (VDict (word_data (self (snd r)))) = false ->
       fst r = Raise UnicodeEncodeError /\ ~ synced (snd r))) /\
  (forall word current updated,
      word_data_get word (self w) = VStr current ->
      let r := edit_word (Some word) (Some updated) today w in
      word_data (self (snd r))
      = dict_set word (VStr updated) (word_data (self w)) /\
      (storable (VDict (word_data (self (snd r)))) = true ->
       synced (snd r)) /\
      (storable (VDict (word_data (self (snd r)))) = false ->
       fst r = Raise UnicodeEncodeError /\ ~ synced (snd r))) /\
  (forall word d,
      dict_del word (word_data (self w)) = Some d ->
      let r := delete_word (Some word) true w in
      word_data (self (snd r)) = d /\
      (storable (VDict d) = true -> fst r = Return tt /\ synced (snd r)) /\
      (storable (VDict d) = false ->
       fst r = Raise UnicodeEncodeError /\ ~ synced (snd r))) /\
  (forall answer dialog,
      let r := add_word answer dialog today w in
      fst r = Return tt -> synced (snd r) \/ snd r = w) /\
  (forall item dialog,
      let r := edit_word item dialog today w in
      fst r = Return tt -> synced (snd r) \/ snd r = w) /\
  (forall item confirm,
      let r := delete_word item confirm w in
      fst r = Return tt -> synced (snd r) \/ snd r = w) /\
  (forall w',
      synced w' ->
      plain false (VDict (word_data (self w'))) ->
      load_data (disk w') = (Return (VDict (word_data (self w'))), disk w')) /\
  (plain false (VDict (word_data (self w))) ->
   (forall answer dialog,
       plain false
         (VDict (word_data (self (snd (add_word answer dialog today w)))))) /\
   (forall item dialog,
       plain false
         (VDict (word_data (self (snd (edit_word item dialog today w)))))) /\
   (forall item confirm,
       plain false
         (VDict (word_data (self (snd (delete_word item confirm w))))))).
Proof.
  assert (forall word explanation,
             strip word <> [] ->
             let r := add_word (word, true) (Some explanation) today w in
             word_data (self (snd r))
             = dict_set word (VStr explanation) (word_data (self w)) /\
             (storable (VDict (word_data (self (snd r)))) = true ->
              synced (snd r)) /\
             (storable (VDict (word_data (self (snd r)))) = false ->
              fst r = Raise UnicodeEncodeError /\ ~ synced (snd r))) as Hadd.
  { intros word explanation Hword r.
    destruct (add_word_state word explanation today w Hword)
      as (Hdata & Hsaved & _ & _).
    fold r in Hdata, Hsaved.
    split; [exact Hdata|]. split; [intros Hs; now destruct (Hsaved Hs)|].
    intros Hs. rewrite Hdata in Hs. unfold r.
    rewrite (add_word_unsaved _ _ _ _ Hword Hs). cbv zeta.
    split; [reflexivity|]. now apply unsaved_not_synced. }
  assert (forall word current updated,
             word_data_get word (self w) = VStr current ->
             let r := edit_word (Some word) (Some updated) today w in
             word_data (self (snd r))
             = dict_set word (VStr updated) (word_data (self w)) /\
             (storable (VDict (word_data (self (snd r)))) = true ->
              synced (snd r)) /\
             (storable (VDict (word_data (self (snd r)))) = false ->
              fst r = Raise UnicodeEncodeError /\ ~ synced (snd r))) as Hedit.
  { intros word current updated Hcur r.
    destruct (edit_word_state word current updated today w Hcur)
      as (Hdata & Hsaved & Hfail).
    fold r in Hdata, Hsaved, Hfail.
    split; [exact Hdata|]. rewrite Hdata.
    split; [intros Hs; now destruct (Hsaved Hs)|].
    intros Hs. rewrite (Hfail Hs).
    split; [reflexivity|]. now apply unsaved_not_synced. }
  assert (forall word d,
             dict_del word (word_data (self w)) = Some d ->
             let r := delete_word (Some word) true w in
             word_data (self (snd r)) = d /\
             (storable (VDict d) = true ->
              fst r = Return tt /\ synced (snd r)) /\
             (storable (VDict d) = false ->
              fst r = Raise UnicodeEncodeError /\ ~ synced (snd r))) as Hdel.
  { intros word d Hd r. split; [now apply delete_word_data|]. split.
    - intros Hs. unfold r. rewrite (delete_word_run _ _ _ Hd Hs).
      split; reflexivity.
    - intros Hs. unfold r. rewrite (delete_word_unsaved _ _ _ Hd Hs).
      split; [reflexivity|].
      now apply (unsaved_not_synced (set_word_data d (self w))). }
  split; [exact Hadd|]. split; [exact Hedit|]. split; [exact Hdel|].
  split; [|split; [|split; [|split]]].
  - intros answer dialog r Hret.
    destruct (add_word_cases answer dialog today w)
      as [(word & explanation & -> & -> & Hword) | E];
      [left | right; unfold r; now rewrite E].
    destruct (Hadd word explanation Hword) as (_ & Hsaved & Hfail).
    fold r in Hsaved, Hfail.
    destruct (storable (VDict (word_data (self (snd r))))); auto.
    destruct (Hfail eq_refl) as [E _]. congruence.
  - intros item dialog r Hret.
    destruct (edit_word_cases item dialog today w)
      as [(word & current & updated & -> & -> & Hcur) | E]; [left|now right].
    destruct (Hedit word current updated Hcur) as (_ & Hsaved & Hfail).
    fold r in Hsaved, Hfail.
    destruct (storable (VDict (word_data (self (snd r))))); auto.
    destruct (Hfail eq_refl) as [E _]. congruence.
  - intros item confirm r Hret.
    destruct (delete_word_cases item confirm w)
      as [(word & d & -> & -> & Hd) | E]; [left|now right].
    destruct (Hdel word d Hd) as (_ & Hsaved & Hfail).
    fold r in Hsaved, Hfail.
    destruct (storable (VDict d)); [now apply Hsaved|].
    destruct (Hfail eq_refl) as [E _]. congruence.
  - exact load_data_synced.
  - intros Hplain. split; [|split].
    + intros answer dialog.
      destruct (add_word_cases answer dialog today w)
        as [(word & explanation & -> & -> & Hword) | ->]; [|exact Hplain].
      rewrite add_word_data by assumption.
      apply plain_dict_set; auto using str_ok_false.
      constructor. apply str_ok_false.
    + intros item dialog.
      destruct (edit_word_cases item dialog today w)
        as [(word & current & updated & -> & -> & Hcur) | ->];
        [|exact Hplain].
      rewrite (edit_word_data _ current) by assumption.
      apply plain_dict_set; auto using str_ok_false.
      constructor. apply str_ok_false.
    + intros item confirm.
      destruct (delete_word_cases item confirm w)
        as [(word & d & -> & -> & Hd) | ->]; [|exact Hplain].
      rewrite (delete_word_data _ _ _ Hd).
      eapply plain_dict_del; eassumption.
Qed.

(** ** The progress log *)

Lemma prior_log_NoDup (fs : FS) (log : dict value) :
  prior_log fs log -> NoDup (dict_keys log).
Proof.
  unfold prior_log. destruct (progress_log_json fs) as [text|].
  - apply loads_NoDup.
  - intros ->. constructor.
Qed.

(** What one call of [log_progress] on a usable log amounts to. *)
Lemma log_progress_effect (action other today : pystr) (fs : FS)
  (log : dict value) :
  is_action action -> is_action other -> other <> action ->
  prior_log fs log ->
  counter_ready action today log ->
  let log' := bump action today log in
  log_progress action today fs
  = (Return tt, mkFS (word_data_json fs) (Some (dumps true 2 (VDict log')))) /\
  counter action today log' = (counter action today log + 1)%Z /\
  (dict_get today log = None ->
   dict_get today log'
   = Some (VDict (dict_set action (VInt 1)
                    [(str "added", VInt 0); (str "viewed", VInt 0)]))) /\
  (forall date, date <> today -> dict_get date log' = dict_get date log) /\
  (forall date, counter other date log' = counter other date log) /\
  (forall lines ta tv,
      ProgressDialog (VDict log) fs = (Return (lines, ta, tv), fs) ->
      exists lines',
        ProgressDialog (VDict log') fs
        = (Return (lines', ta + delta action (str "added"),
                   tv + delta action (str "viewed"))%Z, fs)) /\
  (plain true (VDict log) -> is_ascii today ->
   forall lines ta tv,
     ProgressDialog (VDict log) fs = (Return (lines, ta, tv), fs) ->
     exists lines',
       show_progress (snd (log_progress action today fs))
       = (Return (Some (lines', ta + delta action (str "added"),
                        tv + delta action (str "viewed"))%Z),
          snd (log_progress action today fs))).
Proof.
  intros Ha Ho Hne Hprior Hready log'.
  assert (forall lines ta tv,
             ProgressDialog (VDict log) fs = (Return (lines, ta, tv), fs) ->
             exists lines',
               ProgressDialog (VDict log') fs
               = (Return (lines', ta + delta action (str "added"),
                          tv + delta action (str "viewed"))%Z, fs)) as Htot.
  { intros lines ta tv H.
    apply (ProgressDialog_bump action today log fs lines ta tv); auto.
    eapply prior_log_NoDup, Hprior. }
  repeat split.
  - now rewrite (log_progress_bump _ _ _ log).
  - apply counter_bump.
  - intros E. unfold log'. rewrite bump_today, day_of_bump.
    unfold counter, day_of. rewrite E.
    now rewrite (new_day_counts action Ha).
  - intros date Hd. now apply bump_other_date.
  - intros date. now apply counter_bump_other.
  - exact Htot.
  - intros Hplain Htoday lines ta tv H.
    destruct (Htot lines ta tv H) as [lines' H'].
    exists lines'. rewrite (log_progress_bump _ _ _ log) by assumption.
    cbn [snd write]. fold log'.
    apply (show_progress_written _ _ fs); auto.
    apply plain_bump; auto using str_ok_ascii.
Qed.

Lemma added_is_not_viewed : str "viewed" <> str "added".
Proof. discriminate. Qed.

(** C3. Whatever log the progress file holds, [log_progress("added")]
    returns when today's entry, if there is one, counts "added" with an
    integer; it raises today's "added" by one (from a fresh entry with
    both counters at 0 when the day has none) and the total of "added"
    by one, keeps every "viewed" counter, their total and the entries of
    the other days, and writes the whole log to the progress file, from
    which [show_progress] then reads the raised total (for a log that
    holds text and no float); [log_progress("viewed")] does the same
    with the two counters exchanged. *)
Theorem log_progress_counts (today : pystr) (fs : FS) (log : dict value) :
  prior_log fs log ->
  (counter_ready (str "added") today log ->
   let log' := bump (str "added") today log in
   log_progress (str "added") today fs
   = (Return tt,
      mkFS (word_data_json fs) (Some (dumps true 2 (VDict log')))) /\
   counter (str "added") today log'
   = (counter (str "added") today log + 1)%Z /\
   (dict_get today log = None ->
    dict_get today log'
    = Some (VDict [(str "added", VInt 1); (str "viewed", VInt 0)])) /\
   (forall date, date <> today -> dict_get date log' = dict_get date log) /\
   (forall date,
       counter (str "viewed") date log' = counter (str "viewed") date log) /\
   (forall lines ta tv,
       ProgressDialog (VDict log) fs = (Return (lines, ta, tv), fs) ->
       exists lines',
         ProgressDialog (VDict log') fs
         = (Return (lines', ta + 1, tv)%Z, fs)) /\
   (plain true (VDict log) -> is_ascii today ->
    forall lines ta tv,
      ProgressDialog (VDict log) fs = (Return (lines, ta, tv), fs) ->
      exists lines',
        show_progress (snd (log_progress (str "added") today fs))
        = (Return (Some (lines', ta + 1, tv)%Z),
           snd (log_progress (str "added") today fs)))) /\
  (counter_ready (str "viewed") today log ->
   let log' := bump (str "viewed") today log in
   log_progress (str "viewed") today fs
   = (Return tt,
      mkFS (word_data_json fs) (Some (dumps true 2 (VDict log')))) /\
   counter (str "viewed") today log'
   = (counter (str "viewed") today log + 1)%Z /\
   (dict_get today log = None ->
    dict_get today log'
    = Some (VDict [(str "added", VInt 0); (str "viewed", VInt 1)])) /\
   (forall date, date <> today -> dict_get date log' = dict_get date log) /\
   (forall date,
       counter (str "added") date log' = counter (str "added") date log) /\
   (forall lines ta tv,
       ProgressDialog (VDict log) fs = (Return (lines, ta, tv), fs) ->
       exists lines',
         ProgressDialog (VDict log') fs
         = (Return (lines', ta, tv + 1)%Z, fs)) /\
   (plain true (VDict log) -> is_ascii today ->
    forall lines ta tv,
      ProgressDialog (VDict log) fs = (Return (lines, ta, tv), fs) ->
      exists lines',
        show_progress (snd (log_progress (str "viewed") today fs))
        = (Return (Some (lines', ta, tv + 1)%Z),
           snd (log_progress (str "viewed") today fs)))).
Proof.
  intros Hprior. split; intros Hready log'.
  - destruct (log_progress_effect (str "added") (str "viewed") today fs log)
      as (H1 & H2 & H3 & H4 & H5 & H6 & H7);
      auto using added_is_not_viewed; try (now left); try (now right).
    change (delta (str "added") (str "added")) with 1%Z in H6, H7.
    change (delta (str "added") (str "viewed")) with 0%Z in H6, H7.
    repeat split; auto.
    + intros lines ta tv H. destruct (H6 lines ta tv H) as [lines' H'].
      exists lines'. unfold log'. rewrite H'. now rewrite Z.add_0_r.
    + intros Hplain Htoday lines ta tv H.
      destruct (H7 Hplain Htoday lines ta tv H) as [lines' H'].
      exists lines'. rewrite H'. now rewrite Z.add_0_r.
  - destruct (log_progress_effect (str "viewed") (str "added") today fs log)
      as (H1 & H2 & H3 & H4 & H5 & H6 & H7);
      auto; try (now left); try (now right);
      try (intros H; now apply added_is_not_viewed).
    change (delta (str "viewed") (str "added")) with 0%Z in H6, H7.
    change (delta (str "viewed") (str "viewed")) with 1%Z in H6, H7.
    repeat split; auto.
    + intros lines ta tv H. destruct (H6 lines ta tv H) as [lines' H'].
      exists lines'. unfold log'. rewrite H'. now rewrite Z.add_0_r.
    + intros Hplain Htoday lines ta tv H.
      destruct (H7 Hplain Htoday lines ta tv H) as [lines' H'].
      exists lines'. rewrite H'. now rewrite Z.add_0_r.
Qed.


(** ** Filtering *)

Lemma filter_words_run (text : pystr) (w : world) :
  filter_words text w =
  (Return tt,
   mkWorld
     (set_word_list
        (filter (fun word => str_in (lower text) (lower word))
           (sorted (dict_keys (word_data (self w))))) (self w))
     (disk w)).
Proof. reflexivity. Qed.

Lemma filter_all {A : Type} (f : A -> bool) (l : list A) :
  (forall x, In x l -> f x = true) -> filter f l = l.
Proof.
  induction l as [|x l IH]; simpl; intros H; auto.
  rewrite (H x) by now left. f_equal. apply IH. intros y Hy. apply H.
  now right.
Qed.

(** C5. With an empty search text [filter_words] shows what
    [refresh_word_list] shows. For every search text it shows exactly the
    words of the mapping whose lower-cased form contains the lower-cased
    text, in ascending order and each once; on ["apple", "Banana",
    "cherry"] the text ["an"] leaves ["Banana"]. The assumption is that
    [str.lower] lower-cases the ASCII letters of an ASCII string and
    nothing else in it. *)
Theorem filter_words_shows (w : world) :
  (forall s, is_ascii s -> lower s = ascii_lower s) ->
  filter_words [] w = refresh_word_list w /\
  (forall text,
      let shown := word_list (self (snd (filter_words text w))) in
      fst (filter_words text w) = Return tt /\
      (forall word,
          In word shown <->
          In word (dict_keys (word_data (self w))) /\
          exists pre post, lower word = pre ++ lower text ++ post) /\
      ascending shown /\
      (NoDup (dict_keys (word_data (self w))) -> NoDup shown)) /\
  (dict_keys (word_data (self w))
   = [str "apple"; str "Banana"; str "cherry"] ->
   word_list (self (snd (filter_words (str "an") w))) = [str "Banana"]).
Proof.
  intros Hlower. split; [|split].
  - rewrite filter_words_run. unfold refresh_word_list, on_self, modify.
    rewrite (Hlower []) by constructor. simpl ascii_lower.
    rewrite filter_all; [reflexivity|]. intros x _. apply str_in_empty.
  - intros text shown. unfold shown. rewrite filter_words_run.
    cbn [fst snd self word_list set_word_list]. repeat split.
    + apply filter_In in H. apply sorted_In, H.
    + apply filter_In in H. apply str_in_occurs, H.
    + intros [Hin Hocc]. apply filter_In. split.
      * now apply sorted_In.
      * now apply str_in_occurs.
    + apply filter_ascending, sorted_ascending.
    + intros Hnd. apply NoDup_filter. now apply sorted_NoDup.
  - intros Hkeys. rewrite filter_words_run.
    cbn [snd self word_list set_word_list]. rewrite Hkeys.
    rewrite (Hlower (str "an")) by (repeat constructor).
    assert (sorted [str "apple"; str "Banana"; str "cherry"]
            = [str "Banana"; str "apple"; str "cherry"]) as ->
        by reflexivity.
    simpl filter.
    rewrite (Hlower (str "Banana")), (Hlower (str "apple")),
      (Hlower (str "cherry")) by (repeat constructor).
    reflexivity.
Qed.

(** ** Loading the word data *)

(** C8, as the code has it. [load_data] never writes. Without a
    word-data file it returns the empty mapping. With one it raises
    [JSONDecodeError] exactly when the text is not JSON, and otherwise
    returns the parsed document whatever its shape: nothing checks that
    it is a mapping of words to strings. What [save_data] wrote is read
    back as it was (a document that can be written, without floats and
    repeated keys). *)
Theorem load_data_cases (fs : FS) :
  snd (load_data fs) = fs /\
  (word_data_json fs = None -> fst (load_data fs) = Return (VDict [])) /\
  (forall text,
      word_data_json fs = Some text ->
      (loads text = None <-> fst (load_data fs) = Raise JSONDecodeError) /\
      (forall v, loads text = Some v <-> fst (load_data fs) = Return v)) /\
  (forall data,
      storable data = true ->
      plain false data ->
      load_data (snd (save_data data fs))
      = (Return data, snd (save_data data fs))).
Proof.
  assert (forall data,
             storable data = true ->
             plain false data ->
             load_data (snd (save_data data fs))
             = (Return data, snd (save_data data fs))) as Hback.
  { intros data Hs Hplain. rewrite (save_data_storable _ _ Hs).
    unfold load_data, bind, path_exists, json_load, read, write.
    cbn [snd word_data_json]. now rewrite loads_dumps. }
  cut (snd (load_data fs) = fs /\
       (word_data_json fs = None -> fst (load_data fs) = Return (VDict [])) /\
       (forall text,
           word_data_json fs = Some text ->
           (loads text = None <-> fst (load_data fs) = Raise JSONDecodeError) /\
           (forall v, loads text = Some v <-> fst (load_data fs) = Return v))).
  { intros (H1 & H2 & H3). repeat split; auto; now apply H3. }
  clear Hback.
  unfold load_data, bind, path_exists, json_load, read, ret.
  destruct (word_data_json fs) as [text|] eqn:F; simpl; rewrite ?F.
  - destruct (loads text) as [v|] eqn:E; simpl;
      (split; [reflexivity|]); (split; [discriminate|]);
      intros text0 [= <-]; rewrite E.
    + split; [split; discriminate|].
      intros v0. split; intros [= ->]; reflexivity.
    + split; [split; reflexivity|].
      intros v0. split; discriminate.
  - split; [reflexivity|]. split; [reflexivity|]. discriminate.
Qed.

(** ** The format of the two files *)

Local Open Scope N_scope.

Lemma escape_char_verbatim (c : N) :
  32 <= c -> c <> 34 -> c <> 92 -> escape_char false c = [c].
Proof.
  intros H32 H34 H92. unfold escape_char.
  repeat match goal with
         | |- context [N.eqb c ?k] =>
           destruct (N.eqb_spec c k); [lia|]
         end.
  destruct (N.ltb_spec c 32); [lia|]. reflexivity.
Qed.

Lemma encode_basestring_verbatim (s : pystr) :
  Forall (fun c => 32 <= c /\ c <> 34 /\ c <> 92) s ->
  encode_basestring false s = 34 :: s ++ [34].
Proof.
  intros H. unfold encode_basestring. do 2 f_equal.
  induction H as [|c s (H32 & H34 & H92) _ IH]; simpl; auto.
  now rewrite escape_char_verbatim, IH.
Qed.

Lemma dumps_dict_head (ensure_ascii : bool) (indent : nat) (k : pystr)
  (v : value) (d : list (pystr * value)) :
  exists rest,
    dumps ensure_ascii indent (VDict ((k, v) :: d))
    = 123 :: 10 :: repeat 32 indent
      ++ encode_basestring ensure_ascii k ++ 58 :: 32 :: rest.
Proof.
  unfold dumps. cbn [iterencode]. unfold newline_indent at 1.
  rewrite Nat.mul_1_r.
  destruct d as [|kv d]; cbn [map join app fst snd];
    eexists; rewrite <- !List.app_assoc; cbn [app]; reflexivity.
Qed.

Local Close Scope N_scope.

(** A computation that leaves the files as they are. *)
Definition reads_only {A : Type} (m : M FS A) : Prop :=
  forall fs, snd (m fs) = fs.

Lemma reads_ret {A : Type} (a : A) : reads_only (ret a).
Proof. intros fs. reflexivity. Qed.

Lemma reads_raise {A : Type} (e : exn) : reads_only (@raise FS A e).
Proof. intros fs. reflexivity. Qed.

Lemma reads_unmodelled {A : Type} : reads_only (@unmodelled FS A).
Proof. intros fs. reflexivity. Qed.

Lemma reads_bind {A B : Type} (m : M FS A) (k : A -> M FS B) :
  reads_only m -> (forall a, reads_only (k a)) -> reads_only (bind m k).
Proof.
  intros Hm Hk fs. unfold bind. specialize (Hm fs).
  destruct (m fs) as [[a|e|] fs1]; simpl in Hm; subst; auto. apply Hk.
Qed.

Lemma reads_path_exists (p : path) : reads_only (path_exists p).
Proof. intros fs. reflexivity. Qed.

Lemma reads_json_load (p : path) : reads_only (json_load p).
Proof.
  intros fs. unfold json_load. destruct (read p fs) as [text|]; auto.
  destruct (loads text); auto.
Qed.

Lemma reads_update_from (log : dict value) (other : value) :
  reads_only (update_from log other).
Proof.
  destruct other as [| | | |[|]|[|]|]; simpl;
    auto using reads_ret, @reads_raise, @reads_unmodelled.
Qed.

Lemma reads_add1 (v : value) : reads_only (add1 v).
Proof. destruct v; simpl; auto using reads_ret, @reads_raise. Qed.

Lemma reads_increment (log : dict value) (today action : pystr) :
  reads_only (increment log today action).
Proof.
  unfold increment.
  destruct (match dict_get today log with
            | Some entry => (entry, log)
            | None => (new_day, dict_set today new_day log)
            end) as [entry log'].
  destruct entry; auto using @reads_raise.
  destruct (dict_get action d); auto using @reads_raise.
  apply reads_bind; auto using reads_add1, reads_ret.
Qed.

Lemma reads_load_data : reads_only load_data.
Proof.
  unfold load_data. apply reads_bind; [apply reads_path_exists|].
  intros [|]; [apply reads_json_load | apply reads_ret].
Qed.

Lemma bind_Return {S A B : Type} (m : M S A) (k : A -> M S B) (s s' : S)
  (b : B) :
  bind m k s = (Return b, s') ->
  exists a s1, m s = (Return a, s1) /\ k a s1 = (Return b, s').
Proof.
  unfold bind. destruct (m s) as [[a|e|] s1]; try discriminate.
  intros H. now exists a, s1.
Qed.

Lemma log_progress_writes (action today : pystr) (fs : FS) :
  fst (log_progress action today fs) = Return tt ->
  exists log,
    snd (log_progress action today fs)
    = write PROGRESS_FILE (dumps true 2 (VDict log)) fs.
Proof.
  destruct (log_progress action today fs) as [o fs'] eqn:E.
  cbn [fst snd]. intros ->. unfold log_progress in E.
  apply bind_Return in E as (e & fs1 & E1 & E).
  pose proof (reads_path_exists PROGRESS_FILE fs) as R1.
  rewrite E1 in R1. cbn [snd] in R1. subst fs1.
  apply bind_Return in E as (log & fs2 & E2 & E).
  assert (fs2 = fs) as ->.
  { assert (reads_only
              (if e
               then bind (json_load PROGRESS_FILE)
                      (fun other => update_from [] other)
               else ret [])) as R2.
    { destruct e; [|apply reads_ret].
      apply reads_bind; [apply reads_json_load|].
      intros other. apply reads_update_from. }
    specialize (R2 fs). rewrite E2 in R2. exact R2. }
  apply bind_Return in E as (log' & fs3 & E3 & E).
  pose proof (reads_increment
                (if negb (dict_contains today log)
                 then dict_set today new_day log else log)
                today action fs) as R3.
  rewrite E3 in R3. cbn [snd] in R3. subst fs3.
  rewrite json_dump_ascii in E. injection E as <-.
  now exists log'.
Qed.

(** C9, as the code has it. [save_data] writes the mapping with
    [ensure_ascii=False] and an indent of 4, [log_progress] writes the
    log with the default [ensure_ascii] and an indent of 2. Either way a
    non-empty mapping starts with its brace, a line break, the indent and
    the first key. Without [ensure_ascii] a string free of control
    characters, quotes and backslashes is written as it is, non-ASCII
    characters included; with it the encoded string is ASCII only.
    Neither text loses anything: [json.load] reads the document back as
    it was (text, no float, no repeated key). Writing without
    [ensure_ascii] has its price: a mapping with a surrogate in one of
    its strings cannot be encoded, [save_data] then raises
    [UnicodeEncodeError] and leaves the beginning of the text in the
    file. *)
Theorem dump_formats :
  (forall data fs,
      storable data = true ->
      save_data data fs
      = (Return tt, write DATA_FILE (dumps false 4 data) fs)) /\
  (forall data fs,
      storable data = false ->
      save_data data fs
      = (Raise UnicodeEncodeError,
         write DATA_FILE (written false 4 data) fs) /\
      written false 4 data <> dumps false 4 data /\
      exists rest, dumps false 4 data = written false 4 data ++ rest) /\
  (forall action today fs,
      fst (log_progress action today fs) = Return tt ->
      exists log,
        snd (log_progress action today fs)
        = write PROGRESS_FILE (dumps true 2 (VDict log)) fs) /\
  (forall ensure_ascii indent k v d,
      exists rest,
        dumps ensure_ascii indent (VDict ((k, v) :: d))
        = 123%N :: 10%N :: repeat 32%N indent
          ++ encode_basestring ensure_ascii k ++ 58%N :: 32%N :: rest) /\
  (forall s,
      Forall (fun c => (32 <= c)%N /\ c <> 34%N /\ c <> 92%N) s ->
      encode_basestring false s = 34%N :: s ++ [34%N]) /\
  (forall s, is_ascii (encode_basestring true s)) /\
  (forall ensure_ascii indent v,
      plain ensure_ascii v ->
      loads (dumps ensure_ascii indent v) = Some v).
Proof.
  split; [exact save_data_storable|].
  split.
  { intros data fs Hs. split; [now apply save_data_unstorable|].
    split; [now apply written_not_dumps | apply written_prefix]. }
  split; [exact log_progress_writes|].
  split; [exact dumps_dict_head|].
  split; [exact encode_basestring_verbatim|].
  split; [exact encode_basestring_ascii | exact loads_dumps].
Qed.

(** * Further properties of the handlers *)

(** ** Showing a word *)

Lemma display_explanation_run (word md today : pystr) (w : world) :
  word_data_get word (self w) = VStr md ->
  display_explanation word today w =
  (fst (log_progress (str "viewed") today (disk w)),
   mkWorld (set_text_browser (Html md (dark_mode (self w))) (self w))
     (snd (log_progress (str "viewed") today (disk w)))).
Proof.
  intros H. unfold display_explanation, bind at 1, get at 1. rewrite H.
  unfold bind, on_self, on_disk, modify. simpl.
  destruct (log_progress _ _ _) as [[[]|e|] fs']; reflexivity.
Qed.

Lemma display_explanation_not_str (word today : pystr) (w : world) :
  (forall md, word_data_get word (self w) <> VStr md) ->
  display_explanation word today w = (Raise AttributeError, w).
Proof.
  intros H. unfold display_explanation, bind at 1, get at 1.
  destruct (word_data_get word (self w)) eqn:E; try reflexivity.
  now destruct (H s).
Qed.

Lemma display_explanation_cases (word today : pystr) (w : world) :
  (exists md, word_data_get word (self w) = VStr md) \/
  display_explanation word today w = (Raise AttributeError, w).
Proof.
  destruct (word_data_get word (self w)) eqn:E;
    try (right; apply display_explanation_not_str; rewrite E; discriminate).
  left. now exists s.
Qed.

(** What [display_explanation] leaves alone, however it ends. *)
Lemma display_explanation_keeps (word today : pystr) (w : world) :
  let w' := snd (display_explanation word today w) in
  word_data (self w') = word_data (self w) /\
  word_list (self w') = word_list (self w) /\
  dark_mode (self w') = dark_mode (self w) /\
  word_data_json (disk w') = word_data_json (disk w).
Proof.
  destruct (display_explanation_cases word today w) as [[md H] | ->].
  - rewrite (display_explanation_run _ _ _ _ H). cbn [snd self disk].
    repeat split. apply log_progress_data_file.
  - repeat split.
Qed.

(** X1. [display_explanation] shows the explanation stored for the word in
    the current mode, the empty text for a word the mapping does not hold,
    and logs one "viewed"; it never changes the mapping, the list, the
    mode or the word-data file. An explanation that is not a string makes
    it fail before anything is shown or logged. The Return and Enter keys
    of the list do the same on the current item; any other key, or no
    current item, changes nothing. *)
Theorem display_explanation_effect (word today : pystr) (w : world) :
  let r := display_explanation word today w in
  (word_data (self (snd r)) = word_data (self w) /\
   word_list (self (snd r)) = word_list (self w) /\
   dark_mode (self (snd r)) = dark_mode (self w) /\
   word_data_json (disk (snd r)) = word_data_json (disk w)) /\
  (forall md,
      word_data_get word (self w) = VStr md ->
      text_browser (self (snd r)) = Html md (dark_mode (self w)) /\
      fst r = fst (log_progress (str "viewed") today (disk w)) /\
      disk (snd r) = snd (log_progress (str "viewed") today (disk w))) /\
  (~ In word (dict_keys (word_data (self w))) ->
   text_browser (self (snd r)) = Html [] (dark_mode (self w))) /\
  (forall md log,
      word_data_get word (self w) = VStr md ->
      prior_log (disk w) log ->
      counter_ready (str "viewed") today log ->
      fst r = Return tt /\
      progress_log_json (disk (snd r))
      = Some (dumps true 2 (VDict (bump (str "viewed") today log)))) /\
  ((forall md, word_data_get word (self w) <> VStr md) ->
   r = (Raise AttributeError, w)) /\
  handle_key_press Key_Return (Some word) today w = r /\
  handle_key_press Key_Enter (Some word) today w = r /\
  (forall item, handle_key_press Key_other item today w = (Return tt, w)) /\
  (forall event, handle_key_press event None today w = (Return tt, w)).
Proof.
  intros r. split; [apply display_explanation_keeps|].
  split; [|split; [|split; [|split]]].
  - intros md H. unfold r. rewrite (display_explanation_run _ _ _ _ H).
    repeat split.
  - intros Hin. apply dict_get_None in Hin.
    assert (word_data_get word (self w) = VStr []) as H.
    { unfold word_data_get. now rewrite Hin. }
    unfold r. now rewrite (display_explanation_run _ _ _ _ H).
  - intros md log H Hprior Hready. unfold r.
    rewrite (display_explanation_run _ _ _ _ H).
    rewrite (log_progress_bump _ _ _ log) by (auto; now right).
    split; reflexivity.
  - apply display_explanation_not_str.
  - repeat split. now intros [| |].
Qed.

(** ** Dark mode *)

Lemma toggle_dark_mode_run (item : option pystr) (today : pystr) (w : world) :
  toggle_dark_mode item today w =
  let w1 := mkWorld (set_dark_mode (negb (dark_mode (self w))) (self w))
              (disk w) in
  match item with
  | Some word => display_explanation word today w1
  | None => (Return tt, w1)
  end.
Proof. destruct item; reflexivity. Qed.

Lemma toggle_dark_mode_keeps (item : option pystr) (today : pystr)
  (w : world) :
  let w' := snd (toggle_dark_mode item today w) in
  dark_mode (self w') = negb (dark_mode (self w)) /\
  word_data (self w') = word_data (self w) /\
  word_list (self w') = word_list (self w) /\
  word_data_json (disk w') = word_data_json (disk w).
Proof.
  rewrite toggle_dark_mode_run. cbv zeta.
  destruct item as [word|]; [|repeat split].
  destruct (display_explanation_keeps word today
              (mkWorld (set_dark_mode (negb (dark_mode (self w))) (self w))
                 (disk w))) as (H1 & H2 & H3 & H4).
  rewrite H1, H2, H3, H4. repeat split.
Qed.

(** X2. [toggle_dark_mode] flips the mode and keeps the mapping, the list
    and the word-data file, however it ends. Without a current item it
    does nothing else, so that a second call undoes the first. With a
    current item it shows that word again in the new mode, which logs one
    more "viewed". *)
Theorem toggle_dark_mode_effect (item : option pystr) (today : pystr)
  (w : world) :
  let r := toggle_dark_mode item today w in
  (dark_mode (self (snd r)) = negb (dark_mode (self w)) /\
   word_data (self (snd r)) = word_data (self w) /\
   word_list (self (snd r)) = word_list (self w) /\
   word_data_json (disk (snd r)) = word_data_json (disk w)) /\
  (item = None ->
   fst r = Return tt /\
   text_browser (self (snd r)) = text_browser (self w) /\
   disk (snd r) = disk w /\
   forall today', toggle_dark_mode None today' (snd r) = (Return tt, w)) /\
  (forall word md log,
      item = Some word ->
      word_data_get word (self w) = VStr md ->
      prior_log (disk w) log ->
      counter_ready (str "viewed") today log ->
      fst r = Return tt /\
      text_browser (self (snd r)) = Html md (negb (dark_mode (self w))) /\
      progress_log_json (disk (snd r))
      = Some (dumps true 2 (VDict (bump (str "viewed") today log)))).
Proof.
  intros r. split; [apply toggle_dark_mode_keeps|]. unfold r. split.
  - intros ->. repeat split. intros today'. rewrite !toggle_dark_mode_run.
    cbv zeta. cbn [snd self disk dark_mode set_dark_mode].
    rewrite negb_involutive. now destruct w as [[d m l b] fs].
  - intros word md log -> H Hprior Hready. rewrite toggle_dark_mode_run.
    cbv zeta.
    rewrite (display_explanation_run word md) by exact H.
    cbn [disk self dark_mode set_dark_mode].
    rewrite (log_progress_bump _ _ _ log) by (auto; now right).
    repeat split.
Qed.

(** ** Mappings that can be written *)

Lemma storable_Forall (d : dict value) :
  storable (VDict d) = true <->
  Forall (fun kv => encodable (fst kv) = true /\ storable (snd kv) = true) d.
Proof.
  cbn [storable]. rewrite forallb_forall, Forall_forall.
  split; intros H kv Hin; specialize (H kv Hin).
  - now apply andb_true_iff.
  - now apply andb_true_iff.
Qed.

Lemma storable_dict_set (k : pystr) (v : value) (d : dict value) :
  storable (VDict d) = true -> encodable k = true -> storable v = true ->
  storable (VDict (dict_set k v d)) = true.
Proof.
  rewrite !storable_Forall. intros Hd Hk Hv.
  apply dict_set_Forall; auto.
Qed.

Lemma storable_dict_del (k : pystr) (d d' : dict value) :
  dict_del k d = Some d' -> storable (VDict d) = true ->
  storable (VDict d') = true.
Proof.
  rewrite !storable_Forall. intros Hdel Hd.
  eapply dict_del_Forall; eassumption.
Qed.

(** ** Deleting a word *)

Lemma dict_del_Some {A : Type} (k : pystr) (d : dict A) :
  In k (dict_keys d) -> exists d', dict_del k d = Some d'.
Proof.
  intros Hin. destruct (dict_del k d) as [d'|] eqn:E; [now exists d'|].
  apply dict_del_None in E. contradiction.
Qed.

Lemma delete_word_KeyError (word : pystr) (w : world) :
  ~ In word (dict_keys (word_data (self w))) ->
  delete_word (Some word) true w = (Raise KeyError, w).
Proof.
  intros Hin. apply dict_del_None in Hin.
  unfold delete_word, bind at 1, get at 1. now rewrite Hin.
Qed.

(** X3. [delete_word] on a word of a mapping that can be written (none
    of its strings holds a surrogate) returns; the mapping then holds no
    entry for the word and the entries of the other words as they were,
    the word-data file holds the remaining mapping, the list shows the
    remaining words in ascending order, the explanation pane is empty,
    and nothing is logged: the mode and the progress file are as
    before. *)
Theorem delete_word_removes (word : pystr) (w : world) :
  NoDup (dict_keys (word_data (self w))) ->
  In word (dict_keys (word_data (self w))) ->
  storable (VDict (word_data (self w))) = true ->
  let r := delete_word (Some word) true w in
  fst r = Return tt /\
  dict_get word (word_data (self (snd r))) = None /\
  (forall other,
      other <> word ->
      dict_get other (word_data (self (snd r)))
      = dict_get other (word_data (self w))) /\
  synced (snd r) /\
  word_list (self (snd r)) = sorted (dict_keys (word_data (self (snd r)))) /\
  (forall other,
      In other (word_list (self (snd r))) <->
      other <> word /\ In other (dict_keys (word_data (self w)))) /\
  text_browser (self (snd r)) = Blank /\
  dark_mode (self (snd r)) = dark_mode (self w) /\
  progress_log_json (disk (snd r)) = progress_log_json (disk w).
Proof.
  intros Hnd Hin Hs r. destruct (dict_del_Some _ _ Hin) as [d Hdel].
  pose proof (storable_dict_del _ _ _ Hdel Hs) as Hs'.
  unfold r. rewrite (delete_word_run _ _ _ Hdel Hs'). unfold synced.
  cbn [fst snd self disk word_data word_list text_browser dark_mode
       set_text_browser set_word_list set_word_data write progress_log_json
       word_data_json].
  destruct (dict_del_NoDup _ _ _ Hdel Hnd) as [Hnd' Hout].
  destruct (dict_del_keys _ _ _ Hdel) as (l1 & l2 & H1 & H2).
  split; [reflexivity|]. split; [now apply dict_get_None|].
  split; [|split; [reflexivity|split; [reflexivity|split; [|repeat split]]]].
  - intros other Hne. apply (dict_del_get_ne _ _ _ _ Hdel). congruence.
  - intros other. rewrite sorted_In, H1, H2, !in_app_iff. simpl.
    split.
    + intros H. split; [|tauto]. intros ->. apply Hout. rewrite H2.
      now apply in_or_app.
    + intros [Hne [H | [H | H]]]; auto. congruence.
Qed.


(** ** The list shows words of the mapping *)

Lemma dict_keys_set_incl {A : Type} (k : pystr) (v : A) (d : dict A) :
  incl (dict_keys d) (dict_keys (dict_set k v d)).
Proof.
  rewrite dict_keys_set. destruct (dict_contains k d).
  - apply incl_refl.
  - apply incl_appl, incl_refl.
Qed.

Lemma dict_keys_set_present {A : Type} (k : pystr) (v : A) (d : dict A) :
  In k (dict_keys d) -> dict_keys (dict_set k v d) = dict_keys d.
Proof.
  intros Hin. rewrite dict_keys_set.
  now rewrite (proj2 (dict_contains_In k d) Hin).
Qed.

Lemma sorted_incl (l : list pystr) : incl (sorted l) l.
Proof. intros x. apply sorted_In. Qed.

(** The list after [add_word]: refreshed, or as it was. *)
Lemma add_word_list (word explanation today : pystr) (w : world) :
  strip word <> [] ->
  let w' := snd (add_word (word, true) (Some explanation) today w) in
  word_list (self w') = sorted (dict_keys (word_data (self w'))) \/
  word_list (self w') = word_list (self w).
Proof.
  intros Hword. rewrite add_word_steps by assumption. cbv zeta.
  destruct (storable _); [destruct (fst _)|]; auto.
Qed.

Lemma edit_word_list (word current updated today : pystr) (w : world) :
  word_data_get word (self w) = VStr current ->
  word_list (self (snd (edit_word (Some word) (Some updated) today w)))
  = word_list (self w).
Proof.
  intros Hcur. rewrite (edit_word_steps _ _ _ _ _ Hcur). cbv zeta.
  destruct (storable _); reflexivity.
Qed.

Lemma add_word_listed (answer : pystr * bool) (dialog : option pystr)
  (today : pystr) (w : world) :
  listed w -> listed (snd (add_word answer dialog today w)).
Proof.
  intros Hl.
  destruct (add_word_cases answer dialog today w)
    as [(word & explanation & -> & -> & Hword) | ->]; [|exact Hl].
  unfold listed.
  destruct (add_word_list word explanation today w Hword) as [-> | ->].
  - apply sorted_incl.
  - rewrite add_word_data by assumption.
    eapply incl_tran; [exact Hl | apply dict_keys_set_incl].
Qed.

Lemma edit_word_listed (item dialog : option pystr) (today : pystr)
  (w : world) :
  listed w -> listed (snd (edit_word item dialog today w)).
Proof.
  intros Hl.
  destruct (edit_word_cases item dialog today w)
    as [(word & current & updated & -> & -> & Hcur) | ->]; [|exact Hl].
  unfold listed.
  rewrite (edit_word_list _ current), (edit_word_data _ current)
    by assumption.
  eapply incl_tran; [exact Hl | apply dict_keys_set_incl].
Qed.

Lemma delete_word_listed (item : option pystr) (confirm : bool) (w : world) :
  listed w ->
  fst (delete_word item confirm w) <> Raise UnicodeEncodeError ->
  listed (snd (delete_word item confirm w)).
Proof.
  intros Hl.
  destruct (delete_word_cases item confirm w)
    as [(word & d & -> & -> & Hd) | ->]; [|intros _; exact Hl].
  rewrite (delete_word_steps _ _ _ Hd). cbv zeta.
  destruct (storable (VDict d)); cbn [fst snd].
  - intros _. apply sorted_incl.
  - congruence.
Qed.

Lemma display_explanation_listed (word today : pystr) (w : world) :
  listed w -> listed (snd (display_explanation word today w)).
Proof.
  intros Hl. unfold listed.
  destruct (display_explanation_keeps word today w) as (-> & -> & _).
  exact Hl.
Qed.

(** X5. That every item of the list is a word of the mapping holds when
    the application starts and is kept by the handlers, however they
    end: [add_word], [edit_word], [display_explanation],
    [handle_key_press], [toggle_dark_mode], [filter_words] and
    [refresh_word_list]. [delete_word] keeps it unless [save_data] fails
    in it with [UnicodeEncodeError]: the deleted word is then still in
    the list. *)
Theorem handlers_keep_listed (w : world) (today : pystr) :
  (forall fs a,
      fst (DictionaryApp_init fs) = Return a -> listed (mkWorld a fs)) /\
  (listed w ->
   (forall answer dialog, listed (snd (add_word answer dialog today w))) /\
   (forall item dialog, listed (snd (edit_word item dialog today w))) /\
   (forall item confirm,
       fst (delete_word item confirm w) <> Raise UnicodeEncodeError ->
       listed (snd (delete_word item confirm w))) /\
   (forall word,
       NoDup (dict_keys (word_data (self w))) ->
       fst (delete_word (Some word) true w) = Raise UnicodeEncodeError ->
       In word (word_list (self w)) ->
       ~ listed (snd (delete_word (Some word) true w))) /\
   (forall word, listed (snd (display_explanation word today w))) /\
   (forall event item, listed (snd (handle_key_press event item today w))) /\
   (forall item, listed (snd (toggle_dark_mode item today w)))) /\
  (forall text, listed (snd (filter_words text w))) /\
  listed (snd (refresh_word_list w)).
Proof.
  split; [|split; [|split]].
  - intros fs a. destruct (DictionaryApp_init fs) as [o fs'] eqn:E.
    cbn [fst]. intros ->. revert E.
    unfold DictionaryApp_init, bind.
    destruct (load_data fs) as [[[]|e|] fs1]; try discriminate.
    intros [= <- _]. apply sorted_incl.
  - intros Hl.
    split; [intros; now apply add_word_listed|].
    split; [intros; now apply edit_word_listed|].
    split; [intros; now apply delete_word_listed|].
    split.
    { intros word Hnd Hfail Hin Hl'.
      destruct (dict_del word (word_data (self w))) as [d|] eqn:Hd.
      - rewrite (delete_word_steps _ _ _ Hd) in Hfail, Hl'. cbv zeta in *.
        destruct (storable (VDict d)); [discriminate|].
        destruct (dict_del_NoDup _ _ _ Hd Hnd) as [_ Hout].
        apply Hout. apply (Hl' word). exact Hin.
      - apply dict_del_None in Hd.
        rewrite (delete_word_KeyError _ _ Hd) in Hfail. discriminate. }
    split; [intros; now apply display_explanation_listed|].
    split.
    + intros [| |] [word|]; try exact Hl;
        now apply display_explanation_listed.
    + intros item. unfold listed.
      destruct (toggle_dark_mode_keeps item today w) as (_ & -> & -> & _).
      exact Hl.
  - intros text. rewrite filter_words_run. unfold listed.
    cbn [snd self word_list word_data set_word_list].
    eapply incl_tran; [apply incl_filter | apply sorted_incl].
  - apply sorted_incl.
Qed.

(** X6. On an item of the list, when every item of the list is a word of
    the mapping, [delete_word] never raises [KeyError], and returns when
    the mapping can be written (none of its strings holds a surrogate);
    [edit_word] creates no word: the keys and their order are as before,
    however it ends. *)
Theorem listed_item_safe (word : pystr) (w : world) :
  listed w ->
  In word (word_list (self w)) ->
  fst (delete_word (Some word) true w) <> Raise KeyError /\
  (storable (VDict (word_data (self w))) = true ->
   fst (delete_word (Some word) true w) = Return tt) /\
  (forall dialog today,
      dict_keys (word_data (self (snd (edit_word (Some word) dialog today w))))
      = dict_keys (word_data (self w))).
Proof.
  intros Hl Hin. apply Hl in Hin.
  destruct (dict_del_Some _ _ Hin) as [d Hdel]. split; [|split].
  - rewrite (delete_word_steps _ _ _ Hdel). cbv zeta.
    destruct (storable (VDict d)); discriminate.
  - intros Hs.
    now rewrite (delete_word_run _ _ _ Hdel (storable_dict_del _ _ _ Hdel Hs)).
  - intros dialog today.
    destruct (edit_word_cases (Some word) dialog today w)
      as [(word' & current & updated & [= <-] & -> & Hcur) | ->];
      [|reflexivity].
    rewrite (edit_word_data _ current) by assumption.
    now apply dict_keys_set_present.
Qed.

(** ** Adding, then deleting *)

Lemma dict_del_set_new {A : Type} (k : pystr) (v : A) (d : dict A) :
  ~ In k (dict_keys d) -> dict_del k (dict_set k v d) = Some d.
Proof.
  induction d as [|[k' v'] d IH]; simpl; intros Hin.
  - now rewrite str_eqb_refl.
  - case_str_eqb k k'; [subst; exfalso; apply Hin; now left|]. simpl.
    apply str_eqb_neq in E. rewrite E. rewrite IH; [reflexivity|].
    intros H. apply Hin. now right.
Qed.

(** X7. Adding a word that the mapping does not hold and deleting it
    again gives back the mapping as it was, entry by entry and in the
    same order, in memory and, for a mapping that can be written (none
    of its strings holds a surrogate), in the word-data file, with the
    list of its words; this does not depend on how the addition ended.
    The deletion leaves the progress file as the addition left it. *)
Theorem add_word_delete_word (word explanation today : pystr) (w : world) :
  strip word <> [] ->
  ~ In word (dict_keys (word_data (self w))) ->
  storable (VDict (word_data (self w))) = true ->
  let w1 := snd (add_word (word, true) (Some explanation) today w) in
  let r2 := delete_word (Some word) true w1 in
  fst r2 = Return tt /\
  word_data (self (snd r2)) = word_data (self w) /\
  word_data_json (disk (snd r2))
  = Some (dumps false 4 (VDict (word_data (self w)))) /\
  word_list (self (snd r2)) = sorted (dict_keys (word_data (self w))) /\
  progress_log_json (disk (snd r2)) = progress_log_json (disk w1).
Proof.
  intros Hword Hin Hs w1 r2.
  pose proof (add_word_data word explanation today w Hword) as Hdata.
  fold w1 in Hdata.
  assert (dict_del word (word_data (self w1)) = Some (word_data (self w)))
    as Hdel by (rewrite Hdata; now apply dict_del_set_new).
  unfold r2. rewrite (delete_word_run _ _ _ Hdel Hs). repeat split.
Qed.

(** ** Editing *)

(** X8. [edit_word] on a word of the mapping changes the explanation of
    that word only: the keys and their order, the explanations of the
    other words, the list and the mode are as before, however it ends.
    When the new mapping can be written (none of its strings holds a
    surrogate) the pane shows the new explanation; otherwise [save_data]
    fails before the word is shown again and the pane is as it was. A
    dialog that is cancelled, or no current item, changes nothing and
    logs nothing. *)
Theorem edit_word_keeps_others (word current updated today : pystr)
  (w : world) :
  In word (dict_keys (word_data (self w))) ->
  word_data_get word (self w) = VStr current ->
  let r := edit_word (Some word) (Some updated) today w in
  dict_keys (word_data (self (snd r))) = dict_keys (word_data (self w)) /\
  (forall other,
      other <> word ->
      dict_get other (word_data (self (snd r)))
      = dict_get other (word_data (self w))) /\
  word_list (self (snd r)) = word_list (self w) /\
  dark_mode (self (snd r)) = dark_mode (self w) /\
  (storable (VDict (word_data (self (snd r)))) = true ->
   text_browser (self (snd r)) = Html updated (dark_mode (self w))) /\
  (storable (VDict (word_data (self (snd r)))) = false ->
   fst r = Raise UnicodeEncodeError /\
   text_browser (self (snd r)) = text_browser (self w)) /\
  edit_word (Some word) None today w = (Return tt, w) /\
  (forall dialog, edit_word None dialog today w = (Return tt, w)).
Proof.
  intros Hin Hcur r.
  destruct (edit_word_state word current updated today w Hcur)
    as (Hdata & Hsaved & Hfail).
  fold r in Hdata, Hsaved, Hfail. rewrite Hdata.
  split; [now apply dict_keys_set_present|].
  split; [intros other Hne; apply dict_get_set_ne; congruence|].
  split; [now apply (edit_word_list _ current)|].
  split.
  { destruct (storable (VDict (dict_set word (VStr updated)
                                 (word_data (self w))))).
    - destruct (Hsaved eq_refl) as [_ ->]. reflexivity.
    - now rewrite (Hfail eq_refl). }
  split; [intros Hs; destruct (Hsaved Hs) as [_ ->]; reflexivity|].
  split; [intros Hs; rewrite (Hfail Hs); split; reflexivity|].
  split; [|reflexivity].
  unfold edit_word, bind, get. now rewrite Hcur.
Qed.

(** ** [log_progress] writes last *)

Lemma bind_assoc {S A B C : Type} (m : M S A) (f : A -> M S B)
  (g : B -> M S C) (s : S) :
  bind (bind m f) g s = bind m (fun a => bind (f a) g) s.
Proof. unfold bind. now destruct (m s) as [[a|e|] s1]. Qed.

Lemma bind_ext {S A B : Type} (m : M S A) (f g : A -> M S B) (s : S) :
  (forall a s', f a s' = g a s') -> bind m f s = bind m g s.
Proof. intros H. unfold bind. now destruct (m s) as [[a|e|] s1]. Qed.

(** The log that [log_progress] is about to write. *)
Definition next_log (action today : pystr) : M FS (dict value) :=
  bind (path_exists PROGRESS_FILE) (fun e =>
  bind (if e
        then bind (json_load PROGRESS_FILE) (fun other => update_from [] other)
        else ret [])
    (fun log =>
       increment
         (if negb (dict_contains today log) then dict_set today new_day log
          else log) today action)).

Lemma log_progress_next_log (action today : pystr) (fs : FS) :
  log_progress action today fs
  = bind (next_log action today)
      (fun log => json_dump (VDict log) PROGRESS_FILE true 2) fs.
Proof.
  unfold next_log, log_progress. rewrite bind_assoc.
  apply bind_ext. intros e fs1. now rewrite bind_assoc.
Qed.

Lemma reads_next_log (action today : pystr) :
  reads_only (next_log action today).
Proof.
  unfold next_log. apply reads_bind; [apply reads_path_exists|]. intros e.
  apply reads_bind; [|intros log; apply reads_increment].
  destruct e; [|apply reads_ret].
  apply reads_bind; [apply reads_json_load|]. intros other.
  apply reads_update_from.
Qed.

Lemma log_progress_split (action today : pystr) (fs : FS) :
  log_progress action today fs =
  match fst (next_log action today fs) with
  | Return log =>
    (Return tt, write PROGRESS_FILE (dumps true 2 (VDict log)) fs)
  | Raise e => (Raise e, fs)
  | Unmodelled => (Unmodelled, fs)
  end.
Proof.
  rewrite log_progress_next_log. unfold bind.
  pose proof (reads_next_log action today fs) as R.
  destruct (next_log action today fs) as [[log|e|] fs1];
    cbn [fst snd] in *; subst; auto using json_dump_ascii.
Qed.

Lemma increment_today {S : Type} (log log' : dict value)
  (today action : pystr) (s s' : S) :
  increment log today action s = (Return log', s') ->
  exists day v,
    dict_get today log' = Some (VDict day) /\ dict_get action day = Some v.
Proof.
  unfold increment.
  destruct (match dict_get today log with
            | Some entry => (entry, log)
            | None => (new_day, dict_set today new_day log)
            end) as [entry log1].
  destruct entry as [| | | | | |day]; try discriminate.
  destruct (dict_get action day) as [v|]; [|discriminate].
  unfold bind. destruct (add1 v s) as [[v'|e|] s1]; try discriminate.
  intros [= <- _]. exists (dict_set action v' day), v'.
  now rewrite !dict_get_set_eq.
Qed.

Lemma next_log_today (action today : pystr) (fs fs' : FS)
  (log : dict value) :
  next_log action today fs = (Return log, fs') ->
  exists day v,
    dict_get today log = Some (VDict day) /\ dict_get action day = Some v.
Proof.
  unfold next_log. intros E.
  apply bind_Return in E as (e & fs1 & _ & E).
  apply bind_Return in E as (log0 & fs2 & _ & E).
  eapply increment_today, E.
Qed.

(** X9. [log_progress] writes once, at its end: a call that does not
    return has changed neither file, and a call that returns has written
    the progress file only, with a log that holds an entry for today with
    a counter for the action. *)
Theorem log_progress_all_or_nothing (action today : pystr) (fs : FS) :
  let r := log_progress action today fs in
  word_data_json (snd r) = word_data_json fs /\
  (fst r <> Return tt -> snd r = fs) /\
  (fst r = Return tt ->
   exists log day v,
     progress_log_json (snd r) = Some (dumps true 2 (VDict log)) /\
     dict_get today log = Some (VDict day) /\
     dict_get action day = Some v).
Proof.
  intros r. unfold r. rewrite log_progress_split.
  destruct (next_log action today fs) as [[log|e|] fs1] eqn:E; cbn [fst snd].
  - split; [reflexivity|]. split; [congruence|]. intros _.
    destruct (next_log_today _ _ _ _ _ E) as (day & v & H1 & H2).
    now exists log, day, v.
  - repeat split. discriminate.
  - repeat split. discriminate.
Qed.

(** ** A progress file that cannot be used *)

Lemma next_log_loaded (action today : pystr) (fs : FS) (text : pystr) :
  progress_log_json fs = Some text ->
  next_log action today fs =
  match loads text with
  | None => (Raise JSONDecodeError, fs)
  | Some other =>
    bind (update_from [] other)
      (fun log =>
         increment
           (if negb (dict_contains today log) then dict_set today new_day log
            else log) today action) fs
  end.
Proof.
  intros F. unfold next_log, bind at 1, path_exists. cbn [read]. rewrite F.
  unfold bind at 1 2, json_load. cbn [read]. rewrite F.
  destruct (loads text); reflexivity.
Qed.

(** X10. With a progress file that cannot be used [log_progress] raises and
    leaves the file as it is: [JSONDecodeError] for a text that is not
    JSON; [TypeError] for a document that is [null], a truth value or a
    number, [ValueError] for a non-empty string; and for an object,
    [TypeError] when today's entry is not an object, [KeyError] when it
    is an object without the action, [TypeError] when the counter of the
    action is no number. *)
Theorem log_progress_unusable (action today text : pystr) (fs : FS) :
  progress_log_json fs = Some text ->
  (loads text = None ->
   log_progress action today fs = (Raise JSONDecodeError, fs)) /\
  (forall v,
      loads text = Some v ->
      match v with
      | VNone | VBool _ | VInt _ | VFloat _ => True
      | _ => False
      end ->
      log_progress action today fs = (Raise TypeError, fs)) /\
  (forall c s,
      loads text = Some (VStr (c :: s)) ->
      log_progress action today fs = (Raise ValueError, fs)) /\
  (forall log entry,
      loads text = Some (VDict log) ->
      dict_get today log = Some entry ->
      (forall day, entry <> VDict day) ->
      log_progress action today fs = (Raise TypeError, fs)) /\
  (forall log day,
      loads text = Some (VDict log) ->
      dict_get today log = Some (VDict day) ->
      dict_get action day = None ->
      log_progress action today fs = (Raise KeyError, fs)) /\
  (forall log day v,
      loads text = Some (VDict log) ->
      dict_get today log = Some (VDict day) ->
      dict_get action day = Some v ->
      match v with
      | VNone | VStr _ | VList _ | VDict _ => True
      | _ => False
      end ->
      log_progress action today fs = (Raise TypeError, fs)).
Proof.
  intros F.
  assert (forall log,
             loads text = Some (VDict log) ->
             next_log action today fs
             = increment
                 (if negb (dict_contains today log)
                  then dict_set today new_day log else log) today action fs)
    as Hobj.
  { intros log E. rewrite (next_log_loaded _ _ _ _ F), E.
    unfold update_from, bind, ret.
    now rewrite (dict_update_nil log) by (eapply loads_NoDup, E). }
  split; [|split; [|split; [|split; [|split]]]].
  - intros E. rewrite log_progress_split, (next_log_loaded _ _ _ _ F), E.
    reflexivity.
  - intros v E Hv. rewrite log_progress_split, (next_log_loaded _ _ _ _ F), E.
    destruct v; try contradiction; reflexivity.
  - intros c s E. rewrite log_progress_split, (next_log_loaded _ _ _ _ F), E.
    reflexivity.
  - intros log entry E Hget Hentry.
    rewrite log_progress_split, (Hobj log E).
    unfold dict_contains, increment. rewrite Hget. cbn [negb]. rewrite Hget.
    destruct entry; try reflexivity. now destruct (Hentry d).
  - intros log day E Hget Haction.
    rewrite log_progress_split, (Hobj log E).
    unfold dict_contains, increment. rewrite Hget. cbn [negb].
    now rewrite Hget, Haction.
  - intros log day v E Hget Haction Hv.
    rewrite log_progress_split, (Hobj log E).
    unfold dict_contains, increment. rewrite Hget. cbn [negb].
    rewrite Hget, Haction.
    destruct v; try contradiction; reflexivity.
Qed.

(** X11. When the logging of an addition fails, [add_word] fails with
    the same exception after the word has been stored and saved (the new
    mapping being one that can be written, with no surrogate in its
    strings): the mapping and the word-data file hold the new word, the
    progress file is as it was, and the list has not been refreshed. *)
Theorem add_word_log_failure (word explanation today : pystr) (w : world)
  (e : exn) :
  strip word <> [] ->
  storable (VDict (dict_set word (VStr explanation) (word_data (self w))))
  = true ->
  fst (log_progress (str "added") today (disk w)) = Raise e ->
  let r := add_word (word, true) (Some explanation) today w in
  fst r = Raise e /\
  word_data_get word (self (snd r)) = VStr explanation /\
  synced (snd r) /\
  progress_log_json (disk (snd r)) = progress_log_json (disk w) /\
  word_list (self (snd r)) = word_list (self w).
Proof.
  intros Hword Hs Hlog r. unfold r, synced.
  rewrite add_word_run by assumption. cbv zeta.
  rewrite log_progress_after_save. cbn [fst snd]. rewrite Hlog.
  assert (snd (log_progress (str "added") today (disk w)) = disk w) as ->.
  { rewrite log_progress_split in *.
    destruct (fst (next_log (str "added") today (disk w)));
      [discriminate | reflexivity | reflexivity]. }
  cbn [fst snd self disk word_data word_list set_word_data write
       word_data_json progress_log_json].
  split; [reflexivity|]. split; [|repeat split].
  unfold word_data_get, set_word_data. cbn [word_data].
  now rewrite dict_get_set_eq.
Qed.

(** ** Events add up *)

Lemma counter_ready_bump_any (action action' today date : pystr)
  (log : dict value) :
  is_action action' ->
  counter_ready action' date log ->
  counter_ready action' date (bump action today log).
Proof.
  intros Ha H. unfold counter_ready.
  destruct (pystr_eq_dec date today) as [-> | Hne];
    [|now rewrite bump_other_date].
  rewrite bump_today, day_of_bump.
  destruct (pystr_eq_dec action action') as [-> | Hact].
  { eexists. apply dict_get_set_eq. }
  rewrite dict_get_set_ne by assumption.
  unfold counter_ready in H. unfold day_of.
  destruct (dict_get today log) as [[| | | | | |day]|]; try contradiction.
  - exact H.
  - exists 0%Z. now apply new_day_counts.
Qed.

Lemma counter_bump_any (action action' today date : pystr)
  (log : dict value) :
  counter action' date (bump action today log)
  = (counter action' date log
     + if str_eqb action action' && str_eqb today date then 1 else 0)%Z.
Proof.
  case_str_eqb action action'.
  - subst. case_str_eqb today date.
    + subst. apply counter_bump.
    + cbn [andb]. rewrite Z.add_0_r. unfold counter, day_of.
      rewrite bump_other_date by congruence. reflexivity.
  - cbn [andb]. rewrite Z.add_0_r. apply counter_bump_other. congruence.
Qed.

Lemma log_all_counts (events : list (pystr * pystr)) :
  forall (fs : FS) (log : dict value),
    prior_log fs log ->
    plain true (VDict log) ->
    Forall (fun e => is_action (fst e) /\ is_text (snd e) /\
                     counter_ready (fst e) (snd e) log) events ->
    exists log',
      fst (log_all events fs) = Return tt /\
      prior_log (snd (log_all events fs)) log' /\
      plain true (VDict log') /\
      word_data_json (snd (log_all events fs)) = word_data_json fs /\
      forall action date,
        counter action date log'
        = (counter action date log + logged action date events)%Z.
Proof.
  induction events as [|[a t] events IH]; intros fs log Hprior Hplain Hev.
  - exists log. repeat split; auto. intros action date.
    unfold logged. simpl. now rewrite Z.add_0_r.
  - inversion Hev as [|? ? (Ha & Ht & Hready) Hrest]; subst.
    cbn [fst snd] in Ha, Ht, Hready.
    cbn [log_all]. unfold bind.
    rewrite (log_progress_bump _ _ _ log) by assumption.
    set (log1 := bump a t log).
    set (fs1 := write PROGRESS_FILE (dumps true 2 (VDict log1)) fs).
    assert (plain true (VDict log1)) as Hplain1.
    { apply plain_bump; auto. now intros _. }
    destruct (IH fs1 log1) as (log' & H1 & H2 & H3 & H4 & H5); auto.
    { unfold prior_log, fs1. cbn [write progress_log_json].
      now apply loads_dumps. }
    { eapply Forall_impl; [|exact Hrest].
      intros e (Ha' & Ht' & Hready'). repeat split; auto.
      now apply counter_ready_bump_any. }
    exists log'. repeat split; auto.
    intros action date. rewrite H5. unfold log1.
    rewrite counter_bump_any. unfold logged. cbn [filter fst snd].
    destruct (str_eqb a action && str_eqb t date); cbn [List.length]; lia.
Qed.

(** X12. No event is lost. Starting from a usable log that holds text and
    no float, any sequence of calls of [log_progress] returns, leaves the
    word-data file alone, and ends with a progress file that holds a log
    in which every counter of every day is what it was plus the number of
    events logged for it. *)
Theorem log_progress_accumulates (events : list (pystr * pystr)) (fs : FS)
  (log : dict value) :
  prior_log fs log ->
  plain true (VDict log) ->
  Forall (fun e => is_action (fst e) /\ is_text (snd e) /\
                   counter_ready (fst e) (snd e) log) events ->
  exists log',
    fst (log_all events fs) = Return tt /\
    prior_log (snd (log_all events fs)) log' /\
    word_data_json (snd (log_all events fs)) = word_data_json fs /\
    forall action date,
      counter action date log'
      = (counter action date log + logged action date events)%Z.
Proof.
  intros Hprior Hplain Hev.
  destruct (log_all_counts events fs log Hprior Hplain Hev)
    as (log' & H1 & H2 & _ & H4 & H5).
  now exists log'.
Qed.

(** ** Showing the progress *)

Lemma show_progress_run (fs : FS) :
  show_progress fs =
  match progress_log_json fs with
  | None => (Return None, fs)
  | Some text =>
    match loads text with
    | None => (Raise JSONDecodeError, fs)
    | Some v =>
      (match fst (ProgressDialog v fs) with
       | Return shown => Return (Some shown)
       | Raise e => Raise e
       | Unmodelled => Unmodelled
       end, fs)
    end
  end.
Proof.
  unfold show_progress, bind at 1, path_exists. cbn [read].
  destruct (progress_log_json fs) as [text|] eqn:F; cbn [negb];
    [|reflexivity].
  unfold bind at 1, json_load. cbn [read]. rewrite F.
  destruct (loads text) as [v|]; [|reflexivity].
  unfold bind. rewrite (ProgressDialog_fst v fs fs).
  now destruct (fst (ProgressDialog v fs)).
Qed.

(** X13. [show_progress] never writes. It shows no dialog exactly when
    there is no progress file; it raises [JSONDecodeError] on a file that
    is not JSON and [AttributeError] on a document that is no object; on
    an object it ends as [ProgressDialog] ends on it. *)
Theorem show_progress_cases (fs : FS) :
  snd (show_progress fs) = fs /\
  (progress_log_json fs = None <-> fst (show_progress fs) = Return None) /\
  (forall text,
      progress_log_json fs = Some text ->
      (loads text = None ->
       fst (show_progress fs) = Raise JSONDecodeError) /\
      (forall v,
          loads text = Some v ->
          (forall d, v <> VDict d) ->
          fst (show_progress fs) = Raise AttributeError) /\
      (forall d,
          loads text = Some (VDict d) ->
          fst (show_progress fs)
          = match fst (ProgressDialog (VDict d) fs) with
            | Return shown => Return (Some shown)
            | Raise e => Raise e
            | Unmodelled => Unmodelled
            end)).
Proof.
  rewrite show_progress_run.
  destruct (progress_log_json fs) as [text|] eqn:F.
  - destruct (loads text) as [v|] eqn:E; cbn [fst snd].
    + split; [reflexivity|]. split.
      { split; [discriminate|].
        destruct (fst (ProgressDialog v fs)); discriminate. }
      intros text0 [= <-]. rewrite E. split; [discriminate|]. split.
      * intros v0 [= <-] Hv. destruct v; try reflexivity.
        now destruct (Hv d).
      * now intros d [= ->].
    + split; [reflexivity|]. split; [split; discriminate|].
      intros text0 [= <-]. rewrite E. split; [reflexivity|].
      split; [intros v0; discriminate | intros d; discriminate].
  - split; [reflexivity|]. split; [split; reflexivity|]. discriminate.
Qed.

(** ** Searching *)

Lemma str_in_trans (a b c : pystr) :
  str_in a b = true -> str_in b c = true -> str_in a c = true.
Proof.
  rewrite !str_in_occurs.
  intros (p1 & q1 & ->) (p2 & q2 & ->).
  exists (p2 ++ p1), (q1 ++ q2). now rewrite <- !List.app_assoc.
Qed.

(** X14. A longer search text narrows the list: when the lower-cased text
    contains the lower-cased earlier text, every word it shows was shown
    for the earlier text. [filter_words] changes the list only, and
    always filters the words of the mapping, not the list shown: after
    another search, or after [refresh_word_list], the list is what it
    would be without the earlier search. Searching for a word of the
    mapping, written as it is, finds it. *)
Theorem filter_words_narrows (text1 text2 : pystr) (w : world) :
  str_in (lower text1) (lower text2) = true ->
  incl (word_list (self (snd (filter_words text2 w))))
       (word_list (self (snd (filter_words text1 w)))) /\
  (word_data (self (snd (filter_words text1 w))) = word_data (self w) /\
   dark_mode (self (snd (filter_words text1 w))) = dark_mode (self w) /\
   text_browser (self (snd (filter_words text1 w))) = text_browser (self w) /\
   disk (snd (filter_words text1 w)) = disk w) /\
  filter_words text2 (snd (filter_words text1 w)) = filter_words text2 w /\
  refresh_word_list (snd (filter_words text1 w)) = refresh_word_list w /\
  (forall word,
      In word (dict_keys (word_data (self w))) ->
      In word (word_list (self (snd (filter_words word w))))).
Proof.
  intros Hsub. rewrite !filter_words_run.
  cbn [snd self disk word_list word_data dark_mode text_browser
       set_word_list].
  split; [|split; [repeat split|split; [reflexivity|split; [reflexivity|]]]].
  - intros word Hin. apply filter_In in Hin as [Hin Hocc].
    apply filter_In. split; auto. eapply str_in_trans; eassumption.
  - intros word Hin. rewrite filter_words_run.
    cbn [snd self word_list set_word_list]. apply filter_In. split.
    + now apply sorted_In.
    + apply str_in_occurs. exists [], []. now rewrite List.app_nil_r.
Qed.

(** ** Blank words *)

Lemma lstrip_nil (s : pystr) : lstrip s = [] <-> forallb isspace s = true.
Proof.
  induction s as [|c s IH]; simpl; [tauto|].
  destruct (isspace c); simpl; auto. split; discriminate.
Qed.

Lemma strip_nil (s : pystr) : strip s = [] <-> forallb isspace s = true.
Proof.
  rewrite <- lstrip_nil. unfold strip.
  pose proof (lstrip_head s) as H.
  destruct (lstrip s) as [|c t]; [tauto|].
  rewrite (rstrip_cons c t H). split; discriminate.
Qed.

(** X15. The words that [add_word] ignores are those made of white space
    only, the empty word among them: on such a word it returns and
    changes nothing; on a word with one character that is no white
    space, and an accepted dialog, it stores the explanation under the
    word. *)
Theorem add_word_accepts (word explanation today : pystr) (w : world) :
  (forallb isspace word = true ->
   forall ok dialog, add_word (word, ok) dialog today w = (Return tt, w)) /\
  (forallb isspace word = false ->
   word_data_get word
     (self (snd (add_word (word, true) (Some explanation) today w)))
   = VStr explanation /\
   add_word (word, false) (Some explanation) today w = (Return tt, w) /\
   add_word (word, true) None today w = (Return tt, w)).
Proof.
  split.
  - intros H ok dialog. apply add_word_blank. now apply strip_nil.
  - intros H.
    assert (strip word <> []) as Hword.
    { intros E. apply strip_nil in E. congruence. }
    destruct (add_word_state word explanation today w Hword) as (Hdata & _).
    split; [|split].
    + unfold word_data_get. now rewrite Hdata, dict_get_set_eq.
    + reflexivity.
    + unfold add_word. cbn [negb orb]. now destruct (strip word).
Qed.

(** ** Starting the application *)

Lemma DictionaryApp_init_run (fs : FS) :
  DictionaryApp_init fs =
  match word_data_json fs with
  | None => (Return (mkApp [] false [] Blank), fs)
  | Some text =>
    match loads text with
    | None => (Raise JSONDecodeError, fs)
    | Some (VDict d) => (Return (mkApp d false (sorted (dict_keys d)) Blank), fs)
    | Some _ => (Raise AttributeError, fs)
    end
  end.
Proof.
  unfold DictionaryApp_init, load_data, bind, path_exists, json_load.
  cbn [read].
  destruct (word_data_json fs) as [text|] eqn:F; rewrite ?F; [|reflexivity].
  destruct (loads text) as [[]|]; reflexivity.
Qed.

(** X16. [DictionaryApp.__init__] never writes. Without a word-data file
    the application starts empty. With one it fails with
    [JSONDecodeError] when the text is not JSON and with [AttributeError]
    when the document is no object; on an object it starts with the
    entries of the object, the list of all its words in ascending order,
    the light mode and an empty pane. *)
Theorem DictionaryApp_init_cases (fs : FS) :
  snd (DictionaryApp_init fs) = fs /\
  (word_data_json fs = None ->
   fst (DictionaryApp_init fs) = Return (mkApp [] false [] Blank)) /\
  (forall text,
      word_data_json fs = Some text ->
      (loads text = None ->
       fst (DictionaryApp_init fs) = Raise JSONDecodeError) /\
      (forall v,
          loads text = Some v ->
          (forall d, v <> VDict d) ->
          fst (DictionaryApp_init fs) = Raise AttributeError) /\
      (forall d,
          loads text = Some (VDict d) ->
          fst (DictionaryApp_init fs)
          = Return (mkApp d false (sorted (dict_keys d)) Blank))) /\
  (forall a,
      fst (DictionaryApp_init fs) = Return a ->
      NoDup (dict_keys (word_data a)) /\
      ascending (word_list a) /\
      (forall word,
          In word (word_list a) <-> In word (dict_keys (word_data a))) /\
      dark_mode a = false /\
      text_browser a = Blank).
Proof.
  rewrite DictionaryApp_init_run.
  destruct (word_data_json fs) as [text|] eqn:F.
  - destruct (loads text) as [v|] eqn:E.
    + assert (snd match v with
                  | VDict d =>
                    (Return (mkApp d false (sorted (dict_keys d)) Blank), fs)
                  | _ => (@Raise DictionaryApp AttributeError, fs)
                  end = fs) as Hsnd by now destruct v.
      split; [exact Hsnd|]. split; [discriminate|]. split.
      * intros text0 [= <-]. rewrite E. split; [discriminate|]. split.
        -- intros v0 [= <-] Hv. destruct v; try reflexivity.
           now destruct (Hv d).
        -- now intros d [= ->].
      * intros a. destruct v; try discriminate. cbn [fst].
        intros [= <-]. cbn [word_data word_list dark_mode text_browser].
        split; [eapply loads_NoDup, E|].
        split; [apply sorted_ascending|].
        split; [intros word; apply sorted_In|]. split; reflexivity.
    + split; [reflexivity|]. split; [discriminate|]. split.
      * intros text0 [= <-]. rewrite E. split; [reflexivity|].
        split; [intros v0; discriminate | intros d; discriminate].
      * discriminate.
  - split; [reflexivity|]. split; [reflexivity|]. split; [discriminate|].
    intros a [= <-]. cbn. repeat split; auto; try constructor.
Qed.

(** ** Starting again *)

Lemma VStr_plain_false (s : pystr) : plain false (VStr s).
Proof. constructor. apply str_ok_false. Qed.

Lemma add_word_saved (word : pystr) (ok : bool) (dialog : option pystr)
  (today : pystr) (w : world) :
  encodable word = true ->
  (forall explanation, dialog = Some explanation ->
                       encodable explanation = true) ->
  saved w -> saved (snd (add_word (word, ok) dialog today w)).
Proof.
  intros Hw He (Hs & Hst & Hp).
  destruct (add_word_cases (word, ok) dialog today w)
    as [(word' & explanation & [= <- ->] & -> & Hword) | ->];
    [|now repeat split].
  destruct (add_word_state word explanation today w Hword)
    as (Hdata & Hfile & _).
  assert (storable
            (VDict (dict_set word (VStr explanation) (word_data (self w))))
          = true) as Hst'.
  { apply storable_dict_set; auto. now apply He. }
  rewrite Hdata in Hfile. destruct (Hfile Hst') as [Hsync _].
  unfold saved, synced. rewrite Hdata. repeat split; auto.
  apply plain_dict_set; auto using str_ok_false, VStr_plain_false.
Qed.

Lemma edit_word_saved (item dialog : option pystr) (today : pystr)
  (w : world) :
  (forall word, item = Some word -> encodable word = true) ->
  (forall updated, dialog = Some updated -> encodable updated = true) ->
  saved w -> saved (snd (edit_word item dialog today w)).
Proof.
  intros Hw He (Hs & Hst & Hp).
  destruct (edit_word_cases item dialog today w)
    as [(word & current & updated & -> & -> & Hcur) | ->];
    [|now repeat split].
  destruct (edit_word_state word current updated today w Hcur)
    as (Hdata & Hsaved & _).
  assert (storable
            (VDict (dict_set word (VStr updated) (word_data (self w))))
          = true) as Hst'.
  { apply storable_dict_set; auto. now apply He. }
  destruct (Hsaved Hst') as [Hsync _].
  unfold saved. rewrite Hdata. repeat split; auto.
  apply plain_dict_set; auto using str_ok_false, VStr_plain_false.
Qed.

Lemma delete_word_saved (item : option pystr) (confirm : bool) (w : world) :
  saved w -> saved (snd (delete_word item confirm w)).
Proof.
  intros (Hs & Hst & Hp).
  destruct (delete_word_cases item confirm w)
    as [(word & d & -> & -> & Hd) | ->]; [|now repeat split].
  pose proof (storable_dict_del _ _ _ Hd Hst) as Hst'.
  rewrite (delete_word_run _ _ _ Hd Hst'). split; [reflexivity|].
  split; [exact Hst'|]. eapply plain_dict_del; eassumption.
Qed.

Lemma display_explanation_saved (word today : pystr) (w : world) :
  saved w -> saved (snd (display_explanation word today w)).
Proof.
  intros (Hs & Hst & Hp). unfold saved, synced.
  destruct (display_explanation_keeps word today w) as (-> & _ & _ & ->).
  now repeat split.
Qed.

Lemma toggle_dark_mode_saved (item : option pystr) (today : pystr)
  (w : world) :
  saved w -> saved (snd (toggle_dark_mode item today w)).
Proof.
  intros (Hs & Hst & Hp). unfold saved, synced.
  destruct (toggle_dark_mode_keeps item today w) as (_ & -> & _ & ->).
  now repeat split.
Qed.

Lemma saved_init (w : world) :
  saved w ->
  DictionaryApp_init (disk w) = (Return (started (word_data (self w))), disk w).
Proof.
  intros (Hs & _ & Hp). rewrite DictionaryApp_init_run. unfold synced in Hs.
  rewrite Hs. now rewrite loads_dumps by assumption.
Qed.

(** X17. What was saved is there after the application is started again.
    Once the word-data file holds what [save_data] writes for the mapping
    in memory (a mapping that can be written, with no surrogate in its
    strings, and without floats), this stays so through every handler,
    however the handler ends, as long as the words and the explanations
    that are entered hold no surrogate either; and a new start on the
    files gives the same mapping, entry by entry and in the same order,
    with the list of all its words; the mode is light again, whatever it
    was. *)
Theorem restart_reloads (w : world) (today : pystr) :
  saved w ->
  DictionaryApp_init (disk w)
  = (Return (started (word_data (self w))), disk w) /\
  (forall word ok dialog,
      encodable word = true ->
      (forall explanation, dialog = Some explanation ->
                           encodable explanation = true) ->
      saved (snd (add_word (word, ok) dialog today w))) /\
  (forall item dialog,
      (forall word, item = Some word -> encodable word = true) ->
      (forall updated, dialog = Some updated -> encodable updated = true) ->
      saved (snd (edit_word item dialog today w))) /\
  (forall item confirm, saved (snd (delete_word item confirm w))) /\
  (forall word, saved (snd (display_explanation word today w))) /\
  (forall event item, saved (snd (handle_key_press event item today w))) /\
  (forall item, saved (snd (toggle_dark_mode item today w))) /\
  (forall text, saved (snd (filter_words text w))) /\
  saved (snd (refresh_word_list w)).
Proof.
  intros H. split; [now apply saved_init|].
  split; [intros; now apply add_word_saved|].
  split; [intros; now apply edit_word_saved|].
  split; [intros; now apply delete_word_saved|].
  split; [intros; now apply display_explanation_saved|].
  split.
  { intros [| |] [word|]; try exact H; now apply display_explanation_saved. }
  split; [intros; now apply toggle_dark_mode_saved|].
  split; [intros text; exact H | exact H].
Qed.

(** ** The totals of any log *)

Lemma tally_countable (log : dict value) (date : pystr) (entry : value) :
  countable log ->
  dict_get date log = Some entry ->
  tally entry
  = Return (VInt (counter (str "added") date log),
            VInt (counter (str "viewed") date log),
            counter (str "added") date log,
            counter (str "viewed") date log).
Proof.
  intros Hc Hget.
  destruct (dict_get_Forall _ _ _ _ Hc Hget) as [k' H]. cbn [snd] in H.
  destruct entry as [| | | | | |day]; try contradiction.
  destruct H as [Ha Hv]. unfold counts in Ha, Hv.
  unfold tally, counter, day_of. rewrite Hget.
  destruct (dict_get (str "added") day) as [[]|]; try contradiction;
    destruct (dict_get (str "viewed") day) as [[]|]; try contradiction;
    reflexivity.
Qed.

Lemma summarize_countable {S : Type} (log : dict value)
  (dates : list pystr) :
  countable log ->
  incl dates (dict_keys log) ->
  forall lines a v (s : S),
    summarize log dates lines a v s
    = (Return
         (lines ++ map (line_of log) dates,
          a + fold_right Z.add 0
                (map (fun date => counter (str "added") date log) dates),
          v + fold_right Z.add 0
                (map (fun date => counter (str "viewed") date log) dates))%Z,
       s).
Proof.
  intros Hc. induction dates as [|date dates IH]; intros Hin lines a v s.
  - rewrite summarize_nil. cbn [map fold_right].
    now rewrite List.app_nil_r, !Z.add_0_r.
  - rewrite summarize_cons.
    destruct (dict_get date log) as [entry|] eqn:Hget.
    + rewrite (tally_countable _ _ _ Hc Hget).
      rewrite IH by (intros x Hx; apply Hin; now right).
      cbn [map fold_right]. rewrite <- List.app_assoc, !Z.add_assoc.
      reflexivity.
    + apply dict_get_None in Hget. exfalso. apply Hget, Hin. now left.
Qed.

Lemma sum_Permutation {A : Type} (f : A -> Z) (l l' : list A) :
  Permutation l l' ->
  fold_right Z.add 0%Z (map f l) = fold_right Z.add 0%Z (map f l').
Proof. induction 1; cbn [map fold_right]; lia. Qed.

(** X18. On a log whose entries are objects with integer counters,
    [ProgressDialog] returns, changes nothing, and shows one line for
    each day of the log, in ascending order of the dates, with the two
    counters of the day (0 for a counter the entry does not hold), and
    then the two totals: the sums of the counters over all the days. *)
Theorem ProgressDialog_sums {S : Type} (log : dict value) (s : S) :
  countable log ->
  ProgressDialog (VDict log) s
  = (Return (map (line_of log) (sorted (dict_keys log)),
             total (str "added") log, total (str "viewed") log), s).
Proof.
  intros Hc. unfold ProgressDialog.
  rewrite (summarize_countable log) by (auto; apply sorted_incl).
  unfold total.
  rewrite !(sum_Permutation _ _ _ (sorted_Permutation (dict_keys log))).
  reflexivity.
Qed.

Lemma summarize_Return {S : Type} (data : dict value) (dates : list pystr) :
  forall lines a v (s s' : S) r,
    summarize data dates lines a v s = (Return r, s') ->
    forall date,
      In date dates ->
      exists stats res,
        dict_get date data = Some stats /\ tally stats = Return res.
Proof.
  induction dates as [|date0 dates IH]; intros lines a v s s' r H date Hin.
  - destruct Hin.
  - rewrite summarize_cons in H.
    destruct (dict_get date0 data) as [stats|] eqn:Hget; [|discriminate].
    destruct (tally stats) as [[[[va vv] za] zv] | |] eqn:Ht;
      try discriminate.
    destruct Hin as [<- | Hin].
    + now exists stats, (va, vv, za, zv).
    + eapply IH; eassumption.
Qed.

Lemma tally_Return (stats : value) res :
  tally stats = Return res ->
  exists day,
    stats = VDict day /\
    forall action v,
      is_action action ->
      dict_get action day = Some v ->
      match v with
      | VNone | VStr _ | VList _ | VDict _ => False
      | _ => True
      end.
Proof.
  destruct stats as [| | | | | |day]; try discriminate.
  intros H. exists day. split; [reflexivity|].
  unfold tally in H. intros action v [-> | ->] Hget; rewrite Hget in H.
  - destruct v; try exact I; discriminate.
  - destruct (as_int _) as [za| |]; try discriminate.
    destruct v; try exact I; discriminate.
Qed.

(** X19. [ProgressDialog] returns only on a log whose every entry is an
    object in which "added" and "viewed", where present, are neither
    [null] nor a string, an array or an object: any other entry makes it
    fail. *)
Theorem ProgressDialog_needs {S : Type} (log : dict value) (s : S) shown :
  fst (ProgressDialog (VDict log) s) = Return shown ->
  forall date entry,
    dict_get date log = Some entry ->
    exists day,
      entry = VDict day /\
      forall action v,
        is_action action ->
        dict_get action day = Some v ->
        match v with
        | VNone | VStr _ | VList _ | VDict _ => False
        | _ => True
        end.
Proof.
  unfold ProgressDialog. intros H date entry Hget.
  destruct (summarize log (sorted (dict_keys log)) [] 0%Z 0%Z s)
    as [o s'] eqn:E.
  cbn [fst] in H. subst o.
  destruct (summarize_Return _ _ _ _ _ _ _ _ E date)
    as (stats & res & Hget' & Ht).
  { apply sorted_In. eapply dict_get_Some_In, Hget. }
  rewrite Hget in Hget'. injection Hget' as <-.
  eapply tally_Return, Ht.
Qed.

End Properties.

(** * The theorems at work

    The statements above hold for every run-time; below they are applied
    to concrete states, evaluated with [ascii_runtime]. *)

#[local] Existing Instance ascii_runtime.

Definition today_example : pystr := str "2026-11-04".

(** A fresh start: no word, no file. *)
Definition empty_world : world :=
  mkWorld (mkApp [] false [] Blank) (mkFS None None).

(** The store ["apple", "Banana", "cherry"], on a disk without files. *)
Definition fruit_world : world :=
  mkWorld
    (mkApp [(str "apple", VStr (str "a fruit"));
            (str "Banana", VStr (str "a berry"));
            (str "cherry", VStr (str "a drupe"))]
       false [] Blank)
    (mkFS None None).

(** The text [{"a": 1}]. *)
Definition text_a_1 : pystr :=
  (123 :: 34 :: 97 :: 34 :: str ": 1}")%N.

(** The text [{"é": {}}], with é as the code point 233. *)
Definition text_e_acute : pystr :=
  (123 :: 34 :: 233 :: 34 :: str ": {}}")%N.

Lemma add_word_get_list_witness :
  strip (str "serendipity") <> [] /\
  NoDup (dict_keys (word_data (self empty_world))) /\
  let r := add_word (str "serendipity", true) (Some (str "A happy accident."))
             today_example empty_world in
  word_data_get (str "serendipity") (self (snd r))
  = VStr (str "A happy accident.") /\
  count_occ pystr_eq_dec (sorted (dict_keys (word_data (self (snd r)))))
    (str "serendipity") = 1 /\
  fst r = Return tt.
Proof.
  assert (strip (str "serendipity") <> []) as H1
      by (vm_compute; discriminate).
  assert (NoDup (dict_keys (word_data (self empty_world)))) as H2
      by constructor.
  split; [exact H1|]. split; [exact H2|].
  destruct (add_word_get_list (str "serendipity") (str "A happy accident.")
              today_example empty_world H1 H2) as (Hget & Hcount & _ & Hret).
  split; [exact Hget|]. split; [exact Hcount|].
  apply (Hret []); reflexivity.
Defined.

Lemma add_word_blank_ignored_witness :
  strip (str "   ") = [] /\
  add_word (str "   ", true) (Some (str "nothing")) today_example fruit_world
  = (Return tt, fruit_world).
Proof.
  split; [reflexivity|].
  apply (add_word_blank_ignored (str "   ") true (Some (str "nothing"))
           today_example fruit_world).
  reflexivity.
Defined.

(** C6, the claim as it is written, fails: a blank word raises no error,
    the call returns normally. *)
Lemma add_word_blank_no_error :
  fst (add_word (str "   ", true) (Some (str "nothing")) today_example
         fruit_world) = Return tt /\
  ~ (exists e,
        fst (add_word (str "   ", true) (Some (str "nothing")) today_example
               fruit_world) = Raise e).
Proof.
  split; [reflexivity|]. intros [e H]. vm_compute in H. discriminate H.
Qed.

Lemma add_word_not_stripped_witness :
  strip (str " foo ") <> [] /\
  strip (str " foo ") <> str " foo " /\
  let w' := snd (add_word (str " foo ", true) (Some (str "padded"))
                   today_example fruit_world) in
  let w'' := snd (add_word (str "foo", true) (Some (str "bare"))
                    today_example w') in
  word_data_get (str " foo ") (self w') = VStr (str "padded") /\
  dict_get (str "foo") (word_data (self w')) = None /\
  word_data_get (str " foo ") (self w'') = VStr (str "padded") /\
  word_data_get (str "foo") (self w'') = VStr (str "bare").
Proof.
  assert (strip (str " foo ") <> []) as H1 by (vm_compute; discriminate).
  assert (strip (str " foo ") <> str " foo ") as H2
      by (vm_compute; discriminate).
  split; [exact H1|]. split; [exact H2|].
  destruct (add_word_not_stripped (str " foo ") (str "padded") today_example
              fruit_world H1 H2) as (Hget & _ & Hother & Hboth).
  destruct (Hboth (str "bare") today_example) as (Hpadded & Hbare).
  split; [exact Hget|]. split.
  - rewrite (Hother (str "foo")) by discriminate. reflexivity.
  - split; [exact Hpadded | exact Hbare].
Defined.


Lemma log_progress_counts_witness :
  prior_log (disk empty_world) [] /\
  log_progress (str "added") today_example (disk empty_world)
  = (Return tt,
     mkFS None
       (Some (dumps true 2
                (VDict [(today_example,
                         VDict [(str "added", VInt 1);
                                (str "viewed", VInt 0)])])))) /\
  ProgressDialog (VDict (bump (str "added") today_example []))
    (disk empty_world)
  = (Return ([(today_example, VInt 1, VInt 0)], 1%Z, 0%Z), disk empty_world).
Proof.
  assert (prior_log (disk empty_world) []) as H by reflexivity.
  split; [exact H|].
  destruct (log_progress_counts today_example (disk empty_world) [] H)
    as [Hadded _].
  destruct (Hadded I) as (Hrun & _). split; [exact Hrun|]. reflexivity.
Defined.



Lemma filter_words_shows_witness :
  (forall s, is_ascii s -> lower s = ascii_lower s) /\
  word_list (self (snd (filter_words (str "an") fruit_world)))
  = [str "Banana"] /\
  filter_words [] fruit_world = refresh_word_list fruit_world.
Proof.
  assert (forall s, is_ascii s -> lower s = ascii_lower s) as H
      by (intros s _; reflexivity).
  split; [exact H|].
  destruct (filter_words_shows fruit_world H) as (Hall & _ & Hfruit).
  split; [apply Hfruit; reflexivity | exact Hall].
Defined.

(** C8, the claim as it is written, fails: a word-data file that holds a
    JSON array, or a mapping to numbers, is loaded without any error. *)
Lemma load_data_accepts_any_shape :
  load_data (mkFS (Some (str "[1, 2]")) None)
  = (Return (VList [VInt 1; VInt 2]), mkFS (Some (str "[1, 2]")) None) /\
  load_data (mkFS (Some text_a_1) None)
  = (Return (VDict [(str "a", VInt 1)]), mkFS (Some text_a_1) None).
Proof. split; reflexivity. Qed.

(** C9, the claim as it is written, fails. The same mapping is written
    in two different ways by [save_data] and by [log_progress]; and
    [log_progress] does not keep a non-ASCII key of the progress file as
    it is: the é of [{"é": {}}] is read, and written back as an escape. *)
Lemma dump_formats_differ :
  (let logged :=
     VDict [(today_example,
             VDict [(str "added", VInt 1); (str "viewed", VInt 0)])] in
   progress_log_json
     (snd (log_progress (str "added") today_example (mkFS None None)))
   = Some (dumps true 2 logged) /\
   word_data_json (snd (save_data logged (mkFS None None)))
   = Some (dumps false 4 logged) /\
   dumps true 2 logged <> dumps false 4 logged) /\
  (loads text_e_acute = Some (VDict [([233%N], VDict [])]) /\
   In 233%N text_e_acute /\
   exists text,
     progress_log_json
       (snd (log_progress (str "added") today_example
               (mkFS None (Some text_e_acute)))) = Some text /\
     ~ In 233%N text /\
     startswith text ((123 :: 10 :: 32 :: 32 :: 34 :: 92 :: str "u00e9")%N)
     = true).
Proof.
  split.
  - split; [reflexivity|]. split; [reflexivity|].
    vm_compute. discriminate.
  - split; [reflexivity|]. split; [vm_compute; tauto|].
    eexists. split; [reflexivity|]. split; [|reflexivity].
    vm_compute. intuition discriminate.
Qed.

(** ** Further examples *)

(** The fruit store with its list shown. *)
Definition fruit_shown : world :=
  mkWorld
    (mkApp (word_data (self fruit_world)) false
       [str "Banana"; str "apple"; str "cherry"] Blank)
    (mkFS None None).

(** The fruit store, saved. *)
Definition fruit_saved : world :=
  mkWorld (self fruit_world)
    (mkFS (Some (dumps false 4 (VDict (word_data (self fruit_world))))) None).

(** A disk whose progress file is no JSON. *)
Definition broken_log : FS := mkFS None (Some (str "{oops")).

(** Two days of activity. *)
Definition two_days : dict value :=
  [(str "2026-11-04", VDict [(str "added", VInt 2); (str "viewed", VInt 5)]);
   (str "2026-11-03", VDict [(str "added", VInt 1)])].

(** The text [{"a": "\ud800"}]: ASCII, with an escaped surrogate. *)
Definition text_surrogate : pystr :=
  ([123; 34; 97; 34; 58; 32; 34; 92] ++ str "ud800" ++ [34; 125])%N.

(** The application started on a word-data file with that text, and
    what an addition then does: the mapping is loaded, [save_data] stops
    at the surrogate and raises, the file is left with a beginning that
    is no JSON, the progress file is not written and the list is not
    refreshed. *)
Lemma save_data_stops_at_surrogate :
  let fs := mkFS (Some text_surrogate) None in
  let a := mkApp [(str "a", VStr [55296%N])] false [str "a"] Blank in
  DictionaryApp_init fs = (Return a, fs) /\
  let r := add_word (str "b", true) (Some (str "bee")) today_example
             (mkWorld a fs) in
  fst r = Raise UnicodeEncodeError /\
  word_data (self (snd r))
  = [(str "a", VStr [55296%N]); (str "b", VStr (str "bee"))] /\
  word_data_json (disk (snd r))
  = Some ([123; 10; 32; 32; 32; 32; 34; 97; 34; 58; 32]%N) /\
  loads [123; 10; 32; 32; 32; 32; 34; 97; 34; 58; 32]%N = None /\
  progress_log_json (disk (snd r)) = None /\
  word_list (self (snd r)) = [str "a"].
Proof. repeat split. Qed.

Lemma fruit_NoDup : NoDup (dict_keys (word_data (self fruit_world))).
Proof. repeat constructor; simpl; intuition discriminate. Qed.

Lemma fruit_storable : storable (VDict (word_data (self fruit_world))) = true.
Proof. reflexivity. Qed.

Lemma delete_word_removes_witness :
  NoDup (dict_keys (word_data (self fruit_world))) /\
  In (str "Banana") (dict_keys (word_data (self fruit_world))) /\
  storable (VDict (word_data (self fruit_world))) = true /\
  let r := delete_word (Some (str "Banana")) true fruit_world in
  fst r = Return tt /\
  dict_get (str "Banana") (word_data (self (snd r))) = None /\
  synced (snd r) /\
  word_list (self (snd r)) = [str "apple"; str "cherry"].
Proof.
  assert (In (str "Banana") (dict_keys (word_data (self fruit_world))))
    as H2 by (simpl; tauto).
  split; [exact fruit_NoDup|]. split; [exact H2|].
  split; [exact fruit_storable|].
  destruct (delete_word_removes (str "Banana") fruit_world fruit_NoDup H2
              fruit_storable)
    as (Hret & Hget & _ & Hsync & Hlist & _).
  split; [exact Hret|]. split; [exact Hget|]. split; [exact Hsync|].
  rewrite Hlist. reflexivity.
Defined.

Lemma listed_item_safe_witness :
  listed fruit_shown /\
  In (str "apple") (word_list (self fruit_shown)) /\
  fst (delete_word (Some (str "apple")) true fruit_shown) <> Raise KeyError /\
  fst (delete_word (Some (str "apple")) true fruit_shown) = Return tt /\
  dict_keys
    (word_data
       (self (snd (edit_word (Some (str "apple")) (Some (str "a pome"))
                     today_example fruit_shown))))
  = [str "apple"; str "Banana"; str "cherry"].
Proof.
  assert (listed fruit_shown) as H1.
  { intros x. simpl. tauto. }
  assert (In (str "apple") (word_list (self fruit_shown))) as H2
      by (simpl; tauto).
  split; [exact H1|]. split; [exact H2|].
  destruct (listed_item_safe (str "apple") fruit_shown H1 H2)
    as (Hkey & Hdel & Hedit).
  split; [exact Hkey|]. split; [apply Hdel; reflexivity | apply Hedit].
Defined.

Lemma add_word_delete_word_witness :
  strip (str "durian") <> [] /\
  ~ In (str "durian") (dict_keys (word_data (self fruit_world))) /\
  storable (VDict (word_data (self fruit_world))) = true /\
  let w1 := snd (add_word (str "durian", true) (Some (str "a spiky fruit"))
                   today_example fruit_world) in
  let r2 := delete_word (Some (str "durian")) true w1 in
  fst r2 = Return tt /\
  word_data (self (snd r2)) = word_data (self fruit_world) /\
  progress_log_json (disk (snd r2))
  = Some (dumps true 2 (VDict (bump (str "added") today_example []))).
Proof.
  assert (strip (str "durian") <> []) as H1 by (vm_compute; discriminate).
  assert (~ In (str "durian") (dict_keys (word_data (self fruit_world))))
    as H2 by (simpl; intuition discriminate).
  split; [exact H1|]. split; [exact H2|]. split; [exact fruit_storable|].
  destruct (add_word_delete_word (str "durian") (str "a spiky fruit")
              today_example fruit_world H1 H2 fruit_storable)
    as (Hret & Hdata & _ & _ & Hlog).
  split; [exact Hret|]. split; [exact Hdata|]. rewrite Hlog. reflexivity.
Defined.

Lemma edit_word_keeps_others_witness :
  In (str "apple") (dict_keys (word_data (self fruit_shown))) /\
  word_data_get (str "apple") (self fruit_shown) = VStr (str "a fruit") /\
  let r := edit_word (Some (str "apple")) (Some (str "a pome")) today_example
             fruit_shown in
  dict_keys (word_data (self (snd r)))
  = [str "apple"; str "Banana"; str "cherry"] /\
  dict_get (str "cherry") (word_data (self (snd r)))
  = Some (VStr (str "a drupe")) /\
  word_list (self (snd r)) = [str "Banana"; str "apple"; str "cherry"] /\
  text_browser (self (snd r)) = Html (str "a pome") false.
Proof.
  assert (In (str "apple") (dict_keys (word_data (self fruit_shown))))
    as H1 by (simpl; tauto).
  assert (word_data_get (str "apple") (self fruit_shown)
          = VStr (str "a fruit")) as H2 by reflexivity.
  split; [exact H1|]. split; [exact H2|].
  destruct (edit_word_keeps_others (str "apple") (str "a fruit")
              (str "a pome") today_example fruit_shown H1 H2)
    as (Hkeys & Hother & Hlist & _ & Hpane & _).
  split; [exact Hkeys|].
  split; [|split; [exact Hlist | apply Hpane; reflexivity]].
  rewrite (Hother (str "cherry")) by discriminate. reflexivity.
Defined.

Lemma log_progress_unusable_witness :
  progress_log_json broken_log = Some (str "{oops") /\
  log_progress (str "viewed") today_example broken_log
  = (Raise JSONDecodeError, broken_log).
Proof.
  assert (progress_log_json broken_log = Some (str "{oops")) as H
      by reflexivity.
  split; [exact H|].
  destruct (log_progress_unusable (str "viewed") today_example (str "{oops")
              broken_log H) as [Hjson _].
  apply Hjson. reflexivity.
Defined.

Lemma add_word_log_failure_witness :
  strip (str "durian") <> [] /\
  storable
    (VDict (dict_set (str "durian") (VStr (str "a spiky fruit"))
              (word_data (self fruit_shown)))) = true /\
  fst (log_progress (str "added") today_example
         (disk (mkWorld (self fruit_shown) broken_log)))
  = Raise JSONDecodeError /\
  let r := add_word (str "durian", true) (Some (str "a spiky fruit"))
             today_example (mkWorld (self fruit_shown) broken_log) in
  fst r = Raise JSONDecodeError /\
  word_data_get (str "durian") (self (snd r)) = VStr (str "a spiky fruit") /\
  progress_log_json (disk (snd r)) = Some (str "{oops") /\
  word_list (self (snd r)) = [str "Banana"; str "apple"; str "cherry"].
Proof.
  assert (strip (str "durian") <> []) as H1 by (vm_compute; discriminate).
  assert (storable
            (VDict (dict_set (str "durian") (VStr (str "a spiky fruit"))
                      (word_data (self fruit_shown)))) = true) as Hs
      by reflexivity.
  assert (fst (log_progress (str "added") today_example
                 (disk (mkWorld (self fruit_shown) broken_log)))
          = Raise JSONDecodeError) as H2 by reflexivity.
  split; [exact H1|]. split; [exact Hs|]. split; [exact H2|].
  destruct (add_word_log_failure (str "durian") (str "a spiky fruit")
              today_example (mkWorld (self fruit_shown) broken_log)
              JSONDecodeError H1 Hs H2)
    as (Hret & Hget & _ & Hlog & Hlist).
  split; [exact Hret|]. split; [exact Hget|].
  split; [exact Hlog | exact Hlist].
Defined.

Lemma log_progress_accumulates_witness :
  let events := [(str "added", today_example); (str "viewed", today_example);
                 (str "viewed", today_example)] in
  prior_log (mkFS None None) [] /\
  plain true (VDict []) /\
  Forall (fun e => is_action (fst e) /\ is_text (snd e) /\
                   counter_ready (fst e) (snd e) []) events /\
  exists log',
    fst (log_all events (mkFS None None)) = Return tt /\
    prior_log (snd (log_all events (mkFS None None))) log' /\
    counter (str "added") today_example log' = 1%Z /\
    counter (str "viewed") today_example log' = 2%Z.
Proof.
  intros events.
  assert (prior_log (mkFS None None) []) as H1 by reflexivity.
  assert (plain true (VDict [])) as H2.
  { apply plain_parts. split; constructor. }
  assert (is_text today_example) as Ht.
  { apply is_ascii_text. unfold today_example. repeat constructor. }
  assert (Forall (fun e => is_action (fst e) /\ is_text (snd e) /\
                           counter_ready (fst e) (snd e) []) events) as H3.
  { unfold events.
    repeat apply Forall_cons; try apply Forall_nil;
      (split; [|split; [exact Ht | exact I]]); cbn [fst];
      [now left | now right | now right]. }
  split; [exact H1|]. split; [exact H2|]. split; [exact H3|].
  destruct (log_progress_accumulates events (mkFS None None) [] H1 H2 H3)
    as (log' & Hret & Hprior & _ & Hcount).
  exists log'. split; [exact Hret|]. split; [exact Hprior|].
  rewrite !Hcount. split; reflexivity.
Defined.

Lemma filter_words_narrows_witness :
  str_in (lower (str "an")) (lower (str "Ana")) = true /\
  word_list (self (snd (filter_words (str "an") fruit_world)))
  = [str "Banana"] /\
  incl (word_list (self (snd (filter_words (str "Ana") fruit_world))))
       (word_list (self (snd (filter_words (str "an") fruit_world)))) /\
  In (str "cherry")
    (word_list (self (snd (filter_words (str "cherry") fruit_world)))).
Proof.
  assert (str_in (lower (str "an")) (lower (str "Ana")) = true) as H
      by reflexivity.
  split; [exact H|]. split; [reflexivity|].
  destruct (filter_words_narrows (str "an") (str "Ana") fruit_world H)
    as (Hincl & _ & _ & _ & Hfind).
  split; [exact Hincl|]. apply Hfind. simpl. tauto.
Defined.

Lemma restart_reloads_witness :
  saved fruit_saved /\
  DictionaryApp_init (disk fruit_saved)
  = (Return (started (word_data (self fruit_saved))), disk fruit_saved) /\
  word_list (started (word_data (self fruit_saved)))
  = [str "Banana"; str "apple"; str "cherry"] /\
  saved (snd (delete_word (Some (str "apple")) true fruit_saved)).
Proof.
  assert (saved fruit_saved) as H.
  { split; [reflexivity|]. split; [reflexivity|].
    apply plain_parts. split; [exact fruit_NoDup|].
    repeat constructor; apply str_ok_false. }
  split; [exact H|].
  destruct (restart_reloads fruit_saved today_example H)
    as (Hinit & _ & _ & Hdel & _).
  split; [exact Hinit|]. split; [reflexivity|]. apply Hdel.
Defined.

Lemma ProgressDialog_sums_witness :
  countable two_days /\
  ProgressDialog (VDict two_days) tt
  = (Return ([(str "2026-11-03", VInt 1, VInt 0);
              (str "2026-11-04", VInt 2, VInt 5)], 3%Z, 5%Z), tt).
Proof.
  assert (countable two_days) as H.
  { repeat constructor. }
  split; [exact H|].
  rewrite (ProgressDialog_sums two_days tt H). reflexivity.
Defined.

Lemma ProgressDialog_needs_witness :
  fst (ProgressDialog (VDict two_days) tt)
  = Return ([(str "2026-11-03", VInt 1, VInt 0);
             (str "2026-11-04", VInt 2, VInt 5)], 3%Z, 5%Z) /\
  dict_get (str "2026-11-03") two_days = Some (VDict [(str "added", VInt 1)]) /\
  exists day,
    VDict [(str "added", VInt 1)] = VDict day /\
    forall action v,
      is_action action ->
      dict_get action day = Some v ->
      match v with
      | VNone | VStr _ | VList _ | VDict _ => False
      | _ => True
      end.
Proof.
  assert (fst (ProgressDialog (VDict two_days) tt)
          = Return ([(str "2026-11-03", VInt 1, VInt 0);
                     (str "2026-11-04", VInt 2, VInt 5)], 3%Z, 5%Z)) as H1
      by reflexivity.
  assert (dict_get (str "2026-11-03") two_days
          = Some (VDict [(str "added", VInt 1)])) as H2 by reflexivity.
  split; [exact H1|]. split; [exact H2|].
  exact (ProgressDialog_needs two_days tt _ H1 _ _ H2).
Defined.
